(** * Scalper: the signal-to-position decision engine of src/lib/scalper.js

    A shallow embedding of the trading engine (class [Scalper]) together
    with the properties its specification states about bankroll
    accounting, the open-position set, the tick guard, the exit rules, the
    binary probability model, the cold-start guard and the win/loss
    bookkeeping.

    Conventions of the embedding.
    - JavaScript numbers that carry money, prices and ratios are rationals
      ([Q]); equality of amounts is [==].  Timestamps are integers in
      milliseconds ([Z]); counters are [nat].  The probability model, which
      needs [exp], [ln] and [sqrt], is stated over the reals ([R]).
    - [Date.now()] is an explicit argument [now] of every operation.
    - The object [this] is the record [Scalper]; every method takes the
      state and returns the new one.
    - The order client, the market-intelligence module and the price feeds
      are collaborators: their answers are arguments (records of answers or
      functions), never assumed to have a particular value.
    - Log lines and the log-throttling stamps on positions are left out:
      they influence no decision. *)

From Stdlib Require Import ZArith QArith Qround Qabs Qminmax Qreals List Ascii String Bool Lia Reals Psatz.
From stdpp Require Import gmap strings.

Open Scope Q_scope.

(** ** JavaScript numeric idioms over [Q] *)

Definition Qltb (x y : Q) : bool := negb (Qle_bool y x).
Definition Qleb (x y : Q) : bool := Qle_bool x y.
Definition Qgtb (x y : Q) : bool := Qltb y x.
Definition Qgeb (x y : Q) : bool := Qleb y x.

(** A number used as a condition is false exactly when it is zero. *)
Definition truthy (x : Q) : bool := negb (Qeq_bool x 0).

(** [a || b] on numbers. *)
Definition orElse (a b : Q) : Q := if truthy a then a else b.

(** [Math.round]: the nearest integer, halves towards plus infinity. *)
Definition Math_round (x : Q) : Z := Qfloor (x + 0.5).

(** [Math.round(x * k) / k]. *)
Definition roundTo (k : Z) (x : Q) : Q := inject_Z (Math_round (x * inject_Z k)) / inject_Z k.

(** [Math.floor(x * 100) / 100]. *)
Definition floorCents (x : Q) : Q := inject_Z (Qfloor (x * 100)) / 100.

Definition Qnat (n : nat) : Q := inject_Z (Z.of_nat n).

(** Seconds between two millisecond stamps: [(a - b) / 1000]. *)
Definition secsBetween (a b : Z) : Q := inject_Z (a - b) / 1000.

(** ** Configuration: the constants at the head of scalper.js *)

Inductive Timeframe := TF5m | TF15m | TF1h | TF4h | TF1d | TFother.
Inductive Side := UP | DOWN.

Definition Timeframe_eqb (a b : Timeframe) : bool :=
  match a, b with
  | TF5m, TF5m | TF15m, TF15m | TF1h, TF1h | TF4h, TF4h | TF1d, TF1d | TFother, TFother => true
  | _, _ => false
  end.

Definition Side_eqb (a b : Side) : bool :=
  match a, b with UP, UP | DOWN, DOWN => true | _, _ => false end.

Definition sideName (sd : Side) : string := match sd with UP => "UP" | DOWN => "DOWN" end.

Definition PROBE_SIZE : Q := 1.
Definition STARTING_BANKROLL : Q := 8.25.
Definition MAX_POSITIONS : nat := 1.
Definition ONLY_BTC : bool := true.
Definition MAX_SINGLE_BET : Q := 10.
Definition MAX_5M_BET : Q := 2.
Definition ENTRY_LOCK_MS : Z := 2000.
Definition MIN_ENTRY_SECS : Q := 60.

Definition STOP_LOSS_BY_TF (tf : Timeframe) : option Q :=
  match tf with
  | TF5m => Some 0.12 | TF15m => Some 0.18 | TF1h => Some 0.28
  | TF4h => Some 0.35 | TF1d => Some 0.40 | TFother => None
  end.

Definition TRAILING_LOCK_BY_TF (tf : Timeframe) : option Q :=
  match tf with
  | TF5m => Some 0.50 | TF15m => Some 0.45 | TF1h => Some 0.35
  | TF4h => Some 0.30 | TF1d => Some 0.25 | TFother => None
  end.

Definition PROFIT_TARGET_BY_TF (tf : Timeframe) : option Q :=
  match tf with
  | TF5m => Some 0.08 | TF15m => Some 0.12 | TF1h => Some 0.20
  | TF4h => Some 0.28 | TF1d => Some 0.45 | TFother => None
  end.

Definition HOLD_THROUGH_DIPS (tf : Timeframe) : bool :=
  match tf with TF1h | TF4h | TF1d => true | _ => false end.

Definition ANNUAL_VOL (asset : string) : option Q :=
  if String.eqb asset "BTC" then Some 0.50
  else if String.eqb asset "ETH" then Some 0.60
  else if String.eqb asset "SOL" then Some 0.80
  else None.

Definition LATENCY_DELAY_MS : Z := 5000.

Definition LIQUIDITY_EXIT_BY_TF (tf : Timeframe) : option Q :=
  match tf with
  | TF5m => Some 30 | TF15m => Some 60 | TF1h => Some 120
  | TF4h => Some 240 | TF1d => Some 600 | TFother => None
  end.

Definition FORCE_EXIT_BY_TF (tf : Timeframe) : option Q :=
  match tf with
  | TF5m => Some 15 | TF15m => Some 30 | TF1h => Some 60
  | TF4h => Some 120 | TF1d => Some 300 | TFother => None
  end.

Definition ENTRY_BUFFER_BY_TF (tf : Timeframe) : option Q :=
  match tf with
  | TF5m => Some 150 | TF15m => Some 420 | TF1h => Some 1200
  | TF4h => Some 3600 | TF1d => Some 72000 | TFother => None
  end.

Definition SLIPPAGE_PENALTY : Q := 0.02.
Definition SPREAD_COST_ENTRY : Q := 0.5.
Definition SPREAD_COST_EXIT : Q := 0.5.
Definition SIZE_IMPACT_THRESHOLD : Q := 100.
Definition SIZE_IMPACT_FACTOR : Q := 0.0001.
Definition LATE_EXIT_SPREAD_MULT : Q := 2.

Definition MOM_WEAK : Q := 0.0002.
Definition MOM_STRONG : Q := 0.002.
Definition BEAR_BOOST : Q := 1.2.
Definition DAILY_LOSS_LIMIT : Q := 6.
Definition HEALTH_WINDOW : nat := 30.
Definition HEALTH_MIN_WINRATE : Q := 0.45.
Definition RSI_PERIOD : nat := 4.
Definition RSI_OB : Q := 80.
Definition RSI_OS : Q := 20.
Definition BB_PERIOD : nat := 20.
Definition BB_MULT : Q := 2.

Definition STALE_BY_TF (tf : Timeframe) : option Z :=
  match tf with
  | TF5m => Some 240000%Z | TF1h => Some 1800000%Z
  | TF4h => Some 7200000%Z | TF1d => Some 43200000%Z
  | TF15m | TFother => None
  end.
Definition DEFAULT_STALE : Z := 1800000.

Definition PROBE_WINDOW : nat := 20.
Definition PROBE_MIN_SAMPLES : nat := 3.
Definition PROBE_WIN_THRESHOLD : Q := 0.55.

Record BetTier := {
  tierName : string; minConv : Q; maxConv : Q; pctMin : Q; pctMax : Q; fixed : Q
}.

Definition BET_TIERS : list BetTier :=
  [ {| tierName := "SCOUT";      minConv := 0.00; maxConv := 0.30; pctMin := 0;    pctMax := 0;    fixed := PROBE_SIZE |};
    {| tierName := "SMALL";      minConv := 0.30; maxConv := 0.50; pctMin := 0.15; pctMax := 0.35; fixed := 0 |};
    {| tierName := "MEDIUM";     minConv := 0.50; maxConv := 0.70; pctMin := 0.35; pctMax := 0.60; fixed := 0 |};
    {| tierName := "HIGH";       minConv := 0.70; maxConv := 0.85; pctMin := 0.60; pctMax := 0.85; fixed := 0 |};
    {| tierName := "AGGRESSIVE"; minConv := 0.85; maxConv := 0.95; pctMin := 0.85; pctMax := 0.98; fixed := 0 |};
    {| tierName := "ALL-IN";     minConv := 0.95; maxConv := 1.00; pctMin := 0.90; pctMax := 0.98; fixed := 0 |} ].

(** ** Data model *)

Module Position.
(** An element of [this.positions].  [endDate = 0] and [peakGain = 0]
    are the values JavaScript treats as absent. *)
Record t := mk {
  conditionId : string;
  asset : string;
  timeframe : option Timeframe;
  side : Side;
  tokenId : string;
  entryPrice : Q;
  midPriceAtEntry : Q;
  size : Q;
  costBasis : Q;
  targetProfit : Q;
  endDate : Z;
  totalSecs : Q;
  openedAt : Z;
  peakGain : Q;
  unrealizedPnl : Q;
  currentPrice : Q;
  entryReason : string;
  cryptoPriceAtEntry : Q;
  conviction : Q;
  betTier : string;
  patternKey : string;
  _latencyHoldTs : option Z
}.
End Position.

Module Market.
(** An element of [this.markets], as built by [refreshMarkets]. *)
Record t := mk {
  conditionId : string;
  asset : string;
  timeframe : Timeframe;
  upToken : string;
  downToken : string;
  endDate : Z;
  secsLeft : Z;
  totalSecs : Q;
  gammaUpPrice : Q;
  gammaDownPrice : Q
}.
End Market.

(** An entry of [this._orderbooks].  [asksEmpty] stands for
    [book.asks && book.asks.length === 0], [bidsEmpty] likewise. *)
Record Book := {
  mid : Q; bestBid : Q; bestAsk : Q; spread : Q; bidDepth : Q; askDepth : Q;
  asksEmpty : bool; bidsEmpty : bool
}.

Record ExecStats := {
  fills : nat; failures : nat; totalSlippage : Q; totalSpreadCost : Q
}.

Record ProbeRecord := { pr_wins : nat; pr_losses : nat; results : list bool }.

(** What [_simulateEntry] and [_simulateExit] return when they do not
    return [null]. *)
Record Fill := {
  execPrice : Q; fillMid : Q; slippage : Q; spreadCost : Q; fillSpread : Q;
  depth : Q; orderId : option string
}.

(** The reason tag of a close request in [_managePositions]. *)
Inductive ExitReason :=
| WIN_RESOLVE | LOSS_RESOLVE | LIQ_FORCE | SALVAGE_SIGMA | SALVAGE_LAST
| LIQ_SAFE | PROFIT_1D_45 | DEAD_1D_2c | PRED_EXIT
| CHART_EXIT (reason : string) | MI_EXIT (reason : string)
| PROFIT | TRAIL_WIDE | TRAIL | FLIP | STOP | STALE.

(** An element of [this.history]: the position spread into a record with
    the exit data. *)
Record Closed := {
  closedPos : Position.t; exitPrice : Q; pnl : Q; reason : ExitReason;
  closedAt : Z; closedSlippage : Q
}.

(** *** The order client (src: the CLOB order module)

    [buyShares] and [sellShares] answer [{success: true, orderId,
    execPrice}] or [{success: false}]; [verifyOrder] answers [matched]. *)
Inductive OrderResult :=
| OrderPlaced (orderId : string) (execPrice : Q)
| OrderRefused.

Record OrderClient := {
  ready : bool;
  buyShares : string -> Q -> Q -> OrderResult;
  sellShares : string -> Q -> Q -> bool -> OrderResult;
  verifyOrder : string -> bool
}.

(** The calls made on the order client, most recent first. *)
Inductive ClientCall :=
| CallBuy (tokenId : string) (size price : Q)
| CallSell (tokenId : string) (shares price : Q) (urgent : bool)
| CallVerify (orderId : string)
| CallCancel (orderId : string).

(** The engine state: the fields of [this] that the modelled methods read
    or write. *)
Record Scalper := {
  positions : list Position.t;
  history : list Closed;
  markets : list Market.t;
  totalPnl : Q;
  totalBets : nat;
  wins : nat;
  losses : nat;
  running : bool;
  bankroll : Q;
  _tickCount : nat;
  _dailyPnl : Q;
  _dailyResetDate : string;
  _ticking : bool;
  _lastEntryTime : Z;
  _probeResults : gmap string ProbeRecord;
  _orderbooks : gmap string Book;
  _priceHistory : gmap string (list (Q * Z));
  _executionStats : ExecStats;
  _orderClient : option OrderClient;
  _liveTading : bool;
  _entryLock : bool;
  clientCalls : list ClientCall
}.

(** *** Field assignments on the state *)

Definition set_positions v (s : Scalper) : Scalper :=
  {| positions := v; history := history s; markets := markets s; totalPnl := totalPnl s;
     totalBets := totalBets s; wins := wins s; losses := losses s; running := running s;
     bankroll := bankroll s; _tickCount := _tickCount s; _dailyPnl := _dailyPnl s;
     _dailyResetDate := _dailyResetDate s; _ticking := _ticking s;
     _lastEntryTime := _lastEntryTime s; _probeResults := _probeResults s;
     _orderbooks := _orderbooks s; _priceHistory := _priceHistory s;
     _executionStats := _executionStats s; _orderClient := _orderClient s;
     _liveTading := _liveTading s; _entryLock := _entryLock s;
     clientCalls := clientCalls s |}.

Definition set_history v (s : Scalper) : Scalper :=
  {| positions := positions s; history := v; markets := markets s; totalPnl := totalPnl s;
     totalBets := totalBets s; wins := wins s; losses := losses s; running := running s;
     bankroll := bankroll s; _tickCount := _tickCount s; _dailyPnl := _dailyPnl s;
     _dailyResetDate := _dailyResetDate s; _ticking := _ticking s;
     _lastEntryTime := _lastEntryTime s; _probeResults := _probeResults s;
     _orderbooks := _orderbooks s; _priceHistory := _priceHistory s;
     _executionStats := _executionStats s; _orderClient := _orderClient s;
     _liveTading := _liveTading s; _entryLock := _entryLock s;
     clientCalls := clientCalls s |}.

Definition set_totalPnl v (s : Scalper) : Scalper :=
  {| positions := positions s; history := history s; markets := markets s; totalPnl := v;
     totalBets := totalBets s; wins := wins s; losses := losses s; running := running s;
     bankroll := bankroll s; _tickCount := _tickCount s; _dailyPnl := _dailyPnl s;
     _dailyResetDate := _dailyResetDate s; _ticking := _ticking s;
     _lastEntryTime := _lastEntryTime s; _probeResults := _probeResults s;
     _orderbooks := _orderbooks s; _priceHistory := _priceHistory s;
     _executionStats := _executionStats s; _orderClient := _orderClient s;
     _liveTading := _liveTading s; _entryLock := _entryLock s;
     clientCalls := clientCalls s |}.

Definition set_totalBets v (s : Scalper) : Scalper :=
  {| positions := positions s; history := history s; markets := markets s;
     totalPnl := totalPnl s; totalBets := v; wins := wins s; losses := losses s;
     running := running s; bankroll := bankroll s; _tickCount := _tickCount s;
     _dailyPnl := _dailyPnl s; _dailyResetDate := _dailyResetDate s;
     _ticking := _ticking s; _lastEntryTime := _lastEntryTime s;
     _probeResults := _probeResults s; _orderbooks := _orderbooks s;
     _priceHistory := _priceHistory s; _executionStats := _executionStats s;
     _orderClient := _orderClient s; _liveTading := _liveTading s;
     _entryLock := _entryLock s; clientCalls := clientCalls s |}.

Definition set_wins v (s : Scalper) : Scalper :=
  {| positions := positions s; history := history s; markets := markets s;
     totalPnl := totalPnl s; totalBets := totalBets s; wins := v; losses := losses s;
     running := running s; bankroll := bankroll s; _tickCount := _tickCount s;
     _dailyPnl := _dailyPnl s; _dailyResetDate := _dailyResetDate s;
     _ticking := _ticking s; _lastEntryTime := _lastEntryTime s;
     _probeResults := _probeResults s; _orderbooks := _orderbooks s;
     _priceHistory := _priceHistory s; _executionStats := _executionStats s;
     _orderClient := _orderClient s; _liveTading := _liveTading s;
     _entryLock := _entryLock s; clientCalls := clientCalls s |}.

Definition set_losses v (s : Scalper) : Scalper :=
  {| positions := positions s; history := history s; markets := markets s;
     totalPnl := totalPnl s; totalBets := totalBets s; wins := wins s; losses := v;
     running := running s; bankroll := bankroll s; _tickCount := _tickCount s;
     _dailyPnl := _dailyPnl s; _dailyResetDate := _dailyResetDate s;
     _ticking := _ticking s; _lastEntryTime := _lastEntryTime s;
     _probeResults := _probeResults s; _orderbooks := _orderbooks s;
     _priceHistory := _priceHistory s; _executionStats := _executionStats s;
     _orderClient := _orderClient s; _liveTading := _liveTading s;
     _entryLock := _entryLock s; clientCalls := clientCalls s |}.

Definition set_bankroll v (s : Scalper) : Scalper :=
  {| positions := positions s; history := history s; markets := markets s;
     totalPnl := totalPnl s; totalBets := totalBets s; wins := wins s; losses := losses s;
     running := running s; bankroll := v; _tickCount := _tickCount s;
     _dailyPnl := _dailyPnl s; _dailyResetDate := _dailyResetDate s;
     _ticking := _ticking s; _lastEntryTime := _lastEntryTime s;
     _probeResults := _probeResults s; _orderbooks := _orderbooks s;
     _priceHistory := _priceHistory s; _executionStats := _executionStats s;
     _orderClient := _orderClient s; _liveTading := _liveTading s;
     _entryLock := _entryLock s; clientCalls := clientCalls s |}.

Definition set_tickCount v (s : Scalper) : Scalper :=
  {| positions := positions s; history := history s; markets := markets s;
     totalPnl := totalPnl s; totalBets := totalBets s; wins := wins s; losses := losses s;
     running := running s; bankroll := bankroll s; _tickCount := v;
     _dailyPnl := _dailyPnl s; _dailyResetDate := _dailyResetDate s;
     _ticking := _ticking s; _lastEntryTime := _lastEntryTime s;
     _probeResults := _probeResults s; _orderbooks := _orderbooks s;
     _priceHistory := _priceHistory s; _executionStats := _executionStats s;
     _orderClient := _orderClient s; _liveTading := _liveTading s;
     _entryLock := _entryLock s; clientCalls := clientCalls s |}.

Definition set_dailyPnl v (s : Scalper) : Scalper :=
  {| positions := positions s; history := history s; markets := markets s;
     totalPnl := totalPnl s; totalBets := totalBets s; wins := wins s; losses := losses s;
     running := running s; bankroll := bankroll s; _tickCount := _tickCount s;
     _dailyPnl := v; _dailyResetDate := _dailyResetDate s; _ticking := _ticking s;
     _lastEntryTime := _lastEntryTime s; _probeResults := _probeResults s;
     _orderbooks := _orderbooks s; _priceHistory := _priceHistory s;
     _executionStats := _executionStats s; _orderClient := _orderClient s;
     _liveTading := _liveTading s; _entryLock := _entryLock s;
     clientCalls := clientCalls s |}.

Definition set_dailyResetDate v (s : Scalper) : Scalper :=
  {| positions := positions s; history := history s; markets := markets s;
     totalPnl := totalPnl s; totalBets := totalBets s; wins := wins s; losses := losses s;
     running := running s; bankroll := bankroll s; _tickCount := _tickCount s;
     _dailyPnl := _dailyPnl s; _dailyResetDate := v; _ticking := _ticking s;
     _lastEntryTime := _lastEntryTime s; _probeResults := _probeResults s;
     _orderbooks := _orderbooks s; _priceHistory := _priceHistory s;
     _executionStats := _executionStats s; _orderClient := _orderClient s;
     _liveTading := _liveTading s; _entryLock := _entryLock s;
     clientCalls := clientCalls s |}.

Definition set_ticking v (s : Scalper) : Scalper :=
  {| positions := positions s; history := history s; markets := markets s;
     totalPnl := totalPnl s; totalBets := totalBets s; wins := wins s; losses := losses s;
     running := running s; bankroll := bankroll s; _tickCount := _tickCount s;
     _dailyPnl := _dailyPnl s; _dailyResetDate := _dailyResetDate s; _ticking := v;
     _lastEntryTime := _lastEntryTime s; _probeResults := _probeResults s;
     _orderbooks := _orderbooks s; _priceHistory := _priceHistory s;
     _executionStats := _executionStats s; _orderClient := _orderClient s;
     _liveTading := _liveTading s; _entryLock := _entryLock s;
     clientCalls := clientCalls s |}.

Definition set_lastEntryTime v (s : Scalper) : Scalper :=
  {| positions := positions s; history := history s; markets := markets s;
     totalPnl := totalPnl s; totalBets := totalBets s; wins := wins s; losses := losses s;
     running := running s; bankroll := bankroll s; _tickCount := _tickCount s;
     _dailyPnl := _dailyPnl s; _dailyResetDate := _dailyResetDate s;
     _ticking := _ticking s; _lastEntryTime := v; _probeResults := _probeResults s;
     _orderbooks := _orderbooks s; _priceHistory := _priceHistory s;
     _executionStats := _executionStats s; _orderClient := _orderClient s;
     _liveTading := _liveTading s; _entryLock := _entryLock s;
     clientCalls := clientCalls s |}.

Definition set_probeResults v (s : Scalper) : Scalper :=
  {| positions := positions s; history := history s; markets := markets s;
     totalPnl := totalPnl s; totalBets := totalBets s; wins := wins s; losses := losses s;
     running := running s; bankroll := bankroll s; _tickCount := _tickCount s;
     _dailyPnl := _dailyPnl s; _dailyResetDate := _dailyResetDate s;
     _ticking := _ticking s; _lastEntryTime := _lastEntryTime s; _probeResults := v;
     _orderbooks := _orderbooks s; _priceHistory := _priceHistory s;
     _executionStats := _executionStats s; _orderClient := _orderClient s;
     _liveTading := _liveTading s; _entryLock := _entryLock s;
     clientCalls := clientCalls s |}.

Definition set_executionStats v (s : Scalper) : Scalper :=
  {| positions := positions s; history := history s; markets := markets s;
     totalPnl := totalPnl s; totalBets := totalBets s; wins := wins s; losses := losses s;
     running := running s; bankroll := bankroll s; _tickCount := _tickCount s;
     _dailyPnl := _dailyPnl s; _dailyResetDate := _dailyResetDate s;
     _ticking := _ticking s; _lastEntryTime := _lastEntryTime s;
     _probeResults := _probeResults s; _orderbooks := _orderbooks s;
     _priceHistory := _priceHistory s; _executionStats := v;
     _orderClient := _orderClient s; _liveTading := _liveTading s;
     _entryLock := _entryLock s; clientCalls := clientCalls s |}.

Definition set_entryLock v (s : Scalper) : Scalper :=
  {| positions := positions s; history := history s; markets := markets s;
     totalPnl := totalPnl s; totalBets := totalBets s; wins := wins s; losses := losses s;
     running := running s; bankroll := bankroll s; _tickCount := _tickCount s;
     _dailyPnl := _dailyPnl s; _dailyResetDate := _dailyResetDate s;
     _ticking := _ticking s; _lastEntryTime := _lastEntryTime s;
     _probeResults := _probeResults s; _orderbooks := _orderbooks s;
     _priceHistory := _priceHistory s; _executionStats := _executionStats s;
     _orderClient := _orderClient s; _liveTading := _liveTading s; _entryLock := v;
     clientCalls := clientCalls s |}.

Definition set_clientCalls v (s : Scalper) : Scalper :=
  {| positions := positions s; history := history s; markets := markets s;
     totalPnl := totalPnl s; totalBets := totalBets s; wins := wins s; losses := losses s;
     running := running s; bankroll := bankroll s; _tickCount := _tickCount s;
     _dailyPnl := _dailyPnl s; _dailyResetDate := _dailyResetDate s;
     _ticking := _ticking s; _lastEntryTime := _lastEntryTime s;
     _probeResults := _probeResults s; _orderbooks := _orderbooks s;
     _priceHistory := _priceHistory s; _executionStats := _executionStats s;
     _orderClient := _orderClient s; _liveTading := _liveTading s;
     _entryLock := _entryLock s; clientCalls := v |}.

(** *** Field assignments on a position *)

Definition pos_set_peakGain v (p : Position.t) : Position.t :=
  {| Position.conditionId := Position.conditionId p; Position.asset := Position.asset p;
     Position.timeframe := Position.timeframe p; Position.side := Position.side p;
     Position.tokenId := Position.tokenId p; Position.entryPrice := Position.entryPrice p;
     Position.midPriceAtEntry := Position.midPriceAtEntry p;
     Position.size := Position.size p; Position.costBasis := Position.costBasis p;
     Position.targetProfit := Position.targetProfit p;
     Position.endDate := Position.endDate p; Position.totalSecs := Position.totalSecs p;
     Position.openedAt := Position.openedAt p; Position.peakGain := v;
     Position.unrealizedPnl := Position.unrealizedPnl p;
     Position.currentPrice := Position.currentPrice p;
     Position.entryReason := Position.entryReason p;
     Position.cryptoPriceAtEntry := Position.cryptoPriceAtEntry p;
     Position.conviction := Position.conviction p; Position.betTier := Position.betTier p;
     Position.patternKey := Position.patternKey p;
     Position._latencyHoldTs := Position._latencyHoldTs p |}.

Definition pos_set_unrealizedPnl v (p : Position.t) : Position.t :=
  {| Position.conditionId := Position.conditionId p; Position.asset := Position.asset p;
     Position.timeframe := Position.timeframe p; Position.side := Position.side p;
     Position.tokenId := Position.tokenId p; Position.entryPrice := Position.entryPrice p;
     Position.midPriceAtEntry := Position.midPriceAtEntry p;
     Position.size := Position.size p; Position.costBasis := Position.costBasis p;
     Position.targetProfit := Position.targetProfit p;
     Position.endDate := Position.endDate p; Position.totalSecs := Position.totalSecs p;
     Position.openedAt := Position.openedAt p; Position.peakGain := Position.peakGain p;
     Position.unrealizedPnl := v; Position.currentPrice := Position.currentPrice p;
     Position.entryReason := Position.entryReason p;
     Position.cryptoPriceAtEntry := Position.cryptoPriceAtEntry p;
     Position.conviction := Position.conviction p; Position.betTier := Position.betTier p;
     Position.patternKey := Position.patternKey p;
     Position._latencyHoldTs := Position._latencyHoldTs p |}.

Definition pos_set_currentPrice v (p : Position.t) : Position.t :=
  {| Position.conditionId := Position.conditionId p; Position.asset := Position.asset p;
     Position.timeframe := Position.timeframe p; Position.side := Position.side p;
     Position.tokenId := Position.tokenId p; Position.entryPrice := Position.entryPrice p;
     Position.midPriceAtEntry := Position.midPriceAtEntry p;
     Position.size := Position.size p; Position.costBasis := Position.costBasis p;
     Position.targetProfit := Position.targetProfit p;
     Position.endDate := Position.endDate p; Position.totalSecs := Position.totalSecs p;
     Position.openedAt := Position.openedAt p; Position.peakGain := Position.peakGain p;
     Position.unrealizedPnl := Position.unrealizedPnl p; Position.currentPrice := v;
     Position.entryReason := Position.entryReason p;
     Position.cryptoPriceAtEntry := Position.cryptoPriceAtEntry p;
     Position.conviction := Position.conviction p; Position.betTier := Position.betTier p;
     Position.patternKey := Position.patternKey p;
     Position._latencyHoldTs := Position._latencyHoldTs p |}.

Definition pos_set_latencyHoldTs v (p : Position.t) : Position.t :=
  {| Position.conditionId := Position.conditionId p; Position.asset := Position.asset p;
     Position.timeframe := Position.timeframe p; Position.side := Position.side p;
     Position.tokenId := Position.tokenId p; Position.entryPrice := Position.entryPrice p;
     Position.midPriceAtEntry := Position.midPriceAtEntry p;
     Position.size := Position.size p; Position.costBasis := Position.costBasis p;
     Position.targetProfit := Position.targetProfit p;
     Position.endDate := Position.endDate p; Position.totalSecs := Position.totalSecs p;
     Position.openedAt := Position.openedAt p; Position.peakGain := Position.peakGain p;
     Position.unrealizedPnl := Position.unrealizedPnl p;
     Position.currentPrice := Position.currentPrice p;
     Position.entryReason := Position.entryReason p;
     Position.cryptoPriceAtEntry := Position.cryptoPriceAtEntry p;
     Position.conviction := Position.conviction p; Position.betTier := Position.betTier p;
     Position.patternKey := Position.patternKey p; Position._latencyHoldTs := v |}.

(** ** Execution: [_simulateEntry] and [_simulateExit] *)

(** [this._liveTading && this._orderClient && this._orderClient.ready] *)
Definition liveClient (s : Scalper) : option OrderClient :=
  if _liveTading s then
    match _orderClient s with
    | Some oc => if ready oc then Some oc else None
    | None => None
    end
  else None.

(** [this._executionStats.failures++] *)
Definition addFailure (s : Scalper) : Scalper :=
  let e := _executionStats s in
  set_executionStats
    {| fills := fills e; failures := S (failures e);
       totalSlippage := totalSlippage e; totalSpreadCost := totalSpreadCost e |} s.

(** [this._executionStats.fills++] *)
Definition addFill (s : Scalper) : Scalper :=
  let e := _executionStats s in
  set_executionStats
    {| fills := S (fills e); failures := failures e;
       totalSlippage := totalSlippage e; totalSpreadCost := totalSpreadCost e |} s.

(** The three statistics updates of a simulated fill. *)
Definition addPaperFill (slip cost : Q) (s : Scalper) : Scalper :=
  let e := _executionStats s in
  set_executionStats
    {| fills := S (fills e); failures := failures e;
       totalSlippage := totalSlippage e + slip;
       totalSpreadCost := totalSpreadCost e + cost |} s.

Definition call (c : ClientCall) (s : Scalper) : Scalper :=
  set_clientCalls (c :: clientCalls s) s.

Definition _simulateEntry (tokenId : string) (betSize midPrice : Q) (s : Scalper)
  : option Fill * Scalper :=
  let book := _orderbooks s !! tokenId in
  match liveClient s with
  | Some oc =>
      (* live trading: a real order, verified after the grace delay *)
      let askPrice :=
        match book with
        | Some b => if Qgtb (bestAsk b) 0 then bestAsk b else midPrice + 0.005
        | None => midPrice + 0.005
        end in
      let s1 := call (CallBuy tokenId betSize askPrice) s in
      match buyShares oc tokenId betSize askPrice with
      | OrderPlaced oid px =>
          let s2 := call (CallVerify oid) s1 in
          if negb (verifyOrder oc oid) then
            (None, addFailure (call (CallCancel oid) s2))
          else
            (Some {| execPrice := px; fillMid := midPrice; slippage := px - midPrice;
                     spreadCost := 0;
                     fillSpread := match book with Some b => spread b | None => 0 end;
                     depth := match book with Some b => askDepth b | None => 0 end;
                     orderId := Some oid |},
             addFill s2)
      | OrderRefused => (None, addFailure s1)
      end
  | None =>
      (* paper trading: spread and size impact *)
      let spread_ := match book with Some b => spread b | None => 0.01 end in
      let askDepth_ := match book with Some b => askDepth b | None => 100 end in
      if match book with
         | Some b => Qeq_bool (askDepth b) 0 && asksEmpty b
         | None => false
         end
      then (None, s)
      else
        let spreadCost_ := spread_ * SPREAD_COST_ENTRY in
        let execPrice0 := midPrice + spreadCost_ in
        let execPrice1 :=
          if Qgtb betSize SIZE_IMPACT_THRESHOLD && Qgtb askDepth_ 0
          then execPrice0 + (betSize - SIZE_IMPACT_THRESHOLD) * SIZE_IMPACT_FACTOR
          else execPrice0 in
        let totalSlippage_ := execPrice1 - midPrice in
        (Some {| execPrice := roundTo 10000 execPrice1; fillMid := midPrice;
                 slippage := roundTo 10000 totalSlippage_;
                 spreadCost := roundTo 10000 spreadCost_;
                 fillSpread := spread_; depth := askDepth_; orderId := None |},
         addPaperFill totalSlippage_ spreadCost_ s)
  end.

(** [position.endDate ? (position.endDate - Date.now()) / 1000 : 99999] *)
Definition secsToEndOf (endDate now : Z) : Q :=
  if Z.eqb endDate 0 then 99999 else secsBetween endDate now.

Definition _simulateExit (tokenId : string) (position : Position.t) (midPrice : Q)
    (isForced : bool) (now : Z) (s : Scalper) : option Fill * Scalper :=
  let book := _orderbooks s !! tokenId in
  let secsToEnd := secsToEndOf (Position.endDate position) now in
  match liveClient s with
  | Some oc =>
      let urgent := isForced || Qltb secsToEnd 120 in
      let bidPrice :=
        match book with
        | Some b => if Qgtb (bestBid b) 0 then bestBid b else Qmax 0.01 (midPrice - 0.005)
        | None => Qmax 0.01 (midPrice - 0.005)
        end in
      let shares := floorCents (Position.size position) in
      if Qltb shares 1 then (None, s)
      else
        let s1 := call (CallSell tokenId shares bidPrice urgent) s in
        match sellShares oc tokenId shares bidPrice urgent with
        | OrderPlaced oid px =>
            let s2 := call (CallVerify oid) s1 in
            if negb (verifyOrder oc oid) then
              (None, addFailure (call (CallCancel oid) s2))
            else
              (Some {| execPrice := px; fillMid := midPrice; slippage := midPrice - px;
                       spreadCost := 0;
                       fillSpread := match book with Some b => spread b | None => 0 end;
                       depth := match book with Some b => bidDepth b | None => 0 end;
                       orderId := Some oid |},
               addFill s2)
        | OrderRefused => (None, addFailure s1)
        end
  | None =>
      let spread_ := match book with Some b => spread b | None => 0.01 end in
      let bidDepth_ := match book with Some b => bidDepth b | None => 100 end in
      if match book with
         | Some b => Qeq_bool (bidDepth b) 0 && bidsEmpty b && negb isForced
         | None => false
         end
      then (None, addFailure s)
      else
        let effectiveSpread :=
          if Qltb secsToEnd 15 then spread_ * LATE_EXIT_SPREAD_MULT else spread_ in
        let spreadCost_ := effectiveSpread * SPREAD_COST_EXIT in
        let execPrice0 := midPrice - spreadCost_ in
        let posValue := Position.size position * midPrice in
        let execPrice1 :=
          if Qgtb posValue SIZE_IMPACT_THRESHOLD && Qgtb bidDepth_ 0
          then execPrice0 - (posValue - SIZE_IMPACT_THRESHOLD) * SIZE_IMPACT_FACTOR
          else execPrice0 in
        let execPrice2 := Qmax 0.001 execPrice1 in
        let totalSlippage_ := midPrice - execPrice2 in
        (Some {| execPrice := roundTo 10000 execPrice2; fillMid := midPrice;
                 slippage := roundTo 10000 totalSlippage_;
                 spreadCost := roundTo 10000 spreadCost_;
                 fillSpread := effectiveSpread; depth := bidDepth_; orderId := None |},
         addPaperFill totalSlippage_ spreadCost_ s)
  end.

(** ** The probe system and the model-health check *)

(** [{ wins: 0, losses: 0, results: [] }] *)
Definition emptyProbe : ProbeRecord := {| pr_wins := 0; pr_losses := 0; results := [] |}.

Definition _recordProbeResult (patternKey : string) (won : bool) (s : Scalper) : Scalper :=
  let p := default emptyProbe (_probeResults s !! patternKey) in
  let pushed := results p ++ [won] in
  let results' :=
    if Nat.ltb PROBE_WINDOW (length pushed) then tail pushed else pushed in
  let p' := {| pr_wins := if won then S (pr_wins p) else pr_wins p;
               pr_losses := if won then pr_losses p else S (pr_losses p);
               results := results' |} in
  set_probeResults (<[patternKey := p']> (_probeResults s)) s.

Record ProbeSummary := { samples : nat; winRate : Q; recentWR : Q; proven : bool }.

Definition countTrue (l : list bool) : nat := length (List.filter (fun r => r) l).

Definition _getProbeRecord (patternKey : string) (s : Scalper) : ProbeSummary :=
  match _probeResults s !! patternKey with
  | None => {| samples := 0; winRate := 0; recentWR := 0; proven := false |}
  | Some p =>
      if Nat.eqb (length (results p)) 0
      then {| samples := 0; winRate := 0; recentWR := 0; proven := false |}
      else
        let samples_ := length (results p) in
        let totalWR := Qnat (pr_wins p) / Qnat (pr_wins p + pr_losses p) in
        let recentWR_ := Qnat (countTrue (results p)) / Qnat samples_ in
        {| samples := samples_; winRate := totalWR; recentWR := recentWR_;
           proven := Nat.leb PROBE_MIN_SAMPLES samples_ && Qgeb recentWR_ PROBE_WIN_THRESHOLD |}
  end.


Definition _checkModelHealth (s : Scalper) : bool :=
  if Nat.ltb (length (history s)) HEALTH_WINDOW then true
  else
    let recent := firstn HEALTH_WINDOW (history s) in
    let wr := Qnat (length (List.filter (fun t => Qgeb (pnl t) 0) recent))
              / Qnat (length recent) in
    negb (Qltb wr HEALTH_MIN_WINRATE).

(** ** The signal engine

    [this._realPrices] is a map from asset to its recorded observations,
    oldest first.  Every function reads it at the time [now]. *)

Record PriceObs := { price : Q; vol : Q; ts : Z }.

Record Signal := { direction : Z; strength : Q; sigReason : string }.

(** The backward scan of [_getPriceAtTime]: it keeps the closest
    observation seen and stops at the first one that is not closer. *)
Fixpoint nearestFrom (target : Z) (best : PriceObs) (bestDist : Z) (l : list PriceObs)
  : PriceObs * Z :=
  match l with
  | [] => (best, bestDist)
  | o :: rest =>
      let d := Z.abs (ts o - target) in
      if Z.ltb d bestDist then nearestFrom target o d rest else (best, bestDist)
  end.

(** [_getPriceAtTime]; [None] is [null]. *)
Definition _getPriceAtTime (rp : gmap string (list PriceObs)) (now : Z) (asset : string)
    (secsAgo : Z) : option Q :=
  match rev (default [] (rp !! asset)) with
  | [] => None
  | o :: rest =>
      let target := (now - secsAgo * 1000)%Z in
      let '(best, bestDist) := nearestFrom target o (Z.abs (ts o - target)) rest in
      if Z.ltb bestDist 120000 then Some (price best) else None
  end.

(** [this._getPriceAtTime(asset, secsAgo) || fallback] *)
Definition priceAtOr (rp : gmap string (list PriceObs)) (now : Z) (asset : string)
    (secsAgo : Z) (fallback : Q) : Q :=
  orElse (default 0 (_getPriceAtTime rp now asset secsAgo)) fallback.

Definition lastPrice (hist : list PriceObs) : Q :=
  match last hist with Some o => price o | None => 0 end.

(** [_getMomentum] *)
Definition _getMomentum (rp : gmap string (list PriceObs)) (now : Z) (asset : string)
    (secsAgo : Z) : Q :=
  match default [] (rp !! asset) with
  | [] => 0
  | hist =>
      let current := lastPrice hist in
      match _getPriceAtTime rp now asset secsAgo with
      | Some past => if negb (truthy past) || Qleb past 0 then 0 else (current - past) / past
      | None => 0
      end
  end.

(** The truthy prices at the lookbacks [n*30, ..., 30, 0] seconds. *)
Fixpoint sampledPrices (rp : gmap string (list PriceObs)) (now : Z) (asset : string) (n : nat)
  : list Q :=
  let here :=
    match _getPriceAtTime rp now asset (Z.of_nat n * 30) with
    | Some p => if truthy p then [p] else []
    | None => []
    end in
  match n with
  | O => here
  | S k => here ++ sampledPrices rp now asset k
  end.

(** [prices[i] - prices[i-1]] for [i >= 1] *)
Fixpoint changesOf (l : list Q) : list Q :=
  match l with
  | a :: (b :: _) as rest => (b - a) :: changesOf rest
  | _ => []
  end.

Definition Qsum (l : list Q) : Q := fold_right Qplus 0 l.

Definition Qclamp (lo hi x : Q) : Q := Qmax lo (Qmin hi x).

Definition _getRSI (rp : gmap string (list PriceObs)) (now : Z) (asset : string) : Q :=
  let prices := sampledPrices rp now asset RSI_PERIOD in
  if Nat.ltb (length prices) 3 then 50
  else
    let changes := changesOf prices in
    let maxChange := fold_right Qmax 0 (List.map Qabs changes) in
    if Qltb maxChange 0.01 then 50
    else
      let n := Qnat (length changes) in
      let avgGain := Qsum (List.map (fun c => if Qgtb c 0 then c else 0) changes) / n in
      let avgLoss := Qsum (List.map (fun c => if Qgtb c 0 then 0 else Qabs c) changes) / n in
      if Qeq_bool avgLoss 0 then (if Qeq_bool avgGain 0 then 50 else 85)
      else if Qeq_bool avgGain 0 then 15
      else Qclamp 15 85 (100 - 100 / (1 + avgGain / avgLoss)).

(** The [position] field of [_getBollinger]: 1 above the upper band, -1
    below the lower band, 0 otherwise. *)
Definition bollingerPosition (msqrt : Q -> Q) (rp : gmap string (list PriceObs)) (now : Z)
    (asset : string) : Z :=
  let prices := sampledPrices rp now asset (BB_PERIOD - 1) in
  if Nat.ltb (length prices) 5 then 0%Z
  else
    let n := Qnat (length prices) in
    let mean := Qsum prices / n in
    let variance := Qsum (List.map (fun b => (b - mean) * (b - mean)) prices) / n in
    let sd := msqrt variance in
    if Qltb sd (mean * 0.00005) then 0%Z
    else
      let upper := mean + BB_MULT * sd in
      let lower := mean - BB_MULT * sd in
      let current := List.last prices 0 in
      if Qgtb current upper then 1%Z else if Qltb current lower then (-1)%Z else 0%Z.

(** [_getVolumeRatio]: the fields [ratio] and [average]. *)
Definition _getVolumeRatio (rp : gmap string (list PriceObs)) (asset : string) : Q * Q :=
  let hist := default [] (rp !! asset) in
  if Nat.ltb (length hist) 20 then (1, 0)
  else
    let recentCount := Nat.min 10 (length hist / 4) in
    let recent := drop (length hist - recentCount) hist in
    let older := take (length hist - recentCount) hist in
    let recentAvgVol := Qsum (List.map vol recent) / Qnat recentCount in
    let olderAvgVol := Qsum (List.map vol older) / Qnat (length older) in
    if Qleb olderAvgVol 0 then (1, 0) else (recentAvgVol / olderAvgVol, olderAvgVol).

Definition Qsign (x : Q) : Z := if Qgtb x 0 then 1%Z else if Qltb x 0 then (-1)%Z else 0%Z.

Definition _getSignalRaw (rp : gmap string (list PriceObs)) (now : Z) (asset : string) : Signal :=
  let hist := default [] (rp !! asset) in
  if Nat.ltb (length hist) 3
  then {| direction := 0; strength := 0; sigReason := "no-data" |}
  else
    (* cold-start guard: at least 30s of price data *)
    let dataAge := secsBetween now (match hist with o :: _ => ts o | [] => 0%Z end) in
    if Qltb dataAge 30
    then {| direction := 0; strength := 0; sigReason := "warming-up" |}
    else
      let nowP := lastPrice hist in
      let p30s := priceAtOr rp now asset 30 nowP in
      let p90s := priceAtOr rp now asset 90 p30s in
      let p3m := priceAtOr rp now asset 180 p90s in
      let p5m := priceAtOr rp now asset 300 p3m in
      let p10m := priceAtOr rp now asset 600 p5m in
      let mom30s := (nowP - p30s) / p30s in
      let mom90s := (nowP - p90s) / p90s in
      let mom3m := (nowP - p3m) / p3m in
      let mom5m := (nowP - p5m) / p5m in
      let mom10m := (nowP - p10m) / p10m in
      let signal := mom30s * 0.30 + mom90s * 0.25 + mom3m * 0.20 + mom5m * 0.15
                    + mom10m * 0.10 in
      let absSignal := Qabs signal in
      let signs := List.map Qsign [mom30s; mom90s; mom3m; mom5m] in
      let consistency := inject_Z (Z.abs (fold_right Z.add 0%Z signs)) / 4 in
      if Qltb absSignal MOM_WEAK
      then {| direction := 0; strength := 0; sigReason := "flat" |}
      else
        let direction_ := if Qgtb signal 0 then 1%Z else (-1)%Z in
        let strength0 := Qmin (absSignal / MOM_STRONG) 1 * 0.6 + consistency * 0.4 in
        let strength_ :=
          if Qltb dataAge 90 then Qmin strength0 0.4
          else if Qltb dataAge 180 then Qmin strength0 0.7
          else strength0 in
        {| direction := direction_; strength := strength_; sigReason := "" |}.

(** [_getCrossAssetConsensus]: the fields [consensus] and [agreement]. *)
Definition _getCrossAssetConsensus (rp : gmap string (list PriceObs)) (now : Z) : Z * Q :=
  let dirs :=
    List.filter (fun d => negb (Z.eqb d 0))
      (List.map (fun a => direction (_getSignalRaw rp now a)) ["BTC"; "ETH"; "SOL"]) in
  if Nat.ltb (length dirs) 2 then (0%Z, 0)
  else
    let sum := fold_right Z.add 0%Z dirs in
    (Z.sgn sum, inject_Z (Z.abs sum) / Qnat (length dirs)).

Definition _getSignal (msqrt : Q -> Q) (rp : gmap string (list PriceObs)) (now : Z)
    (asset : string) : Signal :=
  let raw := _getSignalRaw rp now asset in
  if Z.eqb (direction raw) 0
  then {| direction := 0; strength := 0; sigReason := "flat" |}
  else
    let dir := direction raw in
    let up := Z.ltb 0 dir in
    let down := Z.ltb dir 0 in
    let rsi := _getRSI rp now asset in
    let '(s1, b1) :=
      if up && Qgtb rsi RSI_OB then (strength raw * 1.15, "+RSI"%string)
      else if down && Qltb rsi RSI_OS then (strength raw * 1.15, "+RSI"%string)
      else if (up && Qltb rsi 35) || (down && Qgtb rsi 65) then (strength raw * 0.7, ""%string)
      else (strength raw, ""%string) in
    let bb := bollingerPosition msqrt rp now asset in
    let '(s2, b2) :=
      if up && Z.ltb 0 bb then (s1 * 1.1, "+BB"%string)
      else if down && Z.ltb bb 0 then (s1 * 1.1, "+BB"%string)
      else (s1, ""%string) in
    let '(consensus, agreement) := _getCrossAssetConsensus rp now in
    let '(s3, b3) :=
      if Z.eqb consensus dir && Qgeb agreement 0.66 then (s2 * 1.15, "+CROSS"%string)
      else if negb (Z.eqb consensus 0) && negb (Z.eqb consensus dir) then (s2 * 0.8, ""%string)
      else (s2, ""%string) in
    (* asymmetric volatility: bear signals more reliable *)
    let '(s4, b4) := if down then (s3 * BEAR_BOOST, "+ASYM"%string) else (s3, ""%string) in
    let '(ratio, average) := _getVolumeRatio rp asset in
    let '(s5, b5) :=
      if Qgtb ratio 2.0 && Qgtb average 0 then (s4 * 1.2, "+VOL"%string)
      else if Qltb ratio 0.3 && Qgtb average 0 then (s4 * 0.7, ""%string)
      else (s4, ""%string) in
    let strength_ := Qmin s5 1.0 in
    let label :=
      if Qgtb strength_ 0.7 then "strong" else if Qgtb strength_ 0.4 then "mid" else "weak" in
    {| direction := dir; strength := strength_;
       sigReason := (if up then "bull" else "bear") +:+ "-" +:+ label
                    +:+ b1 +:+ b2 +:+ b3 +:+ b4 +:+ b5 |}.

(** ** The collaborators of a tick

    What the engine reads from outside itself while it evaluates positions
    and entries: the price-support estimate of [_getPriceSupport], the
    [catching_up] flag of [_getPredictiveEdge], the verdict of the
    market-intelligence module, the recorded prices of the assets
    ([this._realPrices]), the crypto price, and
    the outcome of the signal/conviction stage of the entry scanner for a
    market.  [Math_sqrt] is [Math.sqrt]. *)

Record PriceSupport := {
  probability : Q; distance : Q; directionMatch : bool; cryptoNow : Q
}.

(** [supports: probability > 0.55] *)
Definition supports (sp : PriceSupport) : bool := Qgtb (probability sp) 0.55.

Record ChartSignal := { chartConfidence : Q; holdSignal : bool }.

Record MiExit := {
  exitNow : bool; miReason : string; chart : option ChartSignal; holdThrough : bool
}.

(** What the scanner has decided for a market when it reaches the bet
    sizing: side, token, mid price, reason, the adjusted conviction, the
    volatility regime and the target percentage. *)
Record Candidate := {
  candSide : Side; candToken : string; candPrice : Q; candReason : string;
  candSigReason : string; candConviction : Q; candVolHigh : bool; candTargetPct : Q
}.

Record Env := {
  Math_sqrt : Q -> Q;
  priceSupport : Position.t -> PriceSupport;
  catching_up : Position.t -> Q -> bool;
  analyzeExit : Position.t -> Q -> Q -> MiExit;
  realPrices : gmap string (list PriceObs);
  getCryptoPrice : string -> Q;
  selectEntry : Market.t -> gmap string Q -> option Candidate
}.

(** [hay.includes(needle)] *)
Fixpoint includes (needle hay : string) : bool :=
  String.prefix needle hay ||
  match hay with
  | EmptyString => false
  | String _ rest => includes needle rest
  end.

Definition nonEmpty (x : string) : bool := negb (String.eqb x "").

(** ** Position management: the per-position exit rules

    [evalPosition] is the body of the first loop of [_managePositions] for
    one position whose token has a price [cp].  It returns the position as
    the loop leaves it and, when an exit rule fired, the close request that
    is pushed on [toClose]. *)

Record CloseReq := {
  index : nat; closeReason : ExitReason; closePrice : Q; closePnl : Q
}.

Definition isLongTF (tf : Timeframe) : bool :=
  match tf with TF1d | TF4h | TF1h => true | _ => false end.

(** [sigmasNeeded] of the sigma-based exit intelligence. *)
Definition sigmasNeeded (env : Env) (asset : string) (secsToEnd : Q) (sp : PriceSupport) : Q :=
  let sigma := default 0.50 (ANNUAL_VOL asset) in
  let T := Qmax secsToEnd 1 / (365.25 * 24 * 3600) in
  let oneSigmaMove := orElse (cryptoNow sp) 0 * sigma * Math_sqrt env T in
  if Qgtb oneSigmaMove 0 && Qgtb (distance sp) 0 && negb (directionMatch sp)
  then distance sp / oneSigmaMove else 0.

(** The three salvage triggers, in the order the code tests them. *)
Definition salvageTrigger (sN minsLeft cp : Q) : option ExitReason :=
  if Qgtb sN 4 && Qltb minsLeft 60 && Qgtb cp 0.03 then Some SALVAGE_SIGMA
  else if Qgtb sN 3 && Qltb minsLeft 30 && Qgtb cp 0.03 then Some SALVAGE_SIGMA
  else if Qgtb sN 2 && Qltb minsLeft 15 && Qgtb cp 0.05 then Some SALVAGE_LAST
  else None.

Definition chartHolds (mi : MiExit) : bool :=
  match chart mi with
  | Some c => holdSignal c && Qgtb (chartConfidence c) 0.45
  | None => false
  end.

(** The head of the loop body: the current price is stored and the peak
    gain raised before anything is decided. *)
Definition markPrice (cp : Q) (pos0 : Position.t) : Position.t :=
  let pos1 := pos_set_currentPrice cp pos0 in
  let unrealized := (cp - Position.entryPrice pos1) * Position.size pos1 in
  if negb (truthy (Position.peakGain pos1)) || Qgtb unrealized (Position.peakGain pos1)
  then pos_set_peakGain unrealized pos1 else pos1.

Definition evalPosition (env : Env) (now : Z) (i : nat) (cp : Q) (pos0 : Position.t)
  : Position.t * option CloseReq :=
  let pos := markPrice cp pos0 in
  let entry := Position.entryPrice pos in
  let unrealized := (cp - entry) * Position.size pos in
  let peak := Position.peakGain pos in
  let secsToEnd := secsToEndOf (Position.endDate pos) now in
  let tf := default TF5m (Position.timeframe pos) in
  let holdAge := secsBetween now (Position.openedAt pos) in
  let long := isLongTF tf in
  let sp := priceSupport env pos in
  let prob := probability sp in
  let canHoldDips := HOLD_THROUGH_DIPS tf in
  let close r px pl p :=
    (p, Some {| index := i; closeReason := r; closePrice := px; closePnl := pl |}) in
  let hold p := (pos_set_currentPrice cp (pos_set_unrealizedPnl unrealized p), None) in
  (* market resolution *)
  if negb (Z.eqb (Position.endDate pos) 0) && Qleb secsToEnd 0 then
    let resolved := supports sp && Qgtb prob 0.50 in
    let resolvePrice := if resolved then 0.95 else 0.05 in
    close (if resolved then WIN_RESOLVE else LOSS_RESOLVE) resolvePrice
          ((resolvePrice - entry) * Position.size pos) pos
  else
  let minsLeft := secsToEnd / 60 in
  let sN := sigmasNeeded env (Position.asset pos) secsToEnd sp in
  let forceExit := default 30 (FORCE_EXIT_BY_TF tf) in
  (* 5m hold-to-resolution *)
  if Timeframe_eqb tf TF5m && Qgtb secsToEnd 0 && Qltb secsToEnd 120
     && (Qgtb cp 0.55 || Qltb cp 0.10)
  then hold pos
  (* force exit zone *)
  else if Qltb secsToEnd forceExit && Qgtb secsToEnd 0 then
    if (long || Timeframe_eqb tf TF5m) && supports sp && Qgtb prob 0.55 then hold pos
    else if long && Qltb cp 0.03 then hold pos
    else close LIQ_FORCE cp (unrealized - Qabs unrealized * SLIPPAGE_PENALTY) pos
  else
  (* smart salvage *)
  let inSalvage := long && Qleb unrealized 0 && Qgtb sN 0 in
  match (if inSalvage then salvageTrigger sN minsLeft cp else None) with
  | Some r => close r cp unrealized pos
  | None =>
  if inSalvage && Qltb cp 0.03 then hold pos
  (* long timeframe, profitable, near expiry *)
  else
  let liqExit := default 60 (LIQUIDITY_EXIT_BY_TF tf) in
  if long && Qgtb secsToEnd 0 && Qgtb unrealized 0 && Qltb secsToEnd liqExit then
    if supports sp && Qgtb prob 0.75 then hold pos
    else close LIQ_SAFE cp unrealized pos
  (* long timeframe hold gate: never sell at a loss mid-market *)
  else if long && Qleb unrealized 0 then hold pos
  (* 1d: hold to resolution or 45% profit *)
  else if Timeframe_eqb tf TF1d then
    let pctGain := unrealized / orElse (Position.costBasis pos) 1 in
    if Qgeb pctGain 0.45 then close PROFIT_1D_45 cp unrealized pos
    else if Qleb cp 0.02 then close DEAD_1D_2c cp unrealized pos
    else
      let '(p, r) := hold pos in
      (if Qgtb unrealized (Position.peakGain p) then pos_set_peakGain unrealized p else p, r)
  (* predictive exit *)
  else if includes "PRED" (Position.entryReason pos) && catching_up env pos cp
          && Qgtb unrealized 0
  then close PRED_EXIT cp unrealized pos
  else
  (* market intelligence exit analysis *)
  let mi := analyzeExit env pos cp unrealized in
  let isChartExit := String.prefix "chart-exit:" (miReason mi) in
  let chartStrong :=
    match chart mi with Some c => Qgtb (chartConfidence c) 0.6 | None => false end in
  let miFires := exitNow mi && truthy unrealized in
  if miFires && isChartExit && chartStrong then close (CHART_EXIT (miReason mi)) cp unrealized pos
  else if miFires && negb (canHoldDips && supports sp && Qgtb prob 0.65)
  then close (MI_EXIT (miReason mi)) cp unrealized pos
  else
  (* profit target *)
  let tfTargetPct := default 0.08 (PROFIT_TARGET_BY_TF tf) in
  let target := orElse (Position.targetProfit pos) (Position.costBasis pos * tfTargetPct) in
  if Qgeb unrealized target
     && negb (long && (chartHolds mi || (Qgtb prob 0.70 && Qltb unrealized (target * 2.5))))
  then close PROFIT cp unrealized pos
  else
  (* trailing stop *)
  let trailLock := default 0.45 (TRAILING_LOCK_BY_TF tf) in
  let trailing := Qgtb peak 0.015 && Qltb unrealized (peak * trailLock) in
  let supported := canHoldDips && (chartHolds mi || (supports sp && Qgtb prob 0.60)) in
  let emergencyLock :=
    if Timeframe_eqb tf TF1d || Timeframe_eqb tf TF4h then 0.05 else 0.10 in
  if trailing && supported && Qltb unrealized (peak * emergencyLock)
  then close TRAIL_WIDE cp unrealized pos
  else if trailing && negb supported && holdThrough mi && Qltb unrealized (peak * 0.1)
  then close TRAIL_WIDE cp unrealized pos
  else if trailing && negb supported && negb (holdThrough mi)
  then close TRAIL cp unrealized pos
  else
  (* flip signal *)
  let sg := _getSignal (Math_sqrt env) (realPrices env) now (Position.asset pos) in
  let rev :=
    match Position.side pos with
    | UP => Z.ltb (direction sg) 0 && Qgtb (strength sg) 0.6
    | DOWN => Z.ltb 0 (direction sg) && Qgtb (strength sg) 0.6
    end in
  let flipMinAge :=
    match tf with TF1d => 300 | TF4h => 180 | TF1h => 120 | _ => 30 end in
  if rev && Qltb unrealized 0.005 && Qgtb holdAge flipMinAge
     && negb (canHoldDips && supports sp)
  then close FLIP cp unrealized pos
  else
  (* stop loss *)
  let baseStop := default 0.15 (STOP_LOSS_BY_TF tf) in
  let effectiveStop :=
    if supports sp && Qgtb prob 0.70 then baseStop * 1.5
    else if negb (supports sp) && Qltb prob 0.40 then baseStop * 0.7
    else baseStop in
  let stopHit := Qltb cp (entry * (1 - effectiveStop)) in
  let waits := canHoldDips && directionMatch sp in
  let expired :=
    match Position._latencyHoldTs pos with
    | Some ts => Z.ltb LATENCY_DELAY_MS (now - ts)
    | None => false
    end in
  if stopHit && negb waits then close STOP cp unrealized pos
  else if stopHit && expired then close STOP cp unrealized (pos_set_latencyHoldTs None pos)
  else
  let posL :=
    if stopHit then
      match Position._latencyHoldTs pos with
      | None => pos_set_latencyHoldTs (Some now) pos
      | Some _ => pos
      end
    else pos_set_latencyHoldTs None pos in
  (* stale position, short timeframes only *)
  let staleMs := default DEFAULT_STALE (STALE_BY_TF tf) in
  if negb long && Z.ltb staleMs (now - Position.openedAt posL)
     && Qltb (Qabs unrealized) 0.005
  then close STALE cp unrealized posL
  else hold posL
  end.

(** [_managePositions], first loop: every position whose token has a
    price is evaluated; the requests come out in decreasing index order,
    which is the order the second loop processes them in (its sort by
    decreasing index leaves them as they are). *)
Definition evalAt (env : Env) (now : Z) (prices : gmap string Q) (i : nat) (p : Position.t)
  : Position.t * option CloseReq :=
  match prices !! Position.tokenId p with
  | Some cp => if truthy cp then evalPosition env now i cp p else (p, None)
  | None => (p, None)
  end.

Definition evalAll (env : Env) (now : Z) (prices : gmap string Q) (ps : list Position.t)
  : list Position.t * list CloseReq :=
  let rs := imap (evalAt env now prices) ps in
  (List.map fst rs, rev (omap snd rs)).

Definition isForcedReason (r : ExitReason) : bool :=
  match r with
  | LIQ_FORCE | STOP | WIN_RESOLVE | LOSS_RESOLVE => true
  | _ => false
  end.

(** [this.positions.splice(i, 0, pos)] *)
Definition spliceIn (i : nat) (pos : Position.t) (l : list Position.t) : list Position.t :=
  take i l ++ pos :: drop i l.

(** The bookkeeping of a close, from [this.totalPnl += pnl] to
    [this.history.unshift]. *)
Definition settle (now : Z) (pos : Position.t) (r : ExitReason) (realExitPrice slipCost : Q)
    (s : Scalper) : Scalper :=
  let pnl_ := (realExitPrice - Position.entryPrice pos) * Position.size pos in
  let s1 := set_totalPnl (totalPnl s + pnl_) s in
  let s2 := set_dailyPnl (_dailyPnl s1 + pnl_) s1 in
  let s3 := set_bankroll (bankroll s2 + (orElse (Position.costBasis pos) PROBE_SIZE + pnl_)) s2 in
  let s4 :=
    if Qgtb pnl_ 0.05 then set_wins (S (wins s3)) s3
    else if Qltb pnl_ (-0.05) then set_losses (S (losses s3)) s3
    else s3 in
  let s5 :=
    if nonEmpty (Position.patternKey pos)
    then _recordProbeResult (Position.patternKey pos) (Qgeb pnl_ 0) s4
    else s4 in
  set_history
    ({| closedPos := pos; exitPrice := realExitPrice; pnl := pnl_; reason := r;
        closedAt := now; closedSlippage := slipCost |} :: history s5) s5.

(** One iteration of the second loop of [_managePositions]; the [bool]
    tells whether [closed] was incremented. *)
Definition closeOne (now : Z) (c : CloseReq) (s : Scalper) : bool * Scalper :=
  match positions s !! index c with
  | None => (false, s)
  | Some pos =>
      let s0 := set_positions (delete (index c) (positions s)) s in
      let isForced := isForcedReason (closeReason c) in
      let '(exitSim, s1) :=
        _simulateExit (Position.tokenId pos) pos (closePrice c) isForced now s0 in
      match exitSim with
      | None =>
          if isForced
          then (true, settle now pos (closeReason c) (closePrice c) 0 s1)
          else (false, addFailure (set_positions (spliceIn (index c) pos (positions s1)) s1))
      | Some f =>
          (true, settle now pos (closeReason c) (execPrice f)
                        (slippage f * Position.size pos) s1)
      end
  end.

Fixpoint closeLoop (now : Z) (cs : list CloseReq) (s : Scalper) : nat * Scalper :=
  match cs with
  | [] => (0%nat, s)
  | c :: rest =>
      let '(b, s1) := closeOne now c s in
      let '(n, s2) := closeLoop now rest s1 in
      ((if b then S n else n), s2)
  end.

Definition _managePositions (env : Env) (now : Z) (prices : gmap string Q) (s : Scalper)
  : nat * Scalper :=
  let '(ps, toClose) := evalAll env now prices (positions s) in
  closeLoop now toClose (set_positions ps s).

(** ** Entries: bet sizing, the entry scanner, manual trades, auto-entry *)

Definition ENTRY_MIN : Q := 0.15.
Definition ENTRY_MAX : Q := 0.85.

(** [_probeKey]: the first match of [(bull|bear)-(strong|mid|weak)] in
    the reason, or ["unknown"]; a ["PRED-"] marker when the reason
    contains PRED. *)
Definition probeBases : list string :=
  ["bull-strong"; "bull-mid"; "bull-weak"; "bear-strong"; "bear-mid"; "bear-weak"].

Fixpoint firstBase (r : string) : option string :=
  match List.find (fun b => String.prefix b r) probeBases with
  | Some b => Some b
  | None => match r with
            | EmptyString => None
            | String _ rest => firstBase rest
            end
  end.

Definition _probeKey (asset : string) (sd : Side) (r : string) : string :=
  let base := default "unknown" (firstBase r) in
  let hasPred := if includes "PRED" r then "PRED-" else "" in
  asset +:+ "-" +:+ sideName sd +:+ "-" +:+ hasPred +:+ base.

Definition pickTier (conv : Q) : BetTier :=
  let dflt := {| tierName := "SCOUT"; minConv := 0.00; maxConv := 0.30;
                 pctMin := 0; pctMax := 0; fixed := PROBE_SIZE |} in
  let t := default dflt
             (List.find (fun t => Qgeb conv (minConv t) && Qltb conv (maxConv t)) BET_TIERS) in
  if Qgeb conv 0.95 then List.last BET_TIERS dflt else t.

Definition _calculateBetSize (conv bank : Q) : Q * string :=
  let tier := pickTier conv in
  let raw :=
    if Qgtb (fixed tier) 0 then fixed tier
    else
      let range := maxConv tier - minConv tier in
      let pos := if Qgtb range 0 then (conv - minConv tier) / range else 0.5 in
      let pctOfBankroll := pctMin tier + pos * (pctMax tier - pctMin tier) in
      bank * pctOfBankroll in
  let betSize := Qmax PROBE_SIZE (Qmin raw (bank * 0.98)) in
  (roundTo 100 betSize, tierName tier).

(** The bet of the entry scanner, from the tiered size to the final
    rounding. *)
Definition scanBetSize (conv : Q) (volHigh : bool) (tf : Timeframe) (bank : Q) (nOpen : nat) : Q :=
  let '(rawBet, tier) := _calculateBetSize conv bank in
  let b1 :=
    if volHigh && negb (String.eqb tier "PROBE") then Qmax PROBE_SIZE (rawBet * 0.5) else rawBet in
  let openSlots := Nat.max 1 (MAX_POSITIONS - nOpen) in
  let maxPerSlot :=
    if Nat.ltb 1 openSlots then Qmax PROBE_SIZE (bank / Qnat openSlots) else bank * 0.98 in
  let b2 := Qmin (Qmin b1 maxPerSlot) (bank * 0.98) in
  let b3 := Qmin b2 (if Timeframe_eqb tf TF5m then MAX_5M_BET else MAX_SINGLE_BET) in
  let b4 := Qmax PROBE_SIZE b3 in
  roundTo 100 b4.

Definition hasCondition (cid : string) (ps : list Position.t) : bool :=
  existsb (fun p => String.eqb (Position.conditionId p) cid) ps.

Definition sameTf (o : option Timeframe) (tf : Timeframe) : bool :=
  match o with Some t => Timeframe_eqb t tf | None => false end.

Definition hasAssetTf (a : string) (tf : Timeframe) (ps : list Position.t) : bool :=
  existsb (fun p => String.eqb (Position.asset p) a && sameTf (Position.timeframe p) tf) ps.

(** [prices[token] || fallback] *)
Definition priceOr (prices : gmap string Q) (token : string) (fallback : Q) : Q :=
  orElse (default 0 (prices !! token)) fallback.

(** What one iteration of the scanner's loop over the markets does. *)
Inductive LoopStep := Break | Continue | Opened.

Definition scanMarket (env : Env) (now : Z) (prices : gmap string Q) (market : Market.t)
    (s : Scalper) : LoopStep * Scalper :=
  if Nat.leb MAX_POSITIONS (length (positions s)) then (Break, s)
  else if Qltb (bankroll s) PROBE_SIZE then (Break, s)
  else if ONLY_BTC && negb (String.eqb (Market.asset market) "BTC") then (Continue, s)
  else
  let secsLeft := secsToEndOf (Market.endDate market) now in
  let tf := Market.timeframe market in
  if Qltb secsLeft MIN_ENTRY_SECS then (Continue, s)
  else if Qltb secsLeft (default 90 (ENTRY_BUFFER_BY_TF tf)) then (Continue, s)
  else if hasCondition (Market.conditionId market) (positions s) then (Continue, s)
  else if hasAssetTf (Market.asset market) tf (positions s) then (Continue, s)
  else if negb (truthy (priceOr prices (Market.upToken market) (Market.gammaUpPrice market)))
  then (Continue, s)
  else
  match selectEntry env market prices with
  | None => (Continue, s)
  | Some c =>
      if negb (nonEmpty (candToken c)) || Qltb (candPrice c) ENTRY_MIN then (Continue, s)
      else
      let betSize :=
        scanBetSize (candConviction c) (candVolHigh c) tf (bankroll s) (length (positions s)) in
      let tier := snd (_calculateBetSize (candConviction c) (bankroll s)) in
      (* final check: still have room? *)
      if Nat.leb MAX_POSITIONS (length (positions s)) then (Break, s)
      else
      let '(entrySim, s1) := _simulateEntry (candToken c) betSize (candPrice c) s in
      match entrySim with
      | None => (Continue, addFailure s1)
      | Some f =>
          let realEntryPrice := execPrice f in
          let realMaxProfit := betSize * (1 - realEntryPrice) / realEntryPrice in
          let realTargetProfit := Qmax (realMaxProfit * candTargetPct c) 0.005 in
          let s2 := set_bankroll (Qmax 0 (bankroll s1 - betSize)) s1 in
          let pos :=
            {| Position.conditionId := Market.conditionId market;
               Position.asset := Market.asset market;
               Position.timeframe := Some tf;
               Position.side := candSide c;
               Position.tokenId := candToken c;
               Position.entryPrice := realEntryPrice;
               Position.midPriceAtEntry := candPrice c;
               Position.size := betSize / realEntryPrice;
               Position.costBasis := betSize;
               Position.targetProfit := realTargetProfit;
               Position.endDate := Market.endDate market;
               Position.totalSecs := Market.totalSecs market;
               Position.openedAt := now;
               Position.peakGain := 0;
               Position.unrealizedPnl := 0;
               Position.currentPrice := realEntryPrice;
               Position.entryReason := candReason c;
               Position.cryptoPriceAtEntry := orElse (getCryptoPrice env (Market.asset market)) 0;
               Position.conviction := candConviction c;
               Position.betTier := tier;
               Position.patternKey :=
                 _probeKey (Market.asset market) (candSide c) (candSigReason c);
               Position._latencyHoldTs := None |} in
          let s3 := set_positions (positions s2 ++ [pos]) s2 in
          let s4 := set_totalBets (S (totalBets s3)) s3 in
          (Opened, set_lastEntryTime now s4)
      end
  end.

Fixpoint scanLoop (env : Env) (now : Z) (prices : gmap string Q) (ms : list Market.t)
    (s : Scalper) : nat * Scalper :=
  match ms with
  | [] => (0%nat, s)
  | m :: rest =>
      match scanMarket env now prices m s with
      | (Break, s1) => (0%nat, s1)
      | (Continue, s1) => scanLoop env now prices rest s1
      | (Opened, s1) =>
          let '(n, s2) := scanLoop env now prices rest s1 in (S n, s2)
      end
  end.

(** [this._lastEntryTime && (now - this._lastEntryTime) < ENTRY_LOCK_MS] *)
Definition entryLocked (now : Z) (s : Scalper) : bool :=
  negb (Z.eqb (_lastEntryTime s) 0) && Z.ltb (now - _lastEntryTime s) ENTRY_LOCK_MS.

Definition _scanEntries (env : Env) (now : Z) (prices : gmap string Q) (s : Scalper)
  : nat * Scalper :=
  if Nat.leb MAX_POSITIONS (length (positions s)) then (0%nat, s)
  else if Qltb (bankroll s) PROBE_SIZE then (0%nat, s)
  else if Qleb (_dailyPnl s) (- DAILY_LOSS_LIMIT) then (0%nat, s)
  else if negb (_checkModelHealth s) then (0%nat, s)
  else if entryLocked now s then (0%nat, s)
  else scanLoop env now prices (markets s) s.

(** *** Manual trade *)

Inductive ManualResult :=
| ManualError (msg : string)
| ManualSuccess.

Definition upperChar (c : ascii) : ascii :=
  let n := nat_of_ascii c in
  if Nat.leb 97 n && Nat.leb n 122 then ascii_of_nat (n - 32) else c.

Fixpoint toUpperCase (x : string) : string :=
  match x with
  | EmptyString => EmptyString
  | String c rest => String (upperChar c) (toUpperCase rest)
  end.

Definition parseSide (x : string) : option Side :=
  let u := toUpperCase x in
  if String.eqb u "UP" then Some UP
  else if String.eqb u "DOWN" then Some DOWN
  else None.

Definition tfPriority : list Timeframe := [TF1d; TF4h; TF1h; TF15m; TF5m].

(** The first market, in timeframe priority, for the asset with more
    than 60 seconds left. *)
Fixpoint findMarket (asset : string) (tfs : list Timeframe) (ms : list Market.t)
  : option Market.t :=
  match tfs with
  | [] => None
  | tf :: rest =>
      match List.find (fun m => String.eqb (Market.asset m) asset
                                && Timeframe_eqb (Market.timeframe m) tf
                                && Z.ltb 60 (Market.secsLeft m)) ms with
      | Some m => Some m
      | None => findMarket asset rest ms
      end
  end.

Definition tokenOf (sd : Side) (m : Market.t) : string :=
  match sd with UP => Market.upToken m | DOWN => Market.downToken m end.

Definition gammaOf (sd : Side) (m : Market.t) : Q :=
  match sd with UP => Market.gammaUpPrice m | DOWN => Market.gammaDownPrice m end.

(** [clobBook && clobBook.mid > 0 ? clobBook.mid : fallback] *)
Definition midOr (s : Scalper) (token : string) (fallback : Q) : Q :=
  match _orderbooks s !! token with
  | Some b => if Qgtb (mid b) 0 then mid b else fallback
  | None => fallback
  end.

Definition manualTrade (env : Env) (now : Z) (asset sideArg : string) (betSize : Q)
    (s : Scalper) : ManualResult * Scalper :=
  match parseSide sideArg with
  | None => (ManualError "Side must be UP or DOWN", s)
  | Some sd =>
  if Qltb betSize 1 then (ManualError "Minimum bet is $1", s)
  else if Qgtb betSize (bankroll s) then (ManualError "Insufficient bankroll", s)
  else
  match findMarket asset tfPriority (markets s) with
  | None => (ManualError "No active market found", s)
  | Some market =>
  let tokenId := tokenOf sd market in
  if negb (nonEmpty tokenId) then (ManualError "No token for side", s)
  else
  let entryPrice := midOr s tokenId (gammaOf sd market) in
  if negb (truthy entryPrice) || Qleb entryPrice 0 || Qgeb entryPrice 1
  then (ManualError "No valid price for token", s)
  else
  let '(entrySim, s1) := _simulateEntry tokenId betSize entryPrice s in
  match entrySim with
  | None => (ManualError "Order not matched on CLOB", s1)
  | Some f =>
      let realEntryPrice := execPrice f in
      let maxProfit := betSize * (1 - realEntryPrice) / realEntryPrice in
      let targetPct := default 0.35 (PROFIT_TARGET_BY_TF (Market.timeframe market)) in
      let targetProfit_ := Qmax (maxProfit * targetPct) 0.005 in
      let s2 := set_bankroll (Qmax 0 (bankroll s1 - betSize)) s1 in
      let pos :=
        {| Position.conditionId := Market.conditionId market;
           Position.asset := asset;
           Position.timeframe := Some (Market.timeframe market);
           Position.side := sd;
           Position.tokenId := tokenId;
           Position.entryPrice := realEntryPrice;
           Position.midPriceAtEntry := entryPrice;
           Position.size := betSize / realEntryPrice;
           Position.costBasis := betSize;
           Position.targetProfit := targetProfit_;
           Position.endDate := Market.endDate market;
           Position.totalSecs := Market.totalSecs market;
           Position.openedAt := now;
           Position.peakGain := 0;
           Position.unrealizedPnl := 0;
           Position.currentPrice := realEntryPrice;
           Position.entryReason := "MANUAL";
           Position.cryptoPriceAtEntry := orElse (getCryptoPrice env asset) 0;
           Position.conviction := 1;
           Position.betTier := "MANUAL";
           Position.patternKey := asset +:+ "-" +:+ sideName sd +:+ "-MANUAL";
           Position._latencyHoldTs := None |} in
      let s3 := set_positions (positions s2 ++ [pos]) s2 in
      (ManualSuccess, set_totalBets (S (totalBets s3)) s3)
  end
  end
  end.

(** *** Auto-entry on the daily market *)

Definition MIN_HOURS_LEFT : Q := 20.

(** [market.endDate ? (market.endDate - now) / 1000 : 0] *)
Definition autoSecsLeft (m : Market.t) (now : Z) : Q :=
  if Z.eqb (Market.endDate m) 0 then 0 else secsBetween (Market.endDate m) now.

Definition autoCandidate (now : Z) (s : Scalper) (m : Market.t) : bool :=
  String.eqb (Market.asset m) "BTC"
  && Timeframe_eqb (Market.timeframe m) TF1d
  && negb (Qltb (autoSecsLeft m now) (MIN_HOURS_LEFT * 3600))
  && negb (hasCondition (Market.conditionId m) (positions s)).

(** The head of the candidates after the stable sort by decreasing
    [secsLeft]: the first candidate with the largest time left. *)
Fixpoint mostTimeLeft (now : Z) (best : Market.t) (ms : list Market.t) : Market.t :=
  match ms with
  | [] => best
  | m :: rest =>
      if Qgtb (autoSecsLeft m now) (autoSecsLeft best now)
      then mostTimeLeft now m rest else mostTimeLeft now best rest
  end.

Definition _autoEntryDailyInner (env : Env) (now : Z) (s : Scalper) : nat * Scalper :=
  if Qltb (bankroll s) 1 then (0%nat, s)
  else if Nat.leb MAX_POSITIONS (length (positions s)) then (0%nat, s)
  else if entryLocked now s then (0%nat, s)
  else
  match List.filter (autoCandidate now s) (markets s) with
  | [] => (0%nat, s)
  | c0 :: cs =>
  let market := mostTimeLeft now c0 cs in
  let asset := Market.asset market in
  let upPrice := Market.gammaUpPrice market in
  let downPrice := Market.gammaDownPrice market in
  if negb (truthy upPrice) && negb (truthy downPrice) then (0%nat, s)
  else
  let choice :=
    if Qgtb upPrice 0 && Qgtb downPrice 0 && Qleb upPrice downPrice
    then Some (UP, Market.upToken market, upPrice, "DAILY-CHEAP-UP"%string)
    else if Qgtb downPrice 0
    then Some (DOWN, Market.downToken market, downPrice, "DAILY-CHEAP-DN"%string)
    else None in
  match choice with
  | None => (0%nat, s)
  | Some (sd, tokenId, gammaPrice, reason_) =>
  if negb (nonEmpty tokenId) || negb (truthy gammaPrice) then (0%nat, s)
  else
  let entryPrice := midOr s tokenId gammaPrice in
  if Qleb entryPrice 0 || Qgeb entryPrice 0.85 then (0%nat, s)
  else if Qltb entryPrice 0.05 then (0%nat, s)
  else
  let bet0 := roundTo 100 (Qmin (bankroll s * 0.98) (bankroll s - 0.01)) in
  let betSize := Qmin bet0 MAX_SINGLE_BET in
  if Qltb betSize 1 then (0%nat, s)
  else if Nat.leb MAX_POSITIONS (length (positions s)) then (0%nat, s)
  else
  let '(entrySim, s1) := _simulateEntry tokenId betSize entryPrice s in
  match entrySim with
  | None => (0%nat, s1)
  | Some f =>
      let realEntryPrice := execPrice f in
      let maxProfit := betSize * (1 - realEntryPrice) / realEntryPrice in
      let targetPct := default 0.35 (PROFIT_TARGET_BY_TF (Market.timeframe market)) in
      let targetProfit_ := Qmax (maxProfit * targetPct) 0.01 in
      let s2 := set_bankroll (Qmax 0 (bankroll s1 - betSize)) s1 in
      let pos :=
        {| Position.conditionId := Market.conditionId market;
           Position.asset := asset;
           Position.timeframe := Some (Market.timeframe market);
           Position.side := sd;
           Position.tokenId := tokenId;
           Position.entryPrice := realEntryPrice;
           Position.midPriceAtEntry := entryPrice;
           Position.size := betSize / realEntryPrice;
           Position.costBasis := betSize;
           Position.targetProfit := targetProfit_;
           Position.endDate := Market.endDate market;
           Position.totalSecs := Market.totalSecs market;
           Position.openedAt := now;
           Position.peakGain := 0;
           Position.unrealizedPnl := 0;
           Position.currentPrice := realEntryPrice;
           Position.entryReason := reason_;
           Position.cryptoPriceAtEntry := orElse (getCryptoPrice env asset) 0;
           Position.conviction := 0.8;
           Position.betTier := "AUTO";
           Position.patternKey := asset +:+ "-" +:+ sideName sd +:+ "-AUTO";
           Position._latencyHoldTs := None |} in
      let s3 := set_positions (positions s2 ++ [pos]) s2 in
      let s4 := set_totalBets (S (totalBets s3)) s3 in
      (1%nat, set_lastEntryTime now s4)
  end
  end
  end.

(** [_autoEntryDaily]: the inner body under the entry mutex; nothing in
    it throws, so the [finally] always runs after it. *)
Definition _autoEntryDaily (env : Env) (now : Z) (s : Scalper) : nat * Scalper :=
  if _entryLock s then (0%nat, s)
  else
    let '(n, s1) := _autoEntryDailyInner env now (set_entryLock true s) in
    (n, set_entryLock false s1).

(** ** The two tick loops and their re-entrancy guard *)

(** How a method ends: it returns, or an exception leaves it; either way
    with the state as it then is. *)
Inductive outcome :=
| Returned (s : Scalper)
| Thrown (s : Scalper).

Definition stateOf (o : outcome) : Scalper :=
  match o with Returned s | Thrown s => s end.

(** [_checkDailyReset], with today's date as an argument. *)
Definition _checkDailyReset (today : string) (s : Scalper) : Scalper :=
  if negb (String.eqb (_dailyResetDate s) today)
  then set_dailyResetDate today (set_dailyPnl 0 s)
  else s.

(** [tick]: [body] is the content of the [try] block (bankroll sync, price
    fetches, trading, the TICK log line, save). *)
Definition tick (body : Scalper -> outcome) (today : string) (s : Scalper) : outcome :=
  if negb (running s) then Returned s
  else if _ticking s then Returned s
  else
    let s1 := set_ticking true s in
    if Nat.eqb (length (markets s1)) 0 then Returned (set_ticking false s1)
    else
      let s2 := _checkDailyReset today (set_tickCount (S (_tickCount s1)) s1) in
      match body s2 with
      | Returned s3 => Returned (set_ticking false s3)   (* finally *)
      | Thrown s3 => Returned (set_ticking false s3)     (* catch, then finally *)
      end.

(** The price map [fastTick] builds: the markets' cached prices,
    overridden by the latest entry of each price history. *)
Definition marketPrices (ms : list Market.t) : gmap string Q :=
  foldl (fun acc m =>
           let acc1 :=
             if nonEmpty (Market.upToken m) && Qgtb (Market.gammaUpPrice m) 0
             then <[Market.upToken m := Market.gammaUpPrice m]> acc else acc in
           if nonEmpty (Market.downToken m) && Qgtb (Market.gammaDownPrice m) 0
           then <[Market.downToken m := Market.gammaDownPrice m]> acc1 else acc1)
        ∅ ms.

Definition fastPrices (s : Scalper) : gmap string Q :=
  omap (fun h => fst <$> last h) (_priceHistory s) ∪ marketPrices (markets s).

(** [fastTick]: [body] is everything after the price map is built
    (signal log, arbitrage check, trading, and the throttled TICK log line
    and save).  Nothing encloses it: no [try], no [finally]. *)
Definition fastTick (body : gmap string Q -> Scalper -> outcome) (today : string)
    (s : Scalper) : outcome :=
  if negb (running s) || Nat.eqb (length (markets s)) 0 then Returned s
  else if _ticking s then Returned s
  else
    let s1 := _checkDailyReset today (set_tickCount (S (_tickCount s)) (set_ticking true s)) in
    let prices := fastPrices s1 in
    if Nat.eqb (size prices) 0 then Returned s1
    else
      match body prices s1 with
      | Returned s2 => Returned (set_ticking false s2)
      | Thrown s2 => Thrown s2
      end.

(** ** The binary probability model

    [_binaryProbability] and [_normalCDF] over the real numbers: [Math.log],
    [Math.exp], [Math.sqrt] and [Math.abs] are [ln], [exp], [sqrt] and
    [Rabs]; a number used as a condition is false exactly when it is 0.
    The doubles of the source are read as exact reals.  [Math.log] of a
    negative ratio is NaN in the source while [ln] is 0 there, so the
    results below speak of positive prices (and of the price 0, which the
    first guard answers). *)

Module ProbabilityModel.

Local Open Scope R_scope.

(** [ANNUAL_VOL[asset] || 0.50] *)
Definition annualVol (asset : string) : R := Q2R (default 0.50%Q (ANNUAL_VOL asset)).

Definition a1 : R := 0.254829592.
Definition a2 : R := -0.284496736.
Definition a3 : R := 1.421413741.
Definition a4 : R := -1.453152027.
Definition a5 : R := 1.061405429.
Definition p : R := 0.3275911.

(** Standard normal CDF (Abramowitz and Stegun approximation). *)
Definition _normalCDF (x : R) : R :=
  let sign := if Rlt_dec x 0 then -1 else 1 in
  let ax := Rabs x / sqrt 2 in
  let t := 1 / (1 + p * ax) in
  let y := 1 - (((((a5 * t + a4) * t) + a3) * t + a2) * t + a1) * t * exp (- ax * ax) in
  0.5 * (1 + sign * y).

(** The probability that the price is above [startPrice] at expiry. *)
Definition _binaryProbability (currentPrice startPrice secsRemaining : R) (asset : string) : R :=
  if Req_EM_T currentPrice 0 then 0.5
  else if Req_EM_T startPrice 0 then 0.5
  else if Rle_dec startPrice 0 then 0.5
  else if Rle_dec secsRemaining 0 then
    (if Rlt_dec startPrice currentPrice then 0.99 else 0.01)
  else
    let T := secsRemaining / (365.25 * 24 * 3600) in
    let sigma := annualVol asset in
    let logRatio := ln (currentPrice / startPrice) in
    let d2 := (logRatio + (-0.5 * sigma * sigma) * T) / (sigma * sqrt T) in
    _normalCDF d2.

End ProbabilityModel.

(** ** Sample values used by the worked examples *)

(** A six-decimal square root, standing in for [Math.sqrt]. *)
Definition approxSqrt (x : Q) : Q :=
  inject_Z (Z.sqrt (Qfloor (x * 1000000000000))) / 1000000.

(** The state the constructor builds, with [running] as [init] sets it. *)
Definition started : Scalper :=
  {| positions := []; history := []; markets := []; totalPnl := 0; totalBets := 0;
     wins := 0; losses := 0; running := true; bankroll := STARTING_BANKROLL;
     _tickCount := 0; _dailyPnl := 0; _dailyResetDate := "2026-02-14"; _ticking := false;
     _lastEntryTime := 0; _probeResults := ∅; _orderbooks := ∅; _priceHistory := ∅;
     _executionStats := {| fills := 0; failures := 0; totalSlippage := 0;
                           totalSpreadCost := 0 |};
     _orderClient := None; _liveTading := false; _entryLock := false; clientCalls := [] |}.

Definition obsAt (p : Q) (t : Z) : PriceObs := {| price := p; vol := 1; ts := t |}.

(** Two observations only. *)
Definition twoSamples : gmap string (list PriceObs) :=
  {[ "BTC"%string := [obsAt 67000 1000; obsAt 67500 2000] ]}.

(** Five rising observations, the oldest 20 seconds old at time 21000. *)
Definition youngSamples : gmap string (list PriceObs) :=
  {[ "BTC"%string := [obsAt 67000 1000; obsAt 67100 6000; obsAt 67200 11000;
                      obsAt 67300 16000; obsAt 67400 21000] ]}.

(** A daily BTC position: $1 staked at 0.50, two shares. *)
Definition dailyPos : Position.t :=
  {| Position.conditionId := "0xbtc-daily"; Position.asset := "BTC";
     Position.timeframe := Some TF1d; Position.side := UP; Position.tokenId := "tok-up";
     Position.entryPrice := 0.50; Position.midPriceAtEntry := 0.50; Position.size := 2;
     Position.costBasis := 1; Position.targetProfit := 0.45; Position.endDate := 86400000;
     Position.totalSecs := 86400; Position.openedAt := 0; Position.peakGain := 0;
     Position.unrealizedPnl := 0; Position.currentPrice := 0.50;
     Position.entryReason := "DAILY-CHEAP-UP"; Position.cryptoPriceAtEntry := 67000;
     Position.conviction := 0.8; Position.betTier := "AUTO";
     Position.patternKey := "BTC-UP-AUTO"; Position._latencyHoldTs := None |}.

(** Three closes of that position at its entry price: realized P&L 0 each. *)
Definition threeScratches : Scalper :=
  settle 3000 dailyPos LIQ_SAFE 0.50 0
    (settle 2000 dailyPos LIQ_SAFE 0.50 0
       (settle 1000 dailyPos LIQ_SAFE 0.50 0 started)).

(** Collaborators that report a given price support and otherwise stay
    silent: no market-intelligence exit, no recorded prices, no entry. *)
Definition envWith (sp : PriceSupport) : Env :=
  {| Math_sqrt := approxSqrt;
     priceSupport := fun _ => sp;
     catching_up := fun _ _ => false;
     analyzeExit := fun _ _ _ =>
       {| exitNow := false; miReason := ""; chart := None; holdThrough := false |};
     realPrices := ∅;
     getCryptoPrice := fun _ => cryptoNow sp;
     selectEntry := fun _ _ => None |}.

(** The underlying has moved 500 against the position; the blended
    probability is 35%. *)
Definition against : PriceSupport :=
  {| probability := 0.35; distance := 500; directionMatch := false; cryptoNow := 66500 |}.

(** The clock of the examples, in milliseconds. *)
Definition t0 : Z := 1000000.

(** A daily BTC market with 21 hours left at [t0], UP at 0.40 and DOWN at
    0.60. *)
Definition btcDaily : Market.t :=
  {| Market.conditionId := "0xbtc-daily"; Market.asset := "BTC"; Market.timeframe := TF1d;
     Market.upToken := "tok-up"; Market.downToken := "tok-down";
     Market.endDate := 76600000; Market.secsLeft := 75600; Market.totalSecs := 86400;
     Market.gammaUpPrice := 0.40; Market.gammaDownPrice := 0.60 |}.

(** An order client whose orders are accepted but never matched, and whose
    sells are refused. *)
Definition unmatchedClient : OrderClient :=
  {| ready := true;
     buyShares := fun _ _ price => OrderPlaced "order-1" price;
     sellShares := fun _ _ _ _ => OrderRefused;
     verifyOrder := fun _ => false |}.

(** A state with the given positions, bankroll, daily P&L and history, one
    daily market, and, when a client is given, live trading on it. *)
Definition stateWith (ps : list Position.t) (bank daily : Q) (hist : list Closed)
    (client : option OrderClient) : Scalper :=
  {| positions := ps; history := hist; markets := [btcDaily]; totalPnl := daily;
     totalBets := length ps; wins := 0; losses := 0; running := true; bankroll := bank;
     _tickCount := 0; _dailyPnl := daily; _dailyResetDate := "2026-02-14"; _ticking := false;
     _lastEntryTime := 0; _probeResults := ∅; _orderbooks := ∅; _priceHistory := ∅;
     _executionStats := {| fills := 0; failures := 0; totalSlippage := 0;
                           totalSpreadCost := 0 |};
     _orderClient := client;
     _liveTading := match client with Some _ => true | None => false end;
     _entryLock := false; clientCalls := [] |}.

(** The scanner's choice for the daily market: DOWN on a strong bear
    signal. *)
Definition bearCandidate : Candidate :=
  {| candSide := DOWN; candToken := "tok-down"; candPrice := 0.60;
     candReason := "PRED-bear-strong+ASYM"; candSigReason := "bear-strong+ASYM";
     candConviction := 0.6; candVolHigh := false; candTargetPct := 0.54 |}.

Definition offering (c : Candidate) : Env :=
  {| Math_sqrt := approxSqrt;
     priceSupport := fun _ => against;
     catching_up := fun _ _ => false;
     analyzeExit := fun _ _ _ =>
       {| exitNow := false; miReason := ""; chart := None; holdThrough := false |};
     realPrices := ∅;
     getCryptoPrice := fun _ => 66500;
     selectEntry := fun _ _ => Some c |}.

(** Thirty closed trades, each a loss of 0.10. *)
Definition losingTrade : Closed :=
  {| closedPos := dailyPos; exitPrice := 0.45; pnl := -0.10; reason := LIQ_SAFE;
     closedAt := 0; closedSlippage := 0 |}.

Definition thirtyLosses : list Closed := repeat losingTrade 30.

(** The positions of a list pairwise differ in (asset, timeframe). *)
Fixpoint distinctMarkets (ps : list Position.t) : bool :=
  match ps with
  | [] => true
  | p :: rest =>
      negb (existsb (fun q => String.eqb (Position.asset q) (Position.asset p)
                              && match Position.timeframe q, Position.timeframe p with
                                 | Some a, Some b => Timeframe_eqb a b
                                 | None, None => true
                                 | _, _ => false
                                 end) rest)
      && distinctMarkets rest
  end.

(** The invariant of the open set: one position per (asset, timeframe)
    and at most [MAX_POSITIONS] positions. *)
Definition openSetOk (s : Scalper) : Prop :=
  distinctMarkets (positions s) = true /\ (length (positions s) <= MAX_POSITIONS)%nat.

(** Two states agree on what position management reads besides the
    positions' own data: the open set, the order books and the client. *)
Definition sameTrading (a b : Scalper) : Prop :=
  positions a = positions b /\ _orderbooks a = _orderbooks b
  /\ _orderClient a = _orderClient b /\ _liveTading a = _liveTading b.

(** A running engine whose only market has no cached price yet and whose
    price histories are empty. *)
Definition unpricedDaily : Market.t :=
  {| Market.conditionId := "0xbtc-daily"; Market.asset := "BTC"; Market.timeframe := TF1d;
     Market.upToken := "tok-up"; Market.downToken := "tok-down";
     Market.endDate := 76600000; Market.secsLeft := 75600; Market.totalSecs := 86400;
     Market.gammaUpPrice := 0; Market.gammaDownPrice := 0 |}.

Definition noPricesYet : Scalper :=
  {| positions := []; history := []; markets := [unpricedDaily]; totalPnl := 0;
     totalBets := 0; wins := 0; losses := 0; running := true; bankroll := 5;
     _tickCount := 0; _dailyPnl := 0; _dailyResetDate := "2026-02-14"; _ticking := false;
     _lastEntryTime := 0; _probeResults := ∅; _orderbooks := ∅; _priceHistory := ∅;
     _executionStats := {| fills := 0; failures := 0; totalSlippage := 0;
                           totalSpreadCost := 0 |};
     _orderClient := None; _liveTading := false; _entryLock := false; clientCalls := [] |}.

(** The daily position 200 seconds before its market ends. *)
Definition expiring : Position.t :=
  {| Position.conditionId := "0xbtc-daily"; Position.asset := "BTC";
     Position.timeframe := Some TF1d; Position.side := UP; Position.tokenId := "tok-up";
     Position.entryPrice := 0.50; Position.midPriceAtEntry := 0.50; Position.size := 2;
     Position.costBasis := 1; Position.targetProfit := 0.45; Position.endDate := 1200000;
     Position.totalSecs := 86400; Position.openedAt := 0; Position.peakGain := 0;
     Position.unrealizedPnl := 0; Position.currentPrice := 0.50;
     Position.entryReason := "DAILY-CHEAP-UP"; Position.cryptoPriceAtEntry := 67000;
     Position.conviction := 0.8; Position.betTier := "AUTO";
     Position.patternKey := "BTC-UP-AUTO"; Position._latencyHoldTs := None |}.

(** A 15-minute position restored from a saved state, ten minutes before
    its market ends. *)
Definition legacy15m : Position.t :=
  {| Position.conditionId := "0xbtc-15m"; Position.asset := "BTC";
     Position.timeframe := Some TF15m; Position.side := UP; Position.tokenId := "tok-up";
     Position.entryPrice := 0.50; Position.midPriceAtEntry := 0.50; Position.size := 2;
     Position.costBasis := 1; Position.targetProfit := 0.12; Position.endDate := 1600000;
     Position.totalSecs := 900; Position.openedAt := 700000; Position.peakGain := 0;
     Position.unrealizedPnl := 0; Position.currentPrice := 0.50;
     Position.entryReason := "bull-strong"; Position.cryptoPriceAtEntry := 67000;
     Position.conviction := 0.6; Position.betTier := "MEDIUM";
     Position.patternKey := "BTC-UP-bull-strong"; Position._latencyHoldTs := None |}.

(** The UP token quoted at 0.30. *)
Definition upAt30 : gmap string Q := {[ "tok-up"%string := 0.30 ]}.

(** ** The vocabulary of the bankroll accounting *)

(** A position as the entry paths create it: a positive stake, bought at
    a positive price, with [size = costBasis / entryPrice]. *)
Definition wellFormed (p : Position.t) : Prop :=
  0 < Position.costBasis p /\ 0 < Position.entryPrice p
  /\ Position.size p * Position.entryPrice p == Position.costBasis p.

(** Two positions are the same deal: they differ at most in the fields the
    position manager updates (current price, peak gain, unrealized P&L,
    latency stamp). *)
Definition sameDeal (p q : Position.t) : Prop :=
  Position.costBasis p = Position.costBasis q
  /\ Position.entryPrice p = Position.entryPrice q
  /\ Position.size p = Position.size q
  /\ Position.asset p = Position.asset q
  /\ Position.timeframe p = Position.timeframe q
  /\ Position.tokenId p = Position.tokenId q
  /\ Position.patternKey p = Position.patternKey q.

(** A price is zero (absent) or at least one tick of 0.001. *)
Definition tickOk (x : Q) : Prop := x <= 0 \/ 0.001 <= x.

(** The order client reports positive execution prices for buys and
    non-negative ones for sells. *)
Definition clientOk (oc : OrderClient) : Prop :=
  (forall t sz pr oid px, buyShares oc t sz pr = OrderPlaced oid px -> 0 < px)
  /\ (forall t sh pr u oid px, sellShares oc t sh pr u = OrderPlaced oid px -> 0 <= px).

(** What the engine is given from outside is sane: spreads are not
    negative, quoted prices respect the tick, the client is [clientOk]. *)
Definition worldOk (s : Scalper) : Prop :=
  (forall t b, _orderbooks s !! t = Some b -> 0 <= spread b /\ tickOk (mid b))
  /\ (forall m, In m (markets s) ->
        tickOk (Market.gammaUpPrice m) /\ tickOk (Market.gammaDownPrice m))
  /\ (forall oc, _orderClient s = Some oc -> clientOk oc).

(** The fields no trading operation writes. *)
Definition sameWorld (s s' : Scalper) : Prop :=
  _orderbooks s' = _orderbooks s /\ markets s' = markets s
  /\ _orderClient s' = _orderClient s /\ _liveTading s' = _liveTading s.

Definition pricesOk (prices : gmap string Q) : Prop :=
  forall k v, prices !! k = Some v -> 0 <= v.

(** The operations that open and close positions. *)
Inductive Op :=
| OpManage (env : Env) (now : Z) (prices : gmap string Q)
| OpScan (env : Env) (now : Z) (prices : gmap string Q)
| OpAuto (env : Env) (now : Z)
| OpManual (env : Env) (now : Z) (asset sideArg : string) (betSize : Q).

Definition applyOp (o : Op) (s : Scalper) : Scalper :=
  match o with
  | OpManage env now prices => snd (_managePositions env now prices s)
  | OpScan env now prices => snd (_scanEntries env now prices s)
  | OpAuto env now => snd (_autoEntryDaily env now s)
  | OpManual env now asset sideArg betSize => snd (manualTrade env now asset sideArg betSize s)
  end.

Definition run (ops : list Op) (s : Scalper) : Scalper :=
  fold_left (fun acc o => applyOp o acc) ops s.

(** The token prices handed to position management are not negative. *)
Definition opOk (o : Op) : Prop :=
  match o with
  | OpManage _ _ prices => pricesOk prices
  | _ => True
  end.

(** The accounting invariant: a non-negative bankroll, well-formed open
    positions, a sane world. *)
Definition accountingOk (s : Scalper) : Prop :=
  0 <= bankroll s /\ Forall wellFormed (positions s) /\ worldOk s.

(** The amount a close returns to the bankroll. *)
Definition credited (h : Closed) : Q := Position.costBasis (closedPos h) + pnl h.

(** Example scenario 4: a $5 stake against a $3 bankroll. *)
Definition threeDollars : Scalper := stateWith [] 3 0 [] None.

(** What an entry path did: nothing to the accounts, or one position
    opened and paid for. *)
Definition openedOne (s s' : Scalper) : Prop :=
  exists pos,
    positions s' = positions s ++ [pos]
    /\ bankroll s' == bankroll s - Position.costBasis pos
    /\ 0 <= bankroll s'
    /\ history s' = history s
    /\ sameWorld s s'
    /\ (worldOk s -> wellFormed pos).

Definition untouched (s s' : Scalper) : Prop :=
  positions s' = positions s /\ bankroll s' = bankroll s
  /\ history s' = history s /\ sameWorld s s'.

(** What a sequence of entries did: some positions were appended and the
    bankroll paid the sum of their costs. *)
Definition openedSome (s s' : Scalper) : Prop :=
  exists new,
    positions s' = positions s ++ new
    /\ bankroll s' == bankroll s - Qsum (List.map Position.costBasis new)
    /\ (0 <= bankroll s -> 0 <= bankroll s')
    /\ history s' = history s
    /\ sameWorld s s'
    /\ (worldOk s -> Forall wellFormed new).

(** What the evaluation of a position may return: the same deal, and, if
    a close is requested, a request for this index at the token price or
    at one of the two resolution prices. *)
Definition evalOutcomeOk (i : nat) (cp : Q) (pos : Position.t)
    (x : Position.t * option CloseReq) : Prop :=
  sameDeal (fst x) pos
  /\ match snd x with
     | Some c => index c = i /\ (closePrice c = cp \/ closePrice c = 0.95 \/ closePrice c = 0.05)
     | None => True
     end.

(** A close happened between [s] and [s']: the record [h] was put at the
    head of the history, its position left the open set at index [i], its
    P&L is the price difference times the size, and the bankroll received
    the cost basis (or [PROBE_SIZE] when that is 0) plus the P&L. *)
Definition closedOne (i : nat) (s s' : Scalper) (h : Closed) : Prop :=
  positions s !! i = Some (closedPos h)
  /\ positions s' = delete i (positions s)
  /\ history s' = h :: history s
  /\ pnl h = (exitPrice h - Position.entryPrice (closedPos h)) * Position.size (closedPos h)
  /\ bankroll s' == bankroll s + (orElse (Position.costBasis (closedPos h)) PROBE_SIZE + pnl h)
  /\ sameWorld s s'.

(** ** The vocabulary of the probability model *)

Module ErfApprox.

(** The polynomial of the Abramowitz-Stegun formula, its quotient by [t],
    its derivative, and the formula as a function of [|x| / sqrt 2]. *)
Definition poly (t : R) : R :=
  ((((((ProbabilityModel.a5 * t + ProbabilityModel.a4) * t) + ProbabilityModel.a3) * t
      + ProbabilityModel.a2) * t + ProbabilityModel.a1) * t)%R.

Definition quot (t : R) : R :=
  (((((ProbabilityModel.a5 * t + ProbabilityModel.a4) * t) + ProbabilityModel.a3) * t
     + ProbabilityModel.a2) * t + ProbabilityModel.a1)%R.

Definition dpoly (t : R) : R :=
  (ProbabilityModel.a1 + 2 * ProbabilityModel.a2 * t + 3 * ProbabilityModel.a3 * t * t
   + 4 * ProbabilityModel.a4 * t * t * t + 5 * ProbabilityModel.a5 * t * t * t * t)%R.

Definition tOf (u : R) : R := (1 / (1 + ProbabilityModel.p * u))%R.

(** [y] of [_normalCDF] as a function of [ax]. *)
Definition erfLike (u : R) : R := (1 - poly (tOf u) * exp (- u * u))%R.

(** The derivative of [erfLike] is [exp (-u*u) * slope u]. *)
Definition slope (u : R) : R :=
  (ProbabilityModel.p * (tOf u * tOf u) * dpoly (tOf u) + 2 * u * poly (tOf u))%R.

(** [p * slope u] as a polynomial in [t = tOf u]. *)
Definition numer (t : R) : R :=
  (2 * (1 - t) * quot t + ProbabilityModel.p * ProbabilityModel.p * (t * t) * dpoly t)%R.

(** The coefficients of [numer], constant term first. *)
Definition A1 : Q := 0.254829592.
Definition A2 : Q := -0.284496736.
Definition A3 : Q := 1.421413741.
Definition A4 : Q := -1.453152027.
Definition A5 : Q := 1.061405429.
Definition PP : Q := 0.3275911.

Definition numerCoeffs : list Q :=
  [ 2 * A1;
    2 * A2 - 2 * A1;
    2 * A3 - 2 * A2 + PP * PP * A1;
    2 * A4 - 2 * A3 + PP * PP * (2 * A2);
    2 * A5 - 2 * A4 + PP * PP * (3 * A3);
    - (2 * A5) + PP * PP * (4 * A4);
    PP * PP * (5 * A5) ].

(** [sum_k c_k * t^k * tk] *)
Fixpoint evalR (cs : list Q) (t tk : R) : R :=
  match cs with
  | [] => 0%R
  | c :: rest => (Q2R c * tk + evalR rest t (tk * t))%R
  end.

(** A lower bound of the polynomial on [[l, u]] with [0 <= l]: every
    monomial at the end of the interval where it is smallest.  [lk] and
    [uk] are the running powers of [l] and [u]. *)
Fixpoint lowerOn (cs : list Q) (l u lk uk : Q) : Q :=
  match cs with
  | [] => 0
  | c :: rest =>
      (if Qle_bool 0 c then c * lk else c * uk) + lowerOn rest l u (lk * l) (uk * u)
  end.

(** The bound is positive on each of the [n] cells [[i/n, (i+1)/n]] below
    [k/n]. *)
Fixpoint positiveBelow (cs : list Q) (n : positive) (k : nat) : bool :=
  match k with
  | O => true
  | S i =>
      Qltb 0 (Qred (lowerOn cs (Z.of_nat i # n) (Z.of_nat (S i) # n) 1 1))
      && positiveBelow cs n i
  end.

Definition yearSecs : R := (365.25 * 24 * 3600)%R.

(** The argument [d2] of the probability, for positive prices and time. *)
Definition d2Of (c r secs : R) (asset : string) : R :=
  ((ln (c / r)
    + (-0.5 * ProbabilityModel.annualVol asset * ProbabilityModel.annualVol asset)
      * (secs / yearSecs))
   / (ProbabilityModel.annualVol asset * sqrt (secs / yearSecs)))%R.

End ErfApprox.

(** * The rest of the engine: feeds, estimates and housekeeping

    ** Price and oracle feeds (src/lib/scalper.js, [updateLive*] and the
    getters that read what they store) *)

Module Oracle.
(** The fields of [this] the feed callbacks write.  [_chainlinkLag] keeps
    the [lagMs] of each asset's entry. *)
Record t := mk {
  _realPrices : gmap string (list PriceObs);
  _liveDataTs : Z;
  _chainlinkPrices : gmap string Q;
  _chainlinkTs : Z;
  _chainlinkLag : gmap string Q;
  _predictedChainlink : gmap string Q;
  _predictedTs : Z;
  _clobLiveTs : Z
}.
End Oracle.

(** The constructor's values. *)
Definition noFeeds : Oracle.t :=
  {| Oracle._realPrices := ∅; Oracle._liveDataTs := 0; Oracle._chainlinkPrices := ∅;
     Oracle._chainlinkTs := 0; Oracle._chainlinkLag := ∅; Oracle._predictedChainlink := ∅;
     Oracle._predictedTs := 0; Oracle._clobLiveTs := 0 |}.

Definition set_realPrices v (f : Oracle.t) : Oracle.t :=
  {| Oracle._realPrices := v; Oracle._liveDataTs := Oracle._liveDataTs f;
     Oracle._chainlinkPrices := Oracle._chainlinkPrices f;
     Oracle._chainlinkTs := Oracle._chainlinkTs f;
     Oracle._chainlinkLag := Oracle._chainlinkLag f;
     Oracle._predictedChainlink := Oracle._predictedChainlink f;
     Oracle._predictedTs := Oracle._predictedTs f; Oracle._clobLiveTs := Oracle._clobLiveTs f |}.

Definition set_liveDataTs v (f : Oracle.t) : Oracle.t :=
  {| Oracle._realPrices := Oracle._realPrices f; Oracle._liveDataTs := v;
     Oracle._chainlinkPrices := Oracle._chainlinkPrices f;
     Oracle._chainlinkTs := Oracle._chainlinkTs f;
     Oracle._chainlinkLag := Oracle._chainlinkLag f;
     Oracle._predictedChainlink := Oracle._predictedChainlink f;
     Oracle._predictedTs := Oracle._predictedTs f; Oracle._clobLiveTs := Oracle._clobLiveTs f |}.

Definition set_chainlink (prices : gmap string Q) (stamp : Z) (f : Oracle.t) : Oracle.t :=
  {| Oracle._realPrices := Oracle._realPrices f; Oracle._liveDataTs := Oracle._liveDataTs f;
     Oracle._chainlinkPrices := prices; Oracle._chainlinkTs := stamp;
     Oracle._chainlinkLag := Oracle._chainlinkLag f;
     Oracle._predictedChainlink := Oracle._predictedChainlink f;
     Oracle._predictedTs := Oracle._predictedTs f; Oracle._clobLiveTs := Oracle._clobLiveTs f |}.

Definition set_chainlinkLag v (f : Oracle.t) : Oracle.t :=
  {| Oracle._realPrices := Oracle._realPrices f; Oracle._liveDataTs := Oracle._liveDataTs f;
     Oracle._chainlinkPrices := Oracle._chainlinkPrices f;
     Oracle._chainlinkTs := Oracle._chainlinkTs f; Oracle._chainlinkLag := v;
     Oracle._predictedChainlink := Oracle._predictedChainlink f;
     Oracle._predictedTs := Oracle._predictedTs f; Oracle._clobLiveTs := Oracle._clobLiveTs f |}.

Definition set_predicted (prices : gmap string Q) (stamp : Z) (f : Oracle.t) : Oracle.t :=
  {| Oracle._realPrices := Oracle._realPrices f; Oracle._liveDataTs := Oracle._liveDataTs f;
     Oracle._chainlinkPrices := Oracle._chainlinkPrices f;
     Oracle._chainlinkTs := Oracle._chainlinkTs f;
     Oracle._chainlinkLag := Oracle._chainlinkLag f;
     Oracle._predictedChainlink := prices; Oracle._predictedTs := stamp;
     Oracle._clobLiveTs := Oracle._clobLiveTs f |}.

Definition set_clobLiveTs v (f : Oracle.t) : Oracle.t :=
  {| Oracle._realPrices := Oracle._realPrices f; Oracle._liveDataTs := Oracle._liveDataTs f;
     Oracle._chainlinkPrices := Oracle._chainlinkPrices f;
     Oracle._chainlinkTs := Oracle._chainlinkTs f;
     Oracle._chainlinkLag := Oracle._chainlinkLag f;
     Oracle._predictedChainlink := Oracle._predictedChainlink f;
     Oracle._predictedTs := Oracle._predictedTs f; Oracle._clobLiveTs := v |}.

(** [for (const [asset, price] of Object.entries(prices))
      if (price && price > 0) table[asset] = price;] *)
Definition storePositive (prices : list (string * Q)) (table : gmap string Q)
  : gmap string Q :=
  foldl (fun acc e => if truthy (snd e) && Qgtb (snd e) 0 then <[fst e := snd e]> acc else acc)
        table prices.

Definition updateLiveChainlink (now : Z) (prices : list (string * Q)) (f : Oracle.t)
  : Oracle.t :=
  set_chainlink (storePositive prices (Oracle._chainlinkPrices f)) now f.

Definition updatePredictedChainlink (now : Z) (prices : list (string * Q)) (f : Oracle.t)
  : Oracle.t :=
  set_predicted (storePositive prices (Oracle._predictedChainlink f)) now f.

(** [this._chainlinkLag = lagInfo || {}] *)
Definition updateChainlinkLag (lagInfo : option (gmap string Q)) (f : Oracle.t) : Oracle.t :=
  set_chainlinkLag (default ∅ lagInfo) f.

(** [table[asset] || null] *)
Definition orNull (o : option Q) : option Q :=
  match o with
  | Some v => if truthy v then Some v else None
  | None => None
  end.

Definition _getPredictedChainlink (now : Z) (asset : string) (f : Oracle.t) : option Q :=
  if Z.eqb (Oracle._predictedTs f) 0 || Z.ltb 15000 (now - Oracle._predictedTs f) then None
  else orNull (Oracle._predictedChainlink f !! asset).

Definition _getChainlinkPrice (now : Z) (asset : string) (f : Oracle.t) : option Q :=
  if Z.eqb (Oracle._chainlinkTs f) 0 || Z.ltb 60000 (now - Oracle._chainlinkTs f) then None
  else orNull (Oracle._chainlinkPrices f !! asset).

Definition _getChainlinkLagSecs (asset : string) (f : Oracle.t) : Q :=
  match Oracle._chainlinkLag f !! asset with
  | Some lagMs => if truthy lagMs then lagMs / 1000 else 30
  | None => 30
  end.

Record Divergence := { binance : Q; chainlink : Q; diff : Q; pct : Q }.

Definition _getPriceDivergence (now : Z) (asset : string) (f : Oracle.t) : option Divergence :=
  match default [] (Oracle._realPrices f !! asset) with
  | [] => None
  | hist =>
      let binancePrice := lastPrice hist in
      match _getChainlinkPrice now asset f with
      | None => None
      | Some chainlinkPrice =>
          let diff_ := binancePrice - chainlinkPrice in
          Some {| binance := binancePrice; chainlink := chainlinkPrice; diff := diff_;
                  pct := diff_ / chainlinkPrice |}
      end
  end.

(** Priority: multi-exchange predicted, then the exchange feed, then the
    oracle. *)
Definition _getCryptoPrice (now : Z) (asset : string) (f : Oracle.t) : option Q :=
  match _getPredictedChainlink now asset f with
  | Some predicted => Some predicted
  | None =>
      match default [] (Oracle._realPrices f !! asset) with
      | [] => _getChainlinkPrice now asset f
      | hist => Some (lastPrice hist)
      end
  end.

(** ** Recording exchange prices: [_updateRealPrices], [updateLiveBinance] *)

Definition PRICE_BUFFER : nat := Z.to_nat 7200.

(** A value of the feed's table: [{ price, vol }] or, in the legacy form, a
    bare number ([vol] absent counts as 0). *)
Inductive Quote :=
| Quoted (price vol : Q)
| Bare (price : Q).

Definition quotePrice (q : Quote) : Q := match q with Quoted p _ | Bare p => p end.
Definition quoteVol (q : Quote) : Q := match q with Quoted _ v => v | Bare _ => 0 end.

(** [hist.splice(0, hist.length - n)] when [hist.length > n] *)
Definition keepLast {A} (n : nat) (l : list A) : list A :=
  if Nat.ltb n (length l) then drop (length l - n) l else l.

(** The body of the loop of [_updateRealPrices] for one asset's
    history. *)
Definition recordQuote (now : Z) (q : Quote) (hist : list PriceObs) : list PriceObs :=
  let hist1 :=
    match last hist with
    | Some o =>
        if Z.ltb (now - ts o) 500
        then take (length hist - 1) hist
             ++ [{| price := quotePrice q; vol := orElse (vol o) 0 + quoteVol q; ts := now |}]
        else hist ++ [{| price := quotePrice q; vol := quoteVol q; ts := now |}]
    | None => hist ++ [{| price := quotePrice q; vol := quoteVol q; ts := now |}]
    end in
  keepLast PRICE_BUFFER hist1.

Definition _updateRealPrices (now : Z) (data : list (string * Quote))
    (rp : gmap string (list PriceObs)) : gmap string (list PriceObs) :=
  foldl (fun acc e =>
           let q := snd e in
           if negb (truthy (quotePrice q)) || Qleb (quotePrice q) 0 then acc
           else <[fst e := recordQuote now q (default [] (acc !! fst e))]> acc)
        rp data.

Definition updateLiveBinance (now : Z) (data : list (string * Quote)) (f : Oracle.t)
  : Oracle.t :=
  set_liveDataTs now (set_realPrices (_updateRealPrices now data (Oracle._realPrices f)) f).

(** ** The predictive edge *)

Definition PRED_EDGE_MIN : Q := 0.03.
Definition PRED_CATCH_UP : Q := 0.01.

Module Edge.
Record t := mk {
  edge : Q; catching_up : bool; source : string;
  divergence : option Q; lagSecs : option Q
}.
End Edge.

(** [signalFavors]: the side the raw signal points to. *)
Definition signalFavors (sig : Signal) : Side :=
  if Z.ltb 0 (direction sig) then UP else DOWN.

(** The last step of each branch of [_getPredictiveEdge]: the edge for the
    favoured side, minus the absolute edge for the other one. *)
Definition edgeFor (favors sd : Side) (impliedProb currentPolyPrice : Q) (src : string)
    (div lag : option Q) : Edge.t :=
  if Side_eqb favors sd then
    let e := impliedProb - currentPolyPrice in
    {| Edge.edge := e; Edge.catching_up := Qltb e PRED_CATCH_UP; Edge.source := src;
       Edge.divergence := div; Edge.lagSecs := lag |}
  else
    let e := currentPolyPrice - (1 - impliedProb) in
    {| Edge.edge := - Qabs e; Edge.catching_up := false; Edge.source := src;
       Edge.divergence := div; Edge.lagSecs := lag |}.

Definition _getPredictiveEdge (now : Z) (asset : string) (sd : Side) (currentPolyPrice : Q)
    (f : Oracle.t) : Edge.t :=
  let sig := _getSignalRaw (Oracle._realPrices f) now asset in
  if Z.eqb (direction sig) 0
  then {| Edge.edge := 0; Edge.catching_up := false; Edge.source := "none";
          Edge.divergence := None; Edge.lagSecs := None |}
  else
    let favors := signalFavors sig in
    match _getPredictedChainlink now asset f, _getChainlinkPrice now asset f with
    | Some predicted, Some chainlinkNow =>
        (* multi-exchange median against the stale oracle price *)
        let predDiv := (predicted - chainlinkNow) / chainlinkNow in
        let predBullish := Qgtb predDiv 0 in
        let predStrength := Qabs predDiv in
        let lagSecs_ := _getChainlinkLagSecs asset f in
        let impliedProb0 := 0.50 + strength sig * 0.20 in
        let lagFactor := Qmin (lagSecs_ / 30) 1.5 in
        let exchangeBoost := 1.3 in
        let impliedProb1 :=
          if (Side_eqb favors UP && predBullish) || (Side_eqb favors DOWN && negb predBullish)
          then impliedProb0 + Qmin (predStrength * 5 * lagFactor * exchangeBoost) 0.25
          else if Qgtb predStrength 0.001
          then impliedProb0 - Qmin (predStrength * 3) 0.10
          else impliedProb0 in
        let impliedProb := Qmax 0.30 (Qmin 0.95 impliedProb1) in
        edgeFor favors sd impliedProb currentPolyPrice "multi-exchange"
                (Some predDiv) (Some lagSecs_)
    | _, _ =>
        match _getPriceDivergence now asset f with
        | Some div =>
            (* exchange feed against the oracle *)
            let binanceBullish := Qgtb (pct div) 0 in
            let divergenceStrength := Qabs (pct div) in
            let lagSecs_ := _getChainlinkLagSecs asset f in
            let impliedProb0 := 0.50 + strength sig * 0.20 in
            let lagFactor := Qmin (lagSecs_ / 30) 1.5 in
            let impliedProb1 :=
              if (Side_eqb favors UP && binanceBullish)
                 || (Side_eqb favors DOWN && negb binanceBullish)
              then impliedProb0 + Qmin (divergenceStrength * 5 * lagFactor) 0.20
              else if Qgtb divergenceStrength 0.001
              then impliedProb0 - Qmin (divergenceStrength * 3) 0.10
              else impliedProb0 in
            let impliedProb := Qmax 0.30 (Qmin 0.95 impliedProb1) in
            edgeFor favors sd impliedProb currentPolyPrice "chainlink"
                    (Some (pct div)) (Some lagSecs_)
        | None =>
            (* the signal alone *)
            edgeFor favors sd (0.50 + strength sig * 0.25) currentPolyPrice "binance" None None
        end
    end.

(** ** Probability estimate and Kelly fraction *)

Definition KELLY_FRACTION : Q := 0.25.

Definition sideDir (sd : Side) : Z := match sd with UP => 1%Z | DOWN => (-1)%Z end.

Definition _estimateProbability (msqrt : Q -> Q) (rp : gmap string (list PriceObs)) (now : Z)
    (asset : string) (sd : Side) (marketPrice secsLeft totalSecs : Q) : Q :=
  let sig := _getSignal msqrt rp now asset in
  let dir := sideDir sd in
  let prob0 :=
    if Z.eqb (direction sig) dir then Qmin 0.95 (marketPrice + strength sig * 0.15)
    else if negb (Z.eqb (direction sig) 0) && negb (Z.eqb (direction sig) dir)
    then Qmax 0.05 (marketPrice - strength sig * 0.10)
    else marketPrice in
  if Qgtb totalSecs 0 then
    let elapsed := 1 - secsLeft / totalSecs in
    if Qgtb elapsed 0.6 && Qgtb marketPrice 0.7 then Qmin 0.95 (prob0 + (elapsed - 0.6) * 0.1)
    else if Qgtb elapsed 0.6 && Qltb marketPrice 0.3
    then Qmax 0.05 (prob0 - (elapsed - 0.6) * 0.1)
    else prob0
  else prob0.

(** [_kellySize].  The quotients are those of [Q]: at a probability or a
    price of exactly 1 the source divides by 0, which the results below
    exclude. *)
Definition _kellySize (modelProb marketPrice : Q) : Q :=
  if Qleb modelProb marketPrice then 0
  else
    let q := modelProb / (1 - modelProb) in
    let p := marketPrice / (1 - marketPrice) in
    Qmax 0 ((q - p) / (1 + q) * KELLY_FRACTION).

(** ** The global track record of the probe system *)

Definition GLOBAL_MIN_TRADES : nat := 8.
Definition GLOBAL_MIN_WR : Q := 0.55.

Record TrackRecord := { trSamples : nat; trWinRate : Q; trProven : bool }.

Definition _getGlobalTrackRecord (s : Scalper) : TrackRecord :=
  let ps := List.map snd (map_to_list (_probeResults s)) in
  let totalSamples := fold_right Nat.add 0%nat (List.map (fun p => length (results p)) ps) in
  let totalWins := fold_right Nat.add 0%nat (List.map (fun p => countTrue (results p)) ps) in
  let wr := if Nat.ltb 0 totalSamples then Qnat totalWins / Qnat totalSamples else 0 in
  {| trSamples := totalSamples; trWinRate := wr;
     trProven := Nat.leb GLOBAL_MIN_TRADES totalSamples && Qgeb wr GLOBAL_MIN_WR |}.

(** ** Bollinger bands, volatility regime, conviction and viability *)

(** [_getBollinger]: the fields [position] and [percentB].  (With prices
    that are not all positive the source can divide by a zero band width;
    the price feed records positive prices only.) *)
Definition _getBollinger (msqrt : Q -> Q) (rp : gmap string (list PriceObs)) (now : Z)
    (asset : string) : Z * Q :=
  let prices := sampledPrices rp now asset (BB_PERIOD - 1) in
  if Nat.ltb (length prices) 5 then (0%Z, 0.5)
  else
    let n := Qnat (length prices) in
    let mean := Qsum prices / n in
    let variance := Qsum (List.map (fun b => (b - mean) * (b - mean)) prices) / n in
    let sd := msqrt variance in
    if Qltb sd (mean * 0.00005) then (0%Z, 0.5)
    else
      let upper := mean + BB_MULT * sd in
      let lower := mean - BB_MULT * sd in
      let current := List.last prices 0 in
      let percentB := (current - lower) / (upper - lower) in
      (if Qgtb current upper then 1%Z else if Qltb current lower then (-1)%Z else 0%Z,
       percentB).

Definition VOL_HIGH_MULT : Q := 2.

Inductive Regime := RegimeUnknown | RegimeHigh | RegimeLow.

(** [(prices[i] - prices[i-1]) / prices[i-1]] for [i >= 1] *)
Fixpoint returnsOf (l : list Q) : list Q :=
  match l with
  | a :: (b :: _) as rest => ((b - a) / a) :: returnsOf rest
  | _ => []
  end.

Definition rootMeanSquare (msqrt : Q -> Q) (rs : list Q) : Q :=
  msqrt (Qsum (List.map (fun r => r * r) rs) / Qnat (length rs)).

(** [_getVolatility]: the fields [current], [average] and [regime]. *)
Definition _getVolatility (msqrt : Q -> Q) (rp : gmap string (list PriceObs)) (now : Z)
    (asset : string) : Q * Q * Regime :=
  let recentPrices := sampledPrices rp now asset 5 in
  if Nat.ltb (length recentPrices) 3 then (0, 0, RegimeUnknown)
  else
    let recentVol := rootMeanSquare msqrt (returnsOf recentPrices) in
    let allReturns := returnsOf (sampledPrices rp now asset 20) in
    let avgVol :=
      if Nat.ltb 0 (length allReturns) then rootMeanSquare msqrt allReturns else 0 in
    (recentVol, avgVol,
     if Qgtb avgVol 0 && Qgtb recentVol (avgVol * VOL_HIGH_MULT) then RegimeHigh
     else RegimeLow).

Record Conviction := {
  convValue : Q; convPatternKey : string; convProbeRecord : ProbeSummary
}.

(** The seven weighted scores of [_calculateConviction], in the order of
    the source.  The [factors] list (labels for the log) is left out. *)
Definition scoreSignal (sig : Signal) : Q := strength sig * 25.

Definition scoreRSI (sd : Side) (rsi : Q) : Q :=
  let up := Side_eqb sd UP in
  let down := negb up in
  if up && Qgtb rsi RSI_OB then 15
  else if down && Qltb rsi RSI_OS then 15
  else if up && Qgtb rsi 55 then 8
  else if down && Qltb rsi 45 then 8
  else if (up && Qltb rsi 35) || (down && Qgtb rsi 65) then 0
  else 5.

Definition scoreBollinger (sd : Side) (bb : Z * Q) : Q :=
  if Side_eqb sd UP && Z.ltb 0 (fst bb) then 10
  else if Side_eqb sd DOWN && Z.ltb (fst bb) 0 then 10
  else if Qgtb (snd bb) 0.3 && Qltb (snd bb) 0.7 then 5
  else 2.

Definition scoreCross (sd : Side) (cross : Z * Q) : Q :=
  let crossDir := sideDir sd in
  if Z.eqb (fst cross) crossDir && Qgeb (snd cross) 0.66 then 15
  else if Z.eqb (fst cross) crossDir then 10
  else if Z.eqb (fst cross) 0 then 5
  else 0.

Definition scoreVolume (volRatio : Q * Q) : Q :=
  if Qgtb (fst volRatio) 2.0 && Qgtb (snd volRatio) 0 then 10
  else if Qgtb (fst volRatio) 1.2 then 7
  else if Qltb (fst volRatio) 0.3 && Qgtb (snd volRatio) 0 then 0
  else 4.

Definition scoreEdge (e : Q) : Q :=
  if Qgeb e 0.05 then 15
  else if Qgeb e PRED_EDGE_MIN then 10
  else if Qgeb e 0.01 then 5
  else if Qltb e 0 then 0
  else 3.

Definition scoreProbe (rec : ProbeSummary) : Q :=
  if Nat.leb PROBE_MIN_SAMPLES (samples rec) then
    if Qgeb (recentWR rec) 0.80 then 10
    else if Qgeb (recentWR rec) 0.70 then 8
    else if Qgeb (recentWR rec) 0.60 then 5
    else 0
  else 2.

Definition _calculateConviction (msqrt : Q -> Q) (now : Z) (asset : string) (sd : Side)
    (sig : Signal) (entryPrice : Q) (s : Scalper) (f : Oracle.t) : Conviction :=
  let rp := Oracle._realPrices f in
  let maxScore := 25 + 15 + 10 + 15 + 10 + 15 + 10 in
  let patternKey_ := _probeKey asset sd (sigReason sig) in
  let probeRec := _getProbeRecord patternKey_ s in
  let score :=
    scoreSignal sig
    + scoreRSI sd (_getRSI rp now asset)
    + scoreBollinger sd (_getBollinger msqrt rp now asset)
    + scoreCross sd (_getCrossAssetConsensus rp now)
    + scoreVolume (_getVolumeRatio rp asset)
    + scoreEdge (Edge.edge (_getPredictiveEdge now asset sd entryPrice f))
    + scoreProbe probeRec in
  {| convValue := Qmin (score / maxScore) 1.0; convPatternKey := patternKey_;
     convProbeRecord := probeRec |}.

(** *** Pre-entry viability *)

Inductive Verdict :=
| NoCryptoData | DeadMoney | MarketSaysNo | GuaranteedFAK | Impossible | ViableOK.

Record Viability := {
  viable : bool; verdict : Verdict; winProb : option Q; maxMove : option Q
}.

(** [_assessEntryViability]; [msqrt] and [mlog] are [Math.sqrt] and
    [Math.log].  The reason text is the [verdict] tag. *)
Definition _assessEntryViability (msqrt mlog : Q -> Q) (now : Z) (asset : string)
    (entryPrice secsLeft : Q) (f : Oracle.t) : Viability :=
  match _getCryptoPrice now asset f with
  | None => {| viable := true; verdict := NoCryptoData; winProb := None; maxMove := None |}
  | Some cryptoNow =>
  if negb (truthy cryptoNow)
  then {| viable := true; verdict := NoCryptoData; winProb := None; maxMove := None |}
  else
    let sigma := default 0.50 (ANNUAL_VOL asset) in
    let secsInYear := 365.25 * 24 * 3600 in
    let T := secsLeft / secsInYear in
    let oneSigmaMove := cryptoNow * sigma * msqrt T in
    let maxRealisticMove := oneSigmaMove * 3 in
    let marketImpliedProb := entryPrice in
    let minsLeft := secsLeft / 60 in
    let refuse v :=
      {| viable := false; verdict := v; winProb := Some marketImpliedProb;
         maxMove := Some maxRealisticMove |} in
    if Qltb marketImpliedProb 0.15 && Qltb minsLeft 120 then refuse DeadMoney
    else if Qltb marketImpliedProb 0.08 then refuse MarketSaysNo
    else if Qltb entryPrice 0.25 && Qltb minsLeft 60 then refuse GuaranteedFAK
    else if Qgtb oneSigmaMove 0
            && Qgtb (Qabs (mlog (1 / marketImpliedProb)) / (sigma * msqrt T)) 4
            && Qltb minsLeft 30
    then refuse Impossible
    else {| viable := true; verdict := ViableOK; winProb := Some marketImpliedProb;
            maxMove := Some maxRealisticMove |}
  end.

(** ** Token prices: [updateLiveCLOB] and [_updatePolyPrices] *)

Definition set_orderbooks v (s : Scalper) : Scalper :=
  {| positions := positions s; history := history s; markets := markets s;
     totalPnl := totalPnl s; totalBets := totalBets s; wins := wins s; losses := losses s;
     running := running s; bankroll := bankroll s; _tickCount := _tickCount s;
     _dailyPnl := _dailyPnl s; _dailyResetDate := _dailyResetDate s; _ticking := _ticking s;
     _lastEntryTime := _lastEntryTime s; _probeResults := _probeResults s;
     _orderbooks := v; _priceHistory := _priceHistory s;
     _executionStats := _executionStats s; _orderClient := _orderClient s;
     _liveTading := _liveTading s; _entryLock := _entryLock s;
     clientCalls := clientCalls s |}.

Definition set_priceHistory v (s : Scalper) : Scalper :=
  {| positions := positions s; history := history s; markets := markets s;
     totalPnl := totalPnl s; totalBets := totalBets s; wins := wins s; losses := losses s;
     running := running s; bankroll := bankroll s; _tickCount := _tickCount s;
     _dailyPnl := _dailyPnl s; _dailyResetDate := _dailyResetDate s; _ticking := _ticking s;
     _lastEntryTime := _lastEntryTime s; _probeResults := _probeResults s;
     _orderbooks := _orderbooks s; _priceHistory := v;
     _executionStats := _executionStats s; _orderClient := _orderClient s;
     _liveTading := _liveTading s; _entryLock := _entryLock s;
     clientCalls := clientCalls s |}.

Definition set_markets v (s : Scalper) : Scalper :=
  {| positions := positions s; history := history s; markets := v;
     totalPnl := totalPnl s; totalBets := totalBets s; wins := wins s; losses := losses s;
     running := running s; bankroll := bankroll s; _tickCount := _tickCount s;
     _dailyPnl := _dailyPnl s; _dailyResetDate := _dailyResetDate s; _ticking := _ticking s;
     _lastEntryTime := _lastEntryTime s; _probeResults := _probeResults s;
     _orderbooks := _orderbooks s; _priceHistory := _priceHistory s;
     _executionStats := _executionStats s; _orderClient := _orderClient s;
     _liveTading := _liveTading s; _entryLock := _entryLock s;
     clientCalls := clientCalls s |}.

Definition market_set_gammaUpPrice v (m : Market.t) : Market.t :=
  {| Market.conditionId := Market.conditionId m; Market.asset := Market.asset m;
     Market.timeframe := Market.timeframe m; Market.upToken := Market.upToken m;
     Market.downToken := Market.downToken m; Market.endDate := Market.endDate m;
     Market.secsLeft := Market.secsLeft m; Market.totalSecs := Market.totalSecs m;
     Market.gammaUpPrice := v; Market.gammaDownPrice := Market.gammaDownPrice m |}.

Definition market_set_gammaDownPrice v (m : Market.t) : Market.t :=
  {| Market.conditionId := Market.conditionId m; Market.asset := Market.asset m;
     Market.timeframe := Market.timeframe m; Market.upToken := Market.upToken m;
     Market.downToken := Market.downToken m; Market.endDate := Market.endDate m;
     Market.secsLeft := Market.secsLeft m; Market.totalSecs := Market.totalSecs m;
     Market.gammaUpPrice := Market.gammaUpPrice m; Market.gammaDownPrice := v |}.

(** The [bookData] argument of [updateLiveCLOB]. *)
Record BookData := {
  bdBestBid : Q; bdBestAsk : Q; bdSpread : Q; bdBidDepth : Q; bdAskDepth : Q
}.

(** The update of a token's price history in [updateLiveCLOB]: an entry
    less than 200 ms old is overwritten, otherwise one is pushed; at most
    20 are kept. *)
Definition pushLive (now : Z) (mid_ : Q) (hist : list (Q * Z)) : list (Q * Z) :=
  let hist1 :=
    match last hist with
    | Some e =>
        if Z.ltb (now - snd e) 200
        then take (length hist - 1) hist ++ [(mid_, now)]
        else hist ++ [(mid_, now)]
    | None => hist ++ [(mid_, now)]
    end in
  keepLast 20 hist1.

Definition repriceMarket (tokenId : string) (mid_ : Q) (m : Market.t) : Market.t :=
  if String.eqb (Market.upToken m) tokenId then market_set_gammaUpPrice mid_ m
  else if String.eqb (Market.downToken m) tokenId then market_set_gammaDownPrice mid_ m
  else m.

Definition updateLiveCLOB (now : Z) (tokenId : string) (mid_ : Q) (bookData : BookData)
    (sf : Scalper * Oracle.t) : Scalper * Oracle.t :=
  let '(s, f) := sf in
  if negb (nonEmpty tokenId) || negb (truthy mid_) || Qleb mid_ 0 then sf
  else
    let book :=
      {| mid := mid_; bestBid := orElse (bdBestBid bookData) 0;
         bestAsk := orElse (bdBestAsk bookData) 0; spread := orElse (bdSpread bookData) 0;
         bidDepth := orElse (bdBidDepth bookData) 0;
         askDepth := orElse (bdAskDepth bookData) 0;
         asksEmpty := false; bidsEmpty := false |} in
    let s1 := set_orderbooks (<[tokenId := book]> (_orderbooks s)) s in
    let hist := default [] (_priceHistory s1 !! tokenId) in
    let s2 := set_priceHistory (<[tokenId := pushLive now mid_ hist]> (_priceHistory s1)) s1 in
    let s3 := set_markets (List.map (repriceMarket tokenId mid_) (markets s2)) s2 in
    (s3, set_clobLiveTs now f).

(** The last entry of a price history is older than [DEFAULT_STALE]. *)
Definition staleAt (now : Z) (hist : list (Q * Z)) : bool :=
  match last hist with
  | Some e => Z.ltb DEFAULT_STALE (now - snd e)
  | None => false
  end.

Definition _updatePolyPrices (now : Z) (prices : list (string * Q)) (s : Scalper) : Scalper :=
  let pushed :=
    foldl (fun acc e =>
             <[fst e := keepLast 20 (default [] (acc !! fst e) ++ [(snd e, now)])]> acc)
          (_priceHistory s) prices in
  set_priceHistory (omap (fun h => if staleAt now h then None else Some h) pushed) s.

(** ** The log *)

Definition MAX_LOGS : nat := 200.

Record LogEntry := { logTs : Z; logType : string; logMsg : string }.

(** The fields [log] writes; [printed] is what went to standard output. *)
Record Journal := {
  logs : list LogEntry; lastLog : string; _logSkipCount : nat;
  _logQueue : list LogEntry; printed : list string
}.

Definition logLine (type msg : string) : string :=
  "[Scalper][" +:+ type +:+ "] " +:+ msg +:+ String (ascii_of_nat 10) EmptyString.

Definition noisyType (type : string) : bool :=
  String.eqb type "TICK" || String.eqb type "SIGNAL" || String.eqb type "MARKET".

Definition log (now : Z) (type msg : string) (j : Journal) : Journal :=
  let entry := {| logTs := now; logType := type; logMsg := msg |} in
  let logs1 := keepLast MAX_LOGS (logs j ++ [entry]) in
  let skip := if noisyType type then S (_logSkipCount j) else _logSkipCount j in
  let printed1 :=
    if noisyType type
    then (if Nat.eqb (skip mod 20) 0 then printed j ++ [logLine type msg] else printed j)
    else printed j ++ [logLine type msg] in
  {| logs := logs1; lastLog := msg; _logSkipCount := skip;
     _logQueue := _logQueue j ++ [entry]; printed := printed1 |}.

(** ** On-chain reconciliation *)

(** The answer of [getBalanceAllowance] for a token: the share balance
    ([parseFloat(bal.balance) / 1e6]), or an exception. *)
Inductive ChainAnswer :=
| OnChain (shares : Q)
| CheckFailed.

Definition pos_set_size v (p : Position.t) : Position.t :=
  {| Position.conditionId := Position.conditionId p; Position.asset := Position.asset p;
     Position.timeframe := Position.timeframe p; Position.side := Position.side p;
     Position.tokenId := Position.tokenId p; Position.entryPrice := Position.entryPrice p;
     Position.midPriceAtEntry := Position.midPriceAtEntry p;
     Position.size := v; Position.costBasis := Position.costBasis p;
     Position.targetProfit := Position.targetProfit p;
     Position.endDate := Position.endDate p; Position.totalSecs := Position.totalSecs p;
     Position.openedAt := Position.openedAt p; Position.peakGain := Position.peakGain p;
     Position.unrealizedPnl := Position.unrealizedPnl p;
     Position.currentPrice := Position.currentPrice p;
     Position.entryReason := Position.entryReason p;
     Position.cryptoPriceAtEntry := Position.cryptoPriceAtEntry p;
     Position.conviction := Position.conviction p; Position.betTier := Position.betTier p;
     Position.patternKey := Position.patternKey p;
     Position._latencyHoldTs := Position._latencyHoldTs p |}.

(** The body of the loop of [reconcileOnChain] for one position: the
    position as it is kept, or [None] when it is dropped. *)
Definition reconcileOne (chain : string -> ChainAnswer) (p : Position.t) : option Position.t :=
  if negb (nonEmpty (Position.tokenId p)) then Some p
  else
    match chain (Position.tokenId p) with
    | OnChain onChainShares =>
        if Qgeb onChainShares 0.5 then
          if Qgtb (Qabs (onChainShares - Position.size p)) 0.1
          then Some (pos_set_size onChainShares p)
          else Some p
        else None
    | CheckFailed => Some p
    end.

(** [reconcileOnChain]: [chain] answers [getBalanceAllowance], [walletBal]
    is the answer of [getBalance].  The second component is the value
    written to [startingBankroll], if any. *)
Definition reconcileOnChain (chain : string -> ChainAnswer) (walletBal : Q) (s : Scalper)
  : Scalper * option Q :=
  match _orderClient s with
  | None => (s, None)
  | Some oc =>
      if negb (ready oc) || Nat.eqb (length (positions s)) 0 then (s, None)
      else
        let reconciled := omap (reconcileOne chain) (positions s) in
        let s1 := set_positions reconciled s in
        if negb (Nat.eqb (length reconciled) (length (positions s))) then
          if Qgtb walletBal 0 then
            (set_bankroll walletBal s1,
             Some (walletBal
                   + fold_left (fun acc p => acc + orElse (Position.costBasis p) PROBE_SIZE)
                               reconciled 0))
          else (s1, None)
        else (s1, None)
  end.

(** ** The state file (src/lib/storage.js) *)

Module Storage.

(** A JSON value. *)
#[warnings="-register-all"] Inductive Json :=
| JNull
| JBool (b : bool)
| JNum (n : Q)
| JStr (x : string)
| JArr (items : list Json)
| JObj (fields : list (string * Json)).

(** The state file: absent, unreadable (it does not parse), or holding
    an object. *)
Inductive Disk :=
| NoFile
| Unreadable
| Holds (content : gmap string Json).

(** The module's state: [_cache] ([None] is [null]) and the file. *)
Record t := mk { _cache : option (gmap string Json); disk : Disk }.

Definition DEFAULTS : gmap string Json :=
  {[ "settings"%string := JObj [("defaultBetSize"%string, JNum 1);
                                ("maxBetSize"%string, JNum 10)];
     "wallet"%string := JNull ]}.

Definition loadAll (st : t) : gmap string Json * t :=
  match _cache st with
  | Some c => (c, st)
  | None =>
      let c := match disk st with Holds m => m | NoFile | Unreadable => ∅ end in
      (c, {| _cache := Some c; disk := disk st |})
  end.

(** [flush]; [writeOk = false] is a write that throws (the error goes to
    standard error and is swallowed). *)
Definition flush (writeOk : bool) (st : t) : t :=
  match _cache st with
  | Some c => if writeOk then {| _cache := _cache st; disk := Holds c |} else st
  | None => st
  end.

(** [get]; [None] is [undefined]. *)
Definition get (key : string) (st : t) : option Json * t :=
  let '(all, st1) := loadAll st in
  (match all !! key with Some v => Some v | None => DEFAULTS !! key end, st1).

Definition set (key : string) (value : Json) (writeOk : bool) (st : t) : t :=
  let '(all, st1) := loadAll st in
  flush writeOk {| _cache := Some (<[key := value]> all); disk := disk st1 |}.

(** [{ ...DEFAULTS, ...loadAll() }] *)
Definition getAll (st : t) : gmap string Json * t :=
  let '(all, st1) := loadAll st in (all ∪ DEFAULTS, st1).

Definition getSettings (st : t) : option Json * t := get "settings" st.

(** A new process on the same file. *)
Definition restart (st : t) : t := {| _cache := None; disk := disk st |}.

End Storage.

(** ** The re-entry cool-down (src/lib/market-intelligence.js) *)

Module Cooldown.

(** [recordExit] on [this._recentExits]: the exit is stamped and the
    entries older than two minutes are removed. *)
Definition recordExit (now : Z) (conditionId : string) (recentExits : gmap string Z)
  : gmap string Z :=
  let cutoff := (now - 120000)%Z in
  omap (fun stamp => if Z.ltb stamp cutoff then None else Some stamp)
       (<[conditionId := now]> recentExits).

Definition canReenter (now : Z) (conditionId : string) (recentExits : gmap string Z) : bool :=
  match recentExits !! conditionId with
  | None => true
  | Some lastExit => if Z.eqb lastExit 0 then true else Z.ltb 45000 (now - lastExit)
  end.

End Cooldown.

(** ** Chart helpers (src/lib/market-intelligence.js) *)

Module Chart.

Record Candle := {
  open : Q; close : Q; high : Q; low : Q; candleVol : Q; candleTs : Z
}.

(** [_barToCandle] of the non-empty bar [first :: rest]. *)
Definition _barToCandle (first : PriceObs) (rest : list PriceObs) : Candle :=
  {| open := price first;
     close := price (List.last rest first);
     high := fold_left (fun acc p => Qmax acc (price p)) rest (price first);
     low := fold_left (fun acc p => Qmin acc (price p)) rest (price first);
     candleVol := fold_left (fun acc p => acc + orElse (vol p) 0) (first :: rest) 0;
     candleTs := ts first |}.

Definition closeBar (bar : list PriceObs) : list Candle :=
  match bar with
  | [] => []
  | first :: rest => [_barToCandle first rest]
  end.

(** The loop of [_buildCandles] with its variables [startTs] and [bar]. *)
Fixpoint candleLoop (intervalMs startTs : Z) (bar ticks : list PriceObs) : list Candle :=
  match ticks with
  | [] => closeBar bar
  | tick :: rest =>
      if Z.leb intervalMs (ts tick - startTs) && Nat.ltb 0 (length bar)
      then closeBar bar ++ candleLoop intervalMs (ts tick) [tick] rest
      else candleLoop intervalMs startTs (bar ++ [tick]) rest
  end.

Definition _buildCandles (priceHistory : list PriceObs) (intervalSecs : Z) : list Candle :=
  match priceHistory with
  | [] => []
  | first :: _ => candleLoop (intervalSecs * 1000) (ts first) [] priceHistory
  end.

End Chart.

(** ** The multi-exchange median (src/lib/multi-exchange.js) *)

Module MultiExchange.

(** [vals.sort((a, b) => a - b)]: the values in ascending order. *)
Fixpoint insertAscending (x : Q) (l : list Q) : list Q :=
  match l with
  | [] => [x]
  | y :: rest => if Qle_bool x y then x :: l else y :: insertAscending x rest
  end.

Definition sortAscending (l : list Q) : list Q := fold_right insertAscending [] l.

(** The median of a sorted list. *)
Definition medianOf (vals : list Q) : Q :=
  let n := length vals in
  if Nat.eqb (n mod 2) 1 then nth (n / 2) vals 0
  else (nth (n / 2 - 1) vals 0 + nth (n / 2) vals 0) / 2.

(** The aggregator: per asset the prices of the exchanges (in the order
    they first reported), the predictions, and what was handed to the
    [onPredicted] callback, oldest first. *)
Record t := mk {
  _prices : gmap string (list (string * Q));
  _predicted : gmap string Q;
  _lastUpdate : Z;
  emitted : list (gmap string Q)
}.

(** The constructor's state. *)
Definition fresh : t :=
  {| _prices := {[ "BTC"%string := []; "ETH"%string := []; "SOL"%string := [] ]};
     _predicted := ∅; _lastUpdate := 0; emitted := [] |}.

(** [sources[exchange] = price] on an object's entries. *)
Fixpoint assign (exchange : string) (v : Q) (sources : list (string * Q))
  : list (string * Q) :=
  match sources with
  | [] => [(exchange, v)]
  | e :: rest =>
      if String.eqb (fst e) exchange then (exchange, v) :: rest
      else e :: assign exchange v rest
  end.

Definition _recalculate (now : Z) (asset : string) (st : t) : t :=
  match _prices st !! asset with
  | None => st
  | Some sources =>
      let vals := List.filter (fun v => Qgtb v 0) (List.map snd sources) in
      match vals with
      | [] => st
      | _ =>
          let mid := medianOf (sortAscending vals) in
          let predicted := <[asset := mid]> (_predicted st) in
          {| _prices := _prices st; _predicted := predicted; _lastUpdate := now;
             emitted := emitted st ++ [predicted] |}
      end
  end.

(** The handler of the Coinbase and Kraken feeds, for an asset the
    aggregator tracks ([exchange] is the lower-cased feed name). *)
Definition onPrice (now : Z) (exchange asset : string) (v : Q) (st : t) : t :=
  match _prices st !! asset with
  | None => st
  | Some sources =>
      _recalculate now asset
        {| _prices := <[asset := assign exchange v sources]> (_prices st);
           _predicted := _predicted st; _lastUpdate := _lastUpdate st;
           emitted := emitted st |}
  end.

Definition updateBinance (now : Z) (prices : list (string * Q)) (st : t) : t :=
  foldl (fun acc e =>
           if truthy (snd e) && Qgtb (snd e) 0 then
             match _prices acc !! fst e with
             | Some sources =>
                 _recalculate now (fst e)
                   {| _prices := <[fst e := assign "binance" (snd e) sources]> (_prices acc);
                      _predicted := _predicted acc; _lastUpdate := _lastUpdate acc;
                      emitted := emitted acc |}
             | None => acc
             end
           else acc)
        st prices.

Definition getPredicted (asset : string) (st : t) : option Q :=
  match _predicted st !! asset with
  | Some v => if truthy v then Some v else None
  | None => None
  end.

End MultiExchange.

(** ** Vocabulary of the further properties *)

(** Every element is related to all the later ones. *)
Fixpoint chain {A} (R : A -> A -> Prop) (l : list A) : Prop :=
  match l with
  | [] => True
  | a :: rest => Forall (R a) rest /\ chain R rest
  end.

(** The observations were recorded at strictly increasing times. *)
Definition stampsIncrease (hist : list PriceObs) : Prop :=
  chain (fun a b => (ts a < ts b)%Z) hist.

(** The distance in time between an observation and a target. *)
Definition stampDistance (target : Z) (o : PriceObs) : Z := Z.abs (ts o - target).

(** Feeds that hold only the exchange prices of [youngSamples]. *)
Definition exchangeOnly : Oracle.t := set_realPrices youngSamples noFeeds.

(** What is left of the daily position after a partial sale: half a
    share. *)
Definition dust : Position.t := pos_set_size 0.5 dailyPos.

(** A recorded price history is sound at time [now]: strictly
    increasing stamps, none after [now], positive prices, and no more
    entries than the buffer holds. *)
Definition feedOk (now : Z) (hist : list PriceObs) : Prop :=
  stampsIncrease hist
  /\ Forall (fun o => 0 < price o /\ (ts o <= now)%Z) hist
  /\ (length hist <= PRICE_BUFFER)%nat.

(** Every probe record keeps at most [PROBE_WINDOW] results. *)
Definition probeWindowsOk (s : Scalper) : Prop :=
  forall key rec, _probeResults s !! key = Some rec -> (length (results rec) <= PROBE_WINDOW)%nat.

(** The number of closed trades with a non-negative P&L. *)
Definition nonLosing (trades : list Closed) : nat :=
  length (List.filter (fun t => Qgeb (pnl t) 0) trades).

(** Eight winning results on one pattern. *)
Definition eightWins : Scalper :=
  set_probeResults
    {[ "BTC-UP-bull-strong"%string :=
         {| pr_wins := 8; pr_losses := 0; results := repeat true 8 |} ]} started.

(** A candle is well formed: its low and high bracket its open and its
    close. *)
Definition candleOk (c : Chart.Candle) : Prop :=
  Chart.low c <= Chart.open c <= Chart.high c
  /\ Chart.low c <= Chart.close c <= Chart.high c.

(** The total volume of a list of observations, an absent volume
    counting as 0. *)
Definition totalVol (l : list PriceObs) : Q := Qsum (List.map (fun p => orElse (vol p) 0) l).

(** Three exchanges quoting an asset. *)
Definition threeSources (x y z : Q) : list (string * Q) :=
  [("binance"%string, x); ("coinbase"%string, y); ("kraken"%string, z)].

Definition quoting (asset : string) (sources : list (string * Q)) : MultiExchange.t :=
  {| MultiExchange._prices := {[ asset := sources ]}; MultiExchange._predicted := ∅;
     MultiExchange._lastUpdate := 0; MultiExchange.emitted := [] |}.

(** The coefficients of the quotient [poly t / t] of the
    Abramowitz-Stegun polynomial, constant term first. *)
Definition quotCoeffs : list Q :=
  [ErfApprox.A1; ErfApprox.A2; ErfApprox.A3; ErfApprox.A4; ErfApprox.A5].

(** An order client whose orders are accepted and matched at the price
    they ask. *)
Definition fillingClient : OrderClient :=
  {| ready := true;
     buyShares := fun _ _ price => OrderPlaced "order-1" price;
     sellShares := fun _ _ price _ => OrderPlaced "order-2" price;
     verifyOrder := fun _ => true |}.
Lemma Qltb_lt x y : Qltb x y = true <-> x < y.
Proof.
  unfold Qltb. rewrite negb_true_iff, <- not_true_iff_false, Qle_bool_iff.
  split; [apply Qnot_le_lt | apply Qlt_not_le].
Qed.

Lemma Qltb_ge x y : Qltb x y = false <-> y <= x.
Proof.
  unfold Qltb. rewrite negb_false_iff. apply Qle_bool_iff.
Qed.

Lemma Qleb_le x y : Qleb x y = true <-> x <= y.
Proof. apply Qle_bool_iff. Qed.

Lemma Qleb_gt x y : Qleb x y = false <-> y < x.
Proof.
  unfold Qleb. rewrite <- not_true_iff_false, Qle_bool_iff.
  split; [apply Qnot_le_lt | apply Qlt_not_le].
Qed.

Lemma truthy_true x : truthy x = true <-> ~ x == 0.
Proof.
  unfold truthy. rewrite negb_true_iff, <- not_true_iff_false, Qeq_bool_iff. tauto.
Qed.

Lemma orElse_nonzero a b : ~ a == 0 -> orElse a b = a.
Proof. intros H. unfold orElse. apply truthy_true in H. now rewrite H. Qed.

Lemma Math_round_upper x : inject_Z (Math_round x) <= x + 0.5.
Proof. unfold Math_round. apply Qfloor_le. Qed.

Lemma Math_round_lower x : x - 0.5 < inject_Z (Math_round x).
Proof.
  unfold Math_round. pose proof (Qlt_floor (x + 0.5)) as H.
  rewrite inject_Z_plus in H. change (inject_Z 1) with 1 in H. lra.
Qed.

Lemma roundTo_100_upper x : roundTo 100 x <= x + 0.005.
Proof.
  unfold roundTo. pose proof (Math_round_upper (x * inject_Z 100)) as H.
  change (inject_Z 100) with 100 in *.
  set (r := inject_Z (Math_round (x * 100))) in *.
  unfold Qdiv. change (/ 100) with 0.01. lra.
Qed.

Lemma roundTo_100_lower x : x - 0.005 < roundTo 100 x.
Proof.
  unfold roundTo. pose proof (Math_round_lower (x * inject_Z 100)) as H.
  change (inject_Z 100) with 100 in *.
  set (r := inject_Z (Math_round (x * 100))) in *.
  unfold Qdiv. change (/ 100) with 0.01. lra.
Qed.

Lemma roundTo_nonneg k x : (0 < k)%Z -> 0 <= x -> 0 <= roundTo k x.
Proof.
  intros Hk Hx. unfold roundTo.
  assert (0 <= Math_round (x * inject_Z k))%Z as Hr.
  { unfold Math_round. change 0%Z with (Qfloor 0). apply Qfloor_resp_le.
    assert (0 < inject_Z k) by (change 0 with (inject_Z 0); now rewrite <- Zlt_Qlt).
    nra. }
  apply Qle_shift_div_l.
  - change 0 with (inject_Z 0). now rewrite <- Zlt_Qlt.
  - rewrite Qmult_0_l. change 0 with (inject_Z 0). now rewrite <- Zle_Qle.
Qed.


(** ** Cold-start neutrality of the signal engine *)

Lemma raw_no_data rp now asset :
  (length (default [] (rp !! asset)) < 3)%nat ->
  _getSignalRaw rp now asset = {| direction := 0; strength := 0; sigReason := "no-data" |}.
Proof.
  intros H. unfold _getSignalRaw.
  destruct (Nat.ltb_spec (length (default [] (rp !! asset))) 3) as [_ | Hge]; [reflexivity | lia].
Qed.

Lemma raw_warming_up rp now asset o rest :
  default [] (rp !! asset) = o :: rest ->
  secsBetween now (ts o) < 30 ->
  direction (_getSignalRaw rp now asset) = 0%Z /\ strength (_getSignalRaw rp now asset) = 0.
Proof.
  intros Hh Hage. unfold _getSignalRaw. rewrite Hh.
  destruct (Nat.ltb (length (o :: rest)) 3); [split; reflexivity |].
  apply Qltb_lt in Hage. rewrite Hage. split; reflexivity.
Qed.

Lemma signal_of_flat_raw msqrt rp now asset :
  direction (_getSignalRaw rp now asset) = 0%Z ->
  _getSignal msqrt rp now asset = {| direction := 0; strength := 0; sigReason := "flat" |}.
Proof. intros H. unfold _getSignal. now rewrite H. Qed.

(** C9. For every asset, when fewer than 3 observations are recorded or
    the oldest recorded observation is less than 30 seconds old, both the
    raw signal and the boosted signal have direction 0 and strength 0. *)
Theorem cold_start_neutrality msqrt rp now asset :
  (length (default [] (rp !! asset)) < 3)%nat
  \/ (exists o rest, default [] (rp !! asset) = o :: rest /\ secsBetween now (ts o) < 30) ->
  direction (_getSignalRaw rp now asset) = 0%Z
  /\ strength (_getSignalRaw rp now asset) = 0
  /\ direction (_getSignal msqrt rp now asset) = 0%Z
  /\ strength (_getSignal msqrt rp now asset) = 0.
Proof.
  intros H.
  assert (direction (_getSignalRaw rp now asset) = 0%Z
          /\ strength (_getSignalRaw rp now asset) = 0) as [Hd Hs].
  { destruct H as [Hlen | (o & rest & Hh & Hage)].
    - rewrite (raw_no_data _ _ _ Hlen). split; reflexivity.
    - eapply raw_warming_up; eassumption. }
  rewrite (signal_of_flat_raw msqrt _ _ _ Hd). repeat split; assumption.
Qed.

Lemma cold_start_neutrality_witness :
  (direction (_getSignal approxSqrt twoSamples 600000 "BTC") = 0%Z
   /\ strength (_getSignal approxSqrt twoSamples 600000 "BTC") = 0)
  /\ (direction (_getSignal approxSqrt youngSamples 21000 "BTC") = 0%Z
      /\ strength (_getSignal approxSqrt youngSamples 21000 "BTC") = 0).
Proof.
  split.
  - apply (cold_start_neutrality approxSqrt twoSamples 600000 "BTC").
    left. vm_compute. lia.
  - apply (cold_start_neutrality approxSqrt youngSamples 21000 "BTC").
    right. exists (obsAt 67000 1000), [obsAt 67100 6000; obsAt 67200 11000;
                                       obsAt 67300 16000; obsAt 67400 21000].
    split; [reflexivity | vm_compute; reflexivity].
Defined.

(** ** Win/loss counters and the probe record at a close *)








(** ** The hold gate of the long timeframes *)

Lemma markPrice_fields cp pos :
  Position.entryPrice (markPrice cp pos) = Position.entryPrice pos
  /\ Position.size (markPrice cp pos) = Position.size pos
  /\ Position.endDate (markPrice cp pos) = Position.endDate pos
  /\ Position.timeframe (markPrice cp pos) = Position.timeframe pos
  /\ Position.asset (markPrice cp pos) = Position.asset pos
  /\ Position.costBasis (markPrice cp pos) = Position.costBasis pos
  /\ Position.tokenId (markPrice cp pos) = Position.tokenId pos
  /\ Position.patternKey (markPrice cp pos) = Position.patternKey pos.
Proof.
  unfold markPrice.
  destruct (negb (truthy (Position.peakGain (pos_set_currentPrice cp pos)))
            || Qgtb _ _); repeat split; reflexivity.
Qed.

Lemma salvage_needs_last_hour sN minsLeft cp :
  60 <= minsLeft -> salvageTrigger sN minsLeft cp = None.
Proof.
  intros H. unfold salvageTrigger.
  assert (Qltb minsLeft 60 = false) as -> by (apply Qltb_ge; lra).
  assert (Qltb minsLeft 30 = false) as -> by (apply Qltb_ge; lra).
  assert (Qltb minsLeft 15 = false) as -> by (apply Qltb_ge; lra).
  now rewrite !andb_false_r.
Qed.

(** C7. A position on a long timeframe (1h, 4h, 1d) with a negative
    unrealized P&L, at least the forced-exit window away from expiry, and
    with none of the three salvage triggers firing, is held: the position
    manager selects no exit rule and leaves the position with its updated
    price and P&L. *)
Theorem long_tf_loss_is_held env now i cp pos tf :
  Position.timeframe pos = Some tf ->
  isLongTF tf = true ->
  (cp - Position.entryPrice pos) * Position.size pos < 0 ->
  default 30 (FORCE_EXIT_BY_TF tf) <= secsToEndOf (Position.endDate pos) now ->
  salvageTrigger
    (sigmasNeeded env (Position.asset pos) (secsToEndOf (Position.endDate pos) now)
       (priceSupport env (markPrice cp pos)))
    (secsToEndOf (Position.endDate pos) now / 60) cp = None ->
  evalPosition env now i cp pos
  = (pos_set_currentPrice cp
       (pos_set_unrealizedPnl ((cp - Position.entryPrice pos) * Position.size pos)
          (markPrice cp pos)),
     None).
Proof.
  intros Htf Hlong Hloss Hfar Hsalv.
  destruct (markPrice_fields cp pos) as (He & Hs & Hd & Ht & Ha & _).
  unfold evalPosition. cbn zeta.
  rewrite He, Hs, Hd, Ht, Ha, Htf. change (default TF5m (Some tf)) with tf.
  set (secs := secsToEndOf (Position.endDate pos) now) in *.
  set (u := (cp - Position.entryPrice pos) * Position.size pos) in *.
  assert (0 < default 30 (FORCE_EXIT_BY_TF tf)) as Hpos
    by (destruct tf; try discriminate; reflexivity).
  assert (Qleb secs 0 = false) as -> by (apply Qleb_gt; lra).
  rewrite andb_false_r.
  assert (Timeframe_eqb tf TF5m = false) as -> by (destruct tf; try discriminate; reflexivity).
  cbn [andb].
  assert (Qltb secs (default 30 (FORCE_EXIT_BY_TF tf)) = false) as ->
    by (apply Qltb_ge; exact Hfar).
  cbn [andb]. rewrite Hlong. cbn [andb].
  rewrite Hsalv.
  assert (Qleb u 0 = true) as -> by (apply Qleb_le; lra).
  assert (Qgtb u 0 = false) as -> by (apply Qltb_ge; lra).
  rewrite andb_false_r. cbn [andb].
  destruct (Qgtb (sigmasNeeded env (Position.asset pos) secs
                    (priceSupport env (markPrice cp pos))) 0);
    cbn [andb]; [destruct (Qltb cp 0.03) |]; reflexivity.
Qed.

(** The scenario of the specification: $1 at 0.50 on the daily market, the
    token at 0.35 (P&L -0.30), ten hours to go. *)
Lemma long_tf_loss_is_held_witness :
  snd (evalPosition (envWith against) 50400000 0 0.35 dailyPos) = None.
Proof.
  rewrite (long_tf_loss_is_held (envWith against) 50400000 0 0.35 dailyPos TF1d).
  - reflexivity.
  - reflexivity.
  - reflexivity.
  - vm_compute. reflexivity.
  - vm_compute. discriminate.
  - apply salvage_needs_last_hour. vm_compute. discriminate.
Defined.

(** ** Unmatched buy orders *)

Lemma simulateEntry_unmatched tokenId betSize midPrice s oc oid px :
  liveClient s = Some oc ->
  (forall ask, buyShares oc tokenId betSize ask = OrderPlaced oid px) ->
  verifyOrder oc oid = false ->
  exists s',
    _simulateEntry tokenId betSize midPrice s = (None, s')
    /\ positions s' = positions s
    /\ bankroll s' = bankroll s
    /\ failures (_executionStats s') = S (failures (_executionStats s))
    /\ head (clientCalls s') = Some (CallCancel oid).
Proof.
  intros Hlive Hbuy Hver. unfold _simulateEntry. rewrite Hlive, Hbuy, Hver.
  eexists. split; [reflexivity |]. repeat split.
Qed.

(** The auto-entry path adds nothing to the count of [_simulateEntry]. *)
Lemma autoEntry_failed_entry_keeps_stats tokenId betSize midPrice s s1 :
  _simulateEntry tokenId betSize midPrice s = (None, s1) ->
  positions s1 = positions s /\ bankroll s1 = bankroll s.
Proof.
  unfold _simulateEntry. intros H.
  destruct (liveClient s) as [oc |].
  - destruct (buyShares oc tokenId betSize _) as [oid px |].
    + destruct (negb (verifyOrder oc oid)); inversion H; subst; split; reflexivity.
    + inversion H; subst; split; reflexivity.
  - destruct (match _orderbooks s !! tokenId with
              | Some b => Qeq_bool (askDepth b) 0 && asksEmpty b
              | None => false
              end); inversion H; subst; split; reflexivity.
Qed.

(** C6 (evaluation at the failing input). Live trading, the scanner has
    picked DOWN on the daily market, the buy is placed and the
    verification answers unmatched: the order is cancelled, no position is
    created and the bankroll is unchanged, but the failure counter goes
    from 0 to 2, once in [_simulateEntry] and once more in the scanner.
    The same failure through the auto-entry path counts once. *)
Theorem unmatched_scan_entry_counts_twice :
  let s := stateWith [] 5 0 [] (Some unmatchedClient) in
  let scanned := scanMarket (offering bearCandidate) t0 ∅ btcDaily s in
  let auto := _autoEntryDaily (offering bearCandidate) t0 s in
  fst scanned = Continue
  /\ positions (snd scanned) = []
  /\ bankroll (snd scanned) = bankroll s
  /\ head (clientCalls (snd scanned)) = Some (CallCancel "order-1")
  /\ failures (_executionStats s) = 0%nat
  /\ failures (_executionStats (snd scanned)) = 2%nat
  /\ fst auto = 0%nat
  /\ positions (snd auto) = []
  /\ failures (_executionStats (snd auto)) = 1%nat.
Proof. vm_compute. repeat split; reflexivity. Qed.

(** ** The daily loss limit and the model-health pause *)

(** The entry scanner is suppressed by either breaker. *)
Lemma scanEntries_suppressed env now prices s :
  _dailyPnl s <= - DAILY_LOSS_LIMIT \/ _checkModelHealth s = false ->
  _scanEntries env now prices s = (0%nat, s).
Proof.
  intros H. unfold _scanEntries.
  destruct (Nat.leb MAX_POSITIONS (length (positions s))); [reflexivity |].
  destruct (Qltb (bankroll s) PROBE_SIZE); [reflexivity |].
  destruct H as [H | H].
  - apply Qleb_le in H. now rewrite H.
  - rewrite H. now destruct (Qleb (_dailyPnl s) (- DAILY_LOSS_LIMIT)).
Qed.

(** Exits do not look at either breaker: [_managePositions] reads neither
    the daily P&L nor the history.  Two states that agree on the positions,
    the order books and the order client close the same positions. *)
Lemma simulateExit_same_trading tok pos midp forced now a b :
  sameTrading a b ->
  fst (_simulateExit tok pos midp forced now a) = fst (_simulateExit tok pos midp forced now b)
  /\ sameTrading (snd (_simulateExit tok pos midp forced now a))
                 (snd (_simulateExit tok pos midp forced now b)).
Proof.
  intros (Hp & Hb & Hc & Hl). unfold sameTrading, _simulateExit, liveClient.
  rewrite Hb, Hc, Hl.
  destruct (_liveTading b) eqn:El, (_orderClient b) as [oc |] eqn:Ec;
    try destruct (ready oc);
    try (destruct (match _orderbooks b !! tok with
                   | Some b0 => Qeq_bool (bidDepth b0) 0 && bidsEmpty b0 && negb forced
                   | None => false
                   end); cbn; repeat split; congruence).
  destruct (Qltb (floorCents (Position.size pos)) 1); [cbn; repeat split; congruence |].
  destruct (sellShares oc tok _ _ _) as [oid px |]; [destruct (negb (verifyOrder oc oid)) |];
    cbn; repeat split; congruence.
Qed.

Lemma settle_same_trading now pos r px slip a b :
  sameTrading a b -> sameTrading (settle now pos r px slip a) (settle now pos r px slip b).
Proof.
  intros (Hp & Hb & Hc & Hl). unfold sameTrading, settle. cbn zeta.
  destruct (Qgtb _ 0.05); [| destruct (Qltb _ (-0.05))];
    destruct (nonEmpty (Position.patternKey pos)); cbn; repeat split; assumption.
Qed.

Lemma closeOne_same_trading now c a b :
  sameTrading a b ->
  fst (closeOne now c a) = fst (closeOne now c b)
  /\ sameTrading (snd (closeOne now c a)) (snd (closeOne now c b)).
Proof.
  intros H. pose proof H as (Hp & Hb & Hc & Hl). unfold closeOne. rewrite Hp.
  destruct (positions b !! index c) as [pos |]; [| split; [reflexivity | exact H]].
  assert (sameTrading (set_positions (delete (index c) (positions b)) a)
                      (set_positions (delete (index c) (positions b)) b)) as H0
    by (repeat split; assumption).
  destruct (simulateExit_same_trading (Position.tokenId pos) pos (closePrice c)
              (isForcedReason (closeReason c)) now _ _ H0) as [Hf Hs].
  destruct (_simulateExit _ _ _ _ _ (set_positions _ a)) as [fa a1].
  destruct (_simulateExit _ _ _ _ _ (set_positions _ b)) as [fb b1].
  cbn [fst snd] in Hf, Hs. subst fb.
  destruct fa as [f |]; [| destruct (isForcedReason (closeReason c))]; cbn [fst snd].
  - split; [reflexivity | now apply settle_same_trading].
  - split; [reflexivity | now apply settle_same_trading].
  - split; [reflexivity |]. destruct Hs as (Hp1 & Hb1 & Hc1 & Hl1).
    cbn. rewrite Hp1. repeat split; assumption.
Qed.

Lemma managePositions_ignores_breakers env now prices s daily hist :
  let s' := set_history hist (set_dailyPnl daily s) in
  fst (_managePositions env now prices s') = fst (_managePositions env now prices s)
  /\ positions (snd (_managePositions env now prices s'))
     = positions (snd (_managePositions env now prices s)).
Proof.
  cbn zeta. unfold _managePositions. cbn [positions set_history set_dailyPnl].
  destruct (evalAll env now prices (positions s)) as [ps cs].
  assert (sameTrading (set_positions ps (set_history hist (set_dailyPnl daily s)))
                      (set_positions ps s)) as Hrel by (repeat split).
  revert Hrel. generalize (set_positions ps (set_history hist (set_dailyPnl daily s))).
  generalize (set_positions ps s). intros b a. revert a b.
  induction cs as [| c cs IH]; intros a b Hrel; cbn [closeLoop].
  - split; [reflexivity | apply Hrel].
  - destruct (closeOne_same_trading now c a b Hrel) as [Hf Hs].
    destruct (closeOne now c a) as [fa a1], (closeOne now c b) as [fb b1].
    cbn [fst snd] in Hf, Hs. subst fb. specialize (IH a1 b1 Hs).
    destruct (closeLoop now cs a1) as [na a2], (closeLoop now cs b1) as [nb b2].
    cbn [fst snd] in *. destruct IH as [IH1 IH2]. subst nb. split; [reflexivity | exact IH2].
Qed.

(** C5 (evaluation at the failing input). With the daily P&L at -7, past
    the limit of -6, or with thirty losing trades in the history, the entry
    scanner opens nothing, but the daily auto-entry still opens a position
    and spends the bankroll, and so does a manual trade. *)
Theorem auto_entry_ignores_circuit_breakers :
  let breached := stateWith [] 5 (-7) [] None in
  let unhealthy := stateWith [] 5 0 thirtyLosses None in
  let env := offering bearCandidate in
  _dailyPnl breached <= - DAILY_LOSS_LIMIT
  /\ _checkModelHealth unhealthy = false
  /\ _scanEntries env t0 ∅ breached = (0%nat, breached)
  /\ _scanEntries env t0 ∅ unhealthy = (0%nat, unhealthy)
  /\ fst (_autoEntryDaily env t0 breached) = 1%nat
  /\ length (positions (snd (_autoEntryDaily env t0 breached))) = 1%nat
  /\ bankroll (snd (_autoEntryDaily env t0 breached)) == 0.1
  /\ fst (_autoEntryDaily env t0 unhealthy) = 1%nat
  /\ length (positions (snd (_autoEntryDaily env t0 unhealthy))) = 1%nat
  /\ fst (manualTrade env t0 "BTC" "up" 1 breached) = ManualSuccess
  /\ length (positions (snd (manualTrade env t0 "BTC" "up" 1 breached))) = 1%nat.
Proof.
  cbn zeta.
  split; [vm_compute; discriminate |].
  split; [vm_compute; reflexivity |].
  split; [apply scanEntries_suppressed; left; vm_compute; discriminate |].
  split; [apply scanEntries_suppressed; right; vm_compute; reflexivity |].
  vm_compute. repeat split; reflexivity.
Qed.

(** ** The open set: one position per market, at most [MAX_POSITIONS] *)

Lemma simulateEntry_frame tokenId betSize midPrice s :
  let s1 := snd (_simulateEntry tokenId betSize midPrice s) in
  positions s1 = positions s /\ bankroll s1 = bankroll s /\ history s1 = history s
  /\ markets s1 = markets s /\ _dailyPnl s1 = _dailyPnl s
  /\ _orderbooks s1 = _orderbooks s /\ _entryLock s1 = _entryLock s
  /\ _lastEntryTime s1 = _lastEntryTime s.
Proof.
  cbn zeta. unfold _simulateEntry.
  destruct (liveClient s) as [oc |].
  - destruct (buyShares oc tokenId betSize _) as [oid px |];
      [destruct (negb (verifyOrder oc oid)) |]; repeat split.
  - destruct (match _orderbooks s !! tokenId with
              | Some b => Qeq_bool (askDepth b) 0 && asksEmpty b
              | None => false
              end); repeat split.
Qed.

Lemma single_position_ok (s : Scalper) p : positions s = [p] -> openSetOk s.
Proof. intros H. unfold openSetOk. rewrite H. split; [reflexivity | cbn; unfold MAX_POSITIONS; lia]. Qed.

Lemma room_means_empty (s : Scalper) :
  Nat.leb MAX_POSITIONS (length (positions s)) = false -> positions s = [].
Proof.
  intros H. apply Nat.leb_gt in H. unfold MAX_POSITIONS in H.
  destruct (positions s); [reflexivity | cbn in H; lia].
Qed.

(** The entry scanner keeps the open set within its bounds. *)
Lemma scanMarket_keeps_open_set env now prices m s :
  openSetOk s -> openSetOk (snd (scanMarket env now prices m s)).
Proof.
  intros Hok. unfold scanMarket.
  destruct (Nat.leb MAX_POSITIONS (length (positions s))) eqn:Hroom; [exact Hok |].
  pose proof (room_means_empty s Hroom) as Hnil.
  repeat match goal with
         | |- openSetOk (snd (if ?c then _ else _)) => destruct c; [exact Hok |]
         end.
  destruct (selectEntry env m prices) as [c |]; [| exact Hok].
  destruct (negb (nonEmpty (candToken c)) || Qltb (candPrice c) ENTRY_MIN); [exact Hok |].
  pose proof (simulateEntry_frame (candToken c)
                (scanBetSize (candConviction c) (candVolHigh c) (Market.timeframe m)
                   (bankroll s) (length (positions s)))
                (candPrice c) s) as Hfr.
  cbn zeta in Hfr. destruct (_simulateEntry _ _ _ s) as [[f |] s1]; cbn [snd] in *.
  - eapply single_position_ok. cbn. destruct Hfr as (-> & _). rewrite Hnil. reflexivity.
  - unfold openSetOk. cbn. destruct Hfr as (-> & _). exact Hok.
Qed.

Lemma scanLoop_keeps_open_set env now prices ms s :
  openSetOk s -> openSetOk (snd (scanLoop env now prices ms s)).
Proof.
  revert s. induction ms as [| m ms IH]; intros s Hok; cbn [scanLoop]; [exact Hok |].
  pose proof (scanMarket_keeps_open_set env now prices m s Hok) as H1.
  destruct (scanMarket env now prices m s) as [[| |] s1]; cbn [snd] in *.
  - exact H1.
  - now apply IH.
  - specialize (IH s1 H1). destruct (scanLoop env now prices ms s1). exact IH.
Qed.

Lemma scanEntries_keeps_open_set env now prices s :
  openSetOk s -> openSetOk (snd (_scanEntries env now prices s)).
Proof.
  intros Hok. unfold _scanEntries.
  repeat match goal with
         | |- openSetOk (snd (if ?c then _ else _)) => destruct c; [exact Hok |]
         end.
  now apply scanLoop_keeps_open_set.
Qed.

(** So does the daily auto-entry. *)
Lemma autoEntry_keeps_open_set env now s :
  openSetOk s -> openSetOk (snd (_autoEntryDaily env now s)).
Proof.
  intros Hok. unfold _autoEntryDaily.
  destruct (_entryLock s); [exact Hok |].
  assert (openSetOk (snd (_autoEntryDailyInner env now (set_entryLock true s)))) as H.
  { assert (openSetOk (set_entryLock true s)) as Hok' by exact Hok.
    generalize dependent (set_entryLock true s). clear s Hok. intros s Hok.
    unfold _autoEntryDailyInner.
    destruct (Qltb (bankroll s) 1); [exact Hok |].
    destruct (Nat.leb MAX_POSITIONS (length (positions s))) eqn:Hroom; [exact Hok |].
    pose proof (room_means_empty s Hroom) as Hnil.
    destruct (entryLocked now s); [exact Hok |].
    destruct (List.filter (autoCandidate now s) (markets s)) as [| c0 cs]; [exact Hok |].
    destruct (negb (truthy _) && negb (truthy _)); [exact Hok |].
    match goal with
    | |- openSetOk (snd (match ?ch with _ => _ end)) => destruct ch as [[[[sd tok] gp] rs] |]
    end; [| exact Hok].
    repeat match goal with
           | |- openSetOk (snd (if ?c then _ else _)) => destruct c; [exact Hok |]
           end.
    match goal with
    | |- context [_simulateEntry ?a ?b ?c s] =>
        pose proof (simulateEntry_frame a b c s) as Hfr;
        cbn zeta in Hfr; destruct (_simulateEntry a b c s) as [[f |] s1]
    end; cbn [snd] in *.
    - eapply single_position_ok. cbn. destruct Hfr as (-> & _). rewrite Hnil. reflexivity.
    - unfold openSetOk. destruct Hfr as (-> & _). exact Hok. }
  destruct (_autoEntryDailyInner env now (set_entryLock true s)) as [n s1]. exact H.
Qed.

(** C4 (evaluation at the failing input). With a BTC daily position open
    and the open set at its maximum of one, a manual trade on BTC succeeds:
    it adds a second position on the same (asset, timeframe), so the open
    set has two positions of one market and exceeds [MAX_POSITIONS]. *)
Theorem manual_trade_breaks_open_set :
  let s := stateWith [dailyPos] 5 0 [] None in
  let r := manualTrade (offering bearCandidate) t0 "BTC" "up" 1 s in
  openSetOk s
  /\ fst r = ManualSuccess
  /\ List.map (fun p => (Position.asset p, Position.timeframe p)) (positions (snd r))
     = [("BTC"%string, Some TF1d); ("BTC"%string, Some TF1d)]
  /\ distinctMarkets (positions (snd r)) = false
  /\ (MAX_POSITIONS < length (positions (snd r)))%nat
  /\ ~ openSetOk (snd r).
Proof.
  cbn zeta. split; [split; [reflexivity | cbn; unfold MAX_POSITIONS; lia] |].
  split; [vm_compute; reflexivity |].
  split; [vm_compute; reflexivity |].
  split; [vm_compute; reflexivity |].
  split; [vm_compute; lia |].
  intros [H _]. vm_compute in H. discriminate.
Qed.

(** ** The re-entrancy guard of the tick loops

    In the source the work of a tick can throw: the network calls of
    [tick], and in both ticks the TICK log line, whose [locked.toFixed(2)]
    is a TypeError when the sum of the cost bases is not a number (a
    manual trade stores the stake as the request carried it).  The amounts
    of this embedding are numbers, so the results below take the work of a
    tick as an arbitrary body that returns or throws. *)





(** A fast tick that finds no price to work with (no market has a cached
    price, no price history has an entry) returns early, after it has set
    the guard and without releasing it, whatever its body is. *)
Lemma fastTick_early_return_keeps_guard body today :
  fastTick body today noPricesYet = Returned (stateOf (fastTick body today noPricesYet))
  /\ _ticking (stateOf (fastTick body today noPricesYet)) = true.
Proof.
  unfold fastTick.
  change (negb (running noPricesYet) || Nat.eqb (length (markets noPricesYet)) 0) with false.
  change (_ticking noPricesYet) with false. cbv iota.
  set (s1 := _checkDailyReset today _).
  assert (Nat.eqb (size (fastPrices s1)) 0 = true /\ _ticking s1 = true) as [Hnone Hset].
  { subst s1. unfold _checkDailyReset.
    destruct (negb (String.eqb _ today)); split; vm_compute; reflexivity. }
  rewrite Hnone. split; [reflexivity | exact Hset].
Qed.


(** The second part at work, on a body that throws as soon as it is
    entered: the running engine with its daily market is left with the
    guard set. *)
Lemma fastTick_throwing_body_example :
  let after := fastTick (fun _ s => Thrown s) "2026-02-14" (stateWith [] 5 0 [] None) in
  after = Thrown (stateOf after) /\ _ticking (stateOf after) = true.
Proof. vm_compute. split; reflexivity. Qed.

(** ** Exit attempts that do not fill *)

Lemma simulateExit_frame tok pos midp forced now s :
  let s1 := snd (_simulateExit tok pos midp forced now s) in
  positions s1 = positions s /\ bankroll s1 = bankroll s /\ history s1 = history s
  /\ wins s1 = wins s /\ losses s1 = losses s /\ _probeResults s1 = _probeResults s
  /\ totalPnl s1 = totalPnl s /\ _dailyPnl s1 = _dailyPnl s.
Proof.
  cbn zeta. unfold _simulateExit.
  destruct (liveClient s) as [oc |].
  - destruct (Qltb (floorCents (Position.size pos)) 1); [repeat split |].
    destruct (sellShares oc tok _ _ _) as [oid px |];
      [destruct (negb (verifyOrder oc oid)) |]; repeat split.
  - destruct (match _orderbooks s !! tok with
              | Some b => Qeq_bool (bidDepth b) 0 && bidsEmpty b && negb forced
              | None => false
              end); repeat split.
Qed.

Lemma spliceIn_delete (l : list Position.t) i pos :
  l !! i = Some pos -> spliceIn i pos (delete i l) = l.
Proof.
  intros H. unfold spliceIn. rewrite delete_take_drop.
  pose proof (lookup_lt_Some _ _ _ H) as Hlt.
  assert (i = length (take i l)) as Hlen by (rewrite length_take; lia).
  rewrite take_app_length' by exact Hlen.
  rewrite drop_app_length' by exact Hlen.
  now apply take_drop_middle.
Qed.

(** An exit that is not forced and does not fill puts the position back
    where it was: the open set, the bankroll and the history are as
    before. *)
Lemma unforced_unfilled_exit_keeps_position now c s pos :
  positions s !! index c = Some pos ->
  isForcedReason (closeReason c) = false ->
  fst (_simulateExit (Position.tokenId pos) pos (closePrice c) false now
         (set_positions (delete (index c) (positions s)) s)) = None ->
  fst (closeOne now c s) = false
  /\ positions (snd (closeOne now c s)) = positions s
  /\ bankroll (snd (closeOne now c s)) = bankroll s
  /\ history (snd (closeOne now c s)) = history s.
Proof.
  intros Hpos Hforced Hnone. unfold closeOne. rewrite Hpos, Hforced.
  pose proof (simulateExit_frame (Position.tokenId pos) pos (closePrice c) false now
                (set_positions (delete (index c) (positions s)) s)) as Hfr.
  cbn zeta in Hfr.
  destruct (_simulateExit _ _ _ _ _ _) as [exitSim s1]. cbn [fst snd] in *. subst exitSim.
  destruct Hfr as (Hp & Hb & Hh & _). cbn [fst snd]. cbn.
  rewrite Hp, Hb, Hh. cbn. repeat split. now apply spliceIn_delete.
Qed.

(** C2 (evaluation at the failing input). Live trading, sells refused by
    the venue.  The daily position, 200 seconds before expiry with the
    token at 0.30, gets a LIQ-FORCE exit; a 15-minute position gets a STOP
    exit.  In both cases the sell does not fill (no fill is counted, one
    failure is), yet the position leaves the open set, enters the history
    as closed at 0.30 and the bankroll is credited as if it had been
    sold. *)
Theorem forced_exit_without_fill_removes_position :
  let env := envWith against in
  let s := stateWith [expiring] 4 0 [] (Some unmatchedClient) in
  let r := _managePositions env t0 upAt30 s in
  let s2 := stateWith [legacy15m] 4 0 [] (Some unmatchedClient) in
  let r2 := _managePositions env t0 upAt30 s2 in
  fst r = 1%nat
  /\ positions (snd r) = []
  /\ List.map reason (history (snd r)) = [LIQ_FORCE]
  /\ List.map exitPrice (history (snd r)) = [0.30]
  /\ fills (_executionStats (snd r)) = 0%nat
  /\ failures (_executionStats (snd r)) = 1%nat
  /\ bankroll (snd r) == 4.6
  /\ fst r2 = 1%nat
  /\ positions (snd r2) = []
  /\ List.map reason (history (snd r2)) = [STOP]
  /\ fills (_executionStats (snd r2)) = 0%nat
  /\ failures (_executionStats (snd r2)) = 1%nat
  /\ bankroll (snd r2) == 4.6.
Proof. vm_compute. repeat split; reflexivity. Qed.

(** ** Bankroll accounting *)

(** *** Rounding and the size of a bet *)

Lemma Math_round_mono x y : x <= y -> (Math_round x <= Math_round y)%Z.
Proof. intros H. unfold Math_round. apply Qfloor_resp_le. lra. Qed.

Lemma roundTo_mono k x y : (0 < k)%Z -> x <= y -> roundTo k x <= roundTo k y.
Proof.
  intros Hk H. unfold roundTo.
  assert (0 < inject_Z k) as Hk' by (change 0 with (inject_Z 0); now rewrite <- Zlt_Qlt).
  apply Qmult_le_compat_r.
  - rewrite <- Zle_Qle. apply Math_round_mono. nra.
  - apply Qlt_le_weak. now apply Qinv_lt_0_compat.
Qed.

Lemma roundTo_100_one : roundTo 100 1 == 1.
Proof. reflexivity. Qed.

Lemma roundTo_10000_lower x : x - 0.00005 < roundTo 10000 x.
Proof.
  unfold roundTo. pose proof (Math_round_lower (x * inject_Z 10000)) as H.
  change (inject_Z 10000) with 10000 in *.
  set (r := inject_Z (Math_round (x * 10000))) in *.
  unfold Qdiv. change (/ 10000) with 0.0001. lra.
Qed.

Lemma Qmax_cases x y : (y <= x /\ Qmax x y == x) \/ (x <= y /\ Qmax x y == y).
Proof.
  destruct (Qlt_le_dec x y) as [H | H].
  - right. split; [lra | apply Q.max_r; lra].
  - left. split; [lra | now apply Q.max_l].
Qed.

Lemma Qmin_cases x y : (x <= y /\ Qmin x y == x) \/ (y <= x /\ Qmin x y == y).
Proof.
  destruct (Qlt_le_dec y x) as [H | H].
  - right. split; [lra | apply Q.min_r; lra].
  - left. split; [lra | now apply Q.min_l].
Qed.

Lemma Qmax_zero_diff b bet : bet <= b -> Qmax 0 (b - bet) == b - bet.
Proof. intros H. apply Q.max_r. lra. Qed.

(** The scanner never bets more than the bankroll it checked. *)
Lemma scanBetSize_bounds conv volHigh tf bank nOpen :
  1 <= bank ->
  0 < scanBetSize conv volHigh tf bank nOpen /\ scanBetSize conv volHigh tf bank nOpen <= bank.
Proof.
  intros Hb. unfold scanBetSize.
  destruct (_calculateBetSize conv bank) as [rawBet tier].
  set (b1 := if volHigh && negb (String.eqb tier "PROBE")
             then Qmax PROBE_SIZE (rawBet * 0.5) else rawBet).
  set (maxPerSlot := if Nat.ltb 1 (Nat.max 1 (MAX_POSITIONS - nOpen))
                     then Qmax PROBE_SIZE (bank / Qnat (Nat.max 1 (MAX_POSITIONS - nOpen)))
                     else bank * 0.98).
  set (cap := if Timeframe_eqb tf TF5m then MAX_5M_BET else MAX_SINGLE_BET).
  set (b3 := Qmin (Qmin (Qmin b1 maxPerSlot) (bank * 0.98)) cap).
  assert (b3 <= bank * 0.98) as H3.
  { unfold b3. pose proof (Q.le_min_l (Qmin (Qmin b1 maxPerSlot) (bank * 0.98)) cap).
    pose proof (Q.le_min_r (Qmin b1 maxPerSlot) (bank * 0.98)). lra. }
  unfold PROBE_SIZE. split.
  - pose proof (roundTo_100_lower (Qmax 1 b3)). pose proof (Q.le_max_l 1 b3). lra.
  - destruct (Qmax_cases 1 b3) as [[Hle He] | [Hle He]].
    + apply Qle_trans with (roundTo 100 1).
      * apply roundTo_mono; [lia | lra].
      * rewrite roundTo_100_one. exact Hb.
    + pose proof (roundTo_100_upper (Qmax 1 b3)). lra.
Qed.

(** Neither does the daily auto-entry. *)
Lemma autoBet_bounds bank :
  1 <= bank ->
  Qmin (roundTo 100 (Qmin (bank * 0.98) (bank - 0.01))) MAX_SINGLE_BET <= bank.
Proof.
  intros Hb.
  pose proof (Q.le_min_l (roundTo 100 (Qmin (bank * 0.98) (bank - 0.01))) MAX_SINGLE_BET).
  pose proof (roundTo_100_upper (Qmin (bank * 0.98) (bank - 0.01))).
  pose proof (Q.le_min_l (bank * 0.98) (bank - 0.01)). lra.
Qed.

(** *** Entries *)

Lemma liveClient_is_client s oc : liveClient s = Some oc -> _orderClient s = Some oc.
Proof.
  unfold liveClient. destruct (_liveTading s); [| discriminate].
  destruct (_orderClient s) as [c |]; [| discriminate].
  destruct (ready c); [| discriminate]. now intros [= ->].
Qed.

Lemma simulateEntry_same_world tokenId betSize midPrice s :
  sameWorld s (snd (_simulateEntry tokenId betSize midPrice s)).
Proof.
  unfold sameWorld, _simulateEntry.
  destruct (liveClient s) as [oc |].
  - destruct (buyShares oc tokenId betSize _) as [oid px |];
      [destruct (negb (verifyOrder oc oid)) |]; repeat split.
  - destruct (match _orderbooks s !! tokenId with
              | Some b => Qeq_bool (askDepth b) 0 && asksEmpty b
              | None => false
              end); repeat split.
Qed.

(** A fill of a buy at a quoted price of at least one tick has a positive
    execution price. *)
Lemma simulateEntry_price tokenId betSize midPrice s f s1 :
  worldOk s -> 0.001 <= midPrice ->
  _simulateEntry tokenId betSize midPrice s = (Some f, s1) ->
  0 < execPrice f.
Proof.
  intros (Hbooks & _ & Hclient) Hmid. unfold _simulateEntry.
  destruct (liveClient s) as [oc |] eqn:Hlive.
  - destruct (buyShares oc tokenId betSize _) as [oid px |] eqn:Hbuy; [| discriminate].
    destruct (negb (verifyOrder oc oid)); [discriminate |].
    intros [= <- _]. cbn.
    apply liveClient_is_client in Hlive. destruct (Hclient oc Hlive) as [Hb _].
    eapply Hb. exact Hbuy.
  - assert (0 <= match _orderbooks s !! tokenId with
                 | Some b => spread b | None => 0.01 end) as Hsp.
    { destruct (_orderbooks s !! tokenId) as [b |] eqn:E; [apply (Hbooks _ _ E) | lra]. }
    destruct (match _orderbooks s !! tokenId with
              | Some b => Qeq_bool (askDepth b) 0 && asksEmpty b
              | None => false
              end); [discriminate |].
    intros [= <- _]. cbn [execPrice].
    set (sp := match _orderbooks s !! tokenId with Some b => spread b | None => 0.01 end) in *.
    match goal with |- 0 < roundTo 10000 ?x =>
      assert (0.001 <= x) as Hx; [| pose proof (roundTo_10000_lower x); lra]
    end.
    unfold SPREAD_COST_ENTRY, SIZE_IMPACT_THRESHOLD, SIZE_IMPACT_FACTOR.
    destruct (Qgtb betSize 100 && Qgtb _ 0) eqn:E; [| lra].
    apply andb_true_iff in E. destruct E as [E _]. apply Qltb_lt in E. nra.
Qed.

Lemma sameWorld_refl s : sameWorld s s.
Proof. repeat split. Qed.

Lemma untouched_refl s : untouched s s.
Proof. repeat split. Qed.

Lemma simulateEntry_untouched tokenId betSize midPrice s :
  untouched s (snd (_simulateEntry tokenId betSize midPrice s)).
Proof.
  pose proof (simulateEntry_frame tokenId betSize midPrice s) as (Hp & Hb & Hh & _).
  pose proof (simulateEntry_same_world tokenId betSize midPrice s).
  repeat split; try assumption; apply H.
Qed.

Lemma bought_is_well_formed bet e : 0 < bet -> 0 < e -> bet / e * e == bet.
Proof. intros Hb He. field. lra. Qed.

(** One iteration of the scanner either leaves the accounts alone or
    opens one position and deducts exactly its cost. *)
Lemma scanMarket_spec env now prices m s :
  match fst (scanMarket env now prices m s) with
  | Opened => openedOne s (snd (scanMarket env now prices m s))
  | _ => untouched s (snd (scanMarket env now prices m s))
  end.
Proof.
  unfold scanMarket.
  destruct (Nat.leb MAX_POSITIONS (length (positions s))); [apply untouched_refl |].
  destruct (Qltb (bankroll s) PROBE_SIZE) eqn:Hbank; [apply untouched_refl |].
  apply Qltb_ge in Hbank. unfold PROBE_SIZE in Hbank.
  repeat match goal with
         | |- match fst (if ?c then (Continue, s) else _) with _ => _ end =>
             destruct c; [apply untouched_refl |]
         end.
  destruct (selectEntry env m prices) as [c |]; [| apply untouched_refl].
  destruct (negb (nonEmpty (candToken c)) || Qltb (candPrice c) ENTRY_MIN) eqn:Hc;
    [apply untouched_refl |].
  apply orb_false_iff in Hc. destruct Hc as [_ Hprice].
  apply Qltb_ge in Hprice. unfold ENTRY_MIN in Hprice.
  set (bet := scanBetSize (candConviction c) (candVolHigh c) (Market.timeframe m)
                (bankroll s) (length (positions s))).
  destruct (scanBetSize_bounds (candConviction c) (candVolHigh c) (Market.timeframe m)
              (bankroll s) (length (positions s)) Hbank) as [Hpos Hle].
  fold bet in Hpos, Hle.
  pose proof (simulateEntry_untouched (candToken c) bet (candPrice c) s) as Hun.
  destruct (_simulateEntry (candToken c) bet (candPrice c) s) as [[f |] s1] eqn:Hsim;
    cbn [fst snd] in *.
  - destruct Hun as (Hp & Hb & Hh & Hw).
    eexists. cbn. rewrite Hp, Hb, Hh.
    split; [reflexivity |]. split; [now apply Qmax_zero_diff |].
    split; [apply Q.le_max_l |]. split; [reflexivity |]. split; [exact Hw |].
    intros Hok. unfold wellFormed. cbn.
    assert (0 < execPrice f) as He
      by (eapply simulateEntry_price; [exact Hok | | exact Hsim]; lra).
    split; [exact Hpos |]. split; [exact He |]. now apply bought_is_well_formed.
  - destruct Hun as (Hp & Hb & Hh & Hw). repeat split; try assumption; apply Hw.
Qed.

Lemma sameWorld_trans a b c : sameWorld a b -> sameWorld b c -> sameWorld a c.
Proof. unfold sameWorld. intros (? & ? & ? & ?) (? & ? & ? & ?). repeat split; congruence. Qed.

Lemma worldOk_same s s' : sameWorld s s' -> worldOk s -> worldOk s'.
Proof.
  unfold sameWorld, worldOk. intros (Hb & Hm & Hc & _) (H1 & H2 & H3).
  rewrite Hb, Hm, Hc. auto.
Qed.

Lemma untouched_openedSome s s' : untouched s s' -> openedSome s s'.
Proof.
  intros (Hp & Hb & Hh & Hw). exists []. rewrite Hp, Hb, Hh, app_nil_r.
  unfold Qsum. cbn [List.map fold_right].
  split; [reflexivity |]. split; [ring |]. split; [auto |]. split; [reflexivity |].
  split; [exact Hw |]. intros _. constructor.
Qed.

Lemma openedOne_openedSome s s' : openedOne s s' -> openedSome s s'.
Proof.
  intros (pos & Hp & Hb & Hnn & Hh & Hw & Hwf). exists [pos].
  unfold Qsum. cbn [List.map fold_right].
  split; [exact Hp |]. split; [rewrite Hb; ring |]. split; [intros _; exact Hnn |].
  split; [exact Hh |]. split; [exact Hw |]. intros Hok. constructor; [auto | constructor].
Qed.

Lemma Qsum_app l1 l2 : Qsum (l1 ++ l2) == Qsum l1 + Qsum l2.
Proof.
  unfold Qsum. induction l1 as [| x l1 IH]; cbn [app fold_right]; [ring | rewrite IH; ring].
Qed.

Lemma openedSome_trans a b c : openedSome a b -> openedSome b c -> openedSome a c.
Proof.
  intros (n1 & Hp1 & Hb1 & Hn1 & Hh1 & Hw1 & Hf1) (n2 & Hp2 & Hb2 & Hn2 & Hh2 & Hw2 & Hf2).
  exists (n1 ++ n2). rewrite Hp2, Hp1, <- app_assoc, Hh2, Hh1.
  split; [reflexivity |].
  split; [rewrite Hb2, Hb1, map_app, Qsum_app; ring |].
  split; [auto |]. split; [reflexivity |].
  split; [eapply sameWorld_trans; eassumption |].
  intros Hok. apply Forall_app. split; [auto |]. apply Hf2. eapply worldOk_same; eassumption.
Qed.

Lemma scanMarket_openedSome env now prices m s :
  openedSome s (snd (scanMarket env now prices m s)).
Proof.
  pose proof (scanMarket_spec env now prices m s) as H.
  destruct (fst (scanMarket env now prices m s));
    [apply untouched_openedSome | apply untouched_openedSome | apply openedOne_openedSome];
    exact H.
Qed.

Lemma scanLoop_openedSome env now prices ms s :
  openedSome s (snd (scanLoop env now prices ms s)).
Proof.
  revert s. induction ms as [| m ms IH]; intros s; cbn [scanLoop].
  - apply untouched_openedSome, untouched_refl.
  - pose proof (scanMarket_openedSome env now prices m s) as H1.
    destruct (scanMarket env now prices m s) as [[| |] s1]; cbn [snd] in *.
    + exact H1.
    + eapply openedSome_trans; [exact H1 | apply IH].
    + specialize (IH s1). destruct (scanLoop env now prices ms s1) as [n s2].
      eapply openedSome_trans; [exact H1 | exact IH].
Qed.

Lemma scanEntries_openedSome env now prices s :
  openedSome s (snd (_scanEntries env now prices s)).
Proof.
  unfold _scanEntries.
  repeat match goal with
         | |- openedSome s (snd (if ?c then _ else _)) =>
             destruct c; [apply untouched_openedSome, untouched_refl |]
         end.
  apply scanLoop_openedSome.
Qed.

(** The daily auto-entry: nothing, or one position opened and paid for. *)
Lemma autoEntryInner_spec env now s :
  match fst (_autoEntryDailyInner env now s) with
  | O => untouched s (snd (_autoEntryDailyInner env now s))
  | S _ => openedOne s (snd (_autoEntryDailyInner env now s))
  end.
Proof.
  unfold _autoEntryDailyInner.
  destruct (Qltb (bankroll s) 1) eqn:Hbank; [apply untouched_refl |].
  apply Qltb_ge in Hbank.
  destruct (Nat.leb MAX_POSITIONS (length (positions s))); [apply untouched_refl |].
  destruct (entryLocked now s); [apply untouched_refl |].
  destruct (List.filter (autoCandidate now s) (markets s)) as [| c0 cs];
    [apply untouched_refl |].
  destruct (negb (truthy _) && negb (truthy _)); [apply untouched_refl |].
  match goal with
  | |- match fst (match ?ch with _ => _ end) with _ => _ end =>
      destruct ch as [[[[sd tok] gp] rs] |]
  end; [| apply untouched_refl].
  destruct (negb (nonEmpty tok) || negb (truthy gp)); [apply untouched_refl |].
  destruct (Qleb (midOr s tok gp) 0 || Qgeb (midOr s tok gp) 0.85); [apply untouched_refl |].
  destruct (Qltb (midOr s tok gp) 0.05) eqn:Hlow; [apply untouched_refl |].
  apply Qltb_ge in Hlow.
  set (bet := Qmin (roundTo 100 (Qmin (bankroll s * 0.98) (bankroll s - 0.01))) MAX_SINGLE_BET).
  destruct (Qltb bet 1) eqn:Hone; [apply untouched_refl |].
  apply Qltb_ge in Hone.
  pose proof (autoBet_bounds (bankroll s) Hbank) as Hle. fold bet in Hle.
  pose proof (simulateEntry_untouched tok bet (midOr s tok gp) s) as Hun.
  destruct (_simulateEntry tok bet (midOr s tok gp) s) as [[f |] s1] eqn:Hsim;
    cbn [fst snd] in *.
  - destruct Hun as (Hp & Hb & Hh & Hw).
    eexists. cbn. rewrite Hp, Hb, Hh.
    split; [reflexivity |]. split; [now apply Qmax_zero_diff |].
    split; [apply Q.le_max_l |]. split; [reflexivity |]. split; [exact Hw |].
    intros Hok. unfold wellFormed. cbn.
    assert (0 < execPrice f) as He
      by (eapply simulateEntry_price; [exact Hok | | exact Hsim]; lra).
    split; [lra |]. split; [exact He |]. apply bought_is_well_formed; lra.
  - exact Hun.
Qed.

Lemma autoEntry_openedSome env now s :
  openedSome s (snd (_autoEntryDaily env now s)).
Proof.
  unfold _autoEntryDaily.
  destruct (_entryLock s); [apply untouched_openedSome, untouched_refl |].
  pose proof (autoEntryInner_spec env now (set_entryLock true s)) as H.
  destruct (_autoEntryDailyInner env now (set_entryLock true s)) as [n s1].
  cbn [fst snd] in *.
  destruct n.
  - apply untouched_openedSome. destruct H as (Hp & Hb & Hh & Hw). repeat split; try assumption; apply Hw.
  - apply openedOne_openedSome. destruct H as (pos & Hp & Hb & Hnn & Hh & Hw & Hwf).
    exists pos. split; [exact Hp |]. split; [exact Hb |]. split; [exact Hnn |].
    split; [exact Hh |]. split; [exact Hw |]. exact Hwf.
Qed.

(** *** Manual trades *)

Lemma findMarket_In asset tfs ms m : findMarket asset tfs ms = Some m -> In m ms.
Proof.
  induction tfs as [| tf tfs IH]; cbn [findMarket]; [discriminate |].
  destruct (List.find _ ms) as [m0 |] eqn:E.
  - intros [= <-]. apply find_some in E. apply E.
  - exact IH.
Qed.

Lemma midOr_tick s tok gp :
  worldOk s -> tickOk gp -> 0 < midOr s tok gp -> 0.001 <= midOr s tok gp.
Proof.
  intros (Hbooks & _) Hgp. unfold midOr.
  destruct (_orderbooks s !! tok) as [b |] eqn:E.
  - destruct (Hbooks _ _ E) as [_ Hm].
    destruct (Qgtb (mid b) 0); intros Hpos; [destruct Hm | destruct Hgp]; lra.
  - intros Hpos. destruct Hgp; lra.
Qed.

(** A manual trade whose stake exceeds the bankroll is rejected: the state
    is returned as it was. *)
Lemma manualTrade_rejects_overdraft env now asset sideArg betSize s :
  bankroll s < betSize ->
  exists msg, manualTrade env now asset sideArg betSize s = (ManualError msg, s).
Proof.
  intros H. unfold manualTrade.
  destruct (parseSide sideArg); [| eauto].
  destruct (Qltb betSize 1); [eauto |].
  apply Qltb_lt in H. unfold Qgtb. rewrite H. eauto.
Qed.

Lemma manualTrade_spec env now asset sideArg betSize s :
  match fst (manualTrade env now asset sideArg betSize s) with
  | ManualSuccess => openedOne s (snd (manualTrade env now asset sideArg betSize s))
  | ManualError _ => untouched s (snd (manualTrade env now asset sideArg betSize s))
  end.
Proof.
  unfold manualTrade.
  destruct (parseSide sideArg) as [sd |]; [| apply untouched_refl].
  destruct (Qltb betSize 1) eqn:Hone; [apply untouched_refl |].
  apply Qltb_ge in Hone.
  destruct (Qgtb betSize (bankroll s)) eqn:Hle; [apply untouched_refl |].
  apply Qltb_ge in Hle.
  destruct (findMarket asset tfPriority (markets s)) as [m |] eqn:Hm; [| apply untouched_refl].
  apply findMarket_In in Hm.
  destruct (negb (nonEmpty (tokenOf sd m))); [apply untouched_refl |].
  set (mp := midOr s (tokenOf sd m) (gammaOf sd m)).
  destruct (negb (truthy mp) || Qleb mp 0 || Qgeb mp 1) eqn:Hprice; [apply untouched_refl |].
  apply orb_false_iff in Hprice. destruct Hprice as [Hprice _].
  apply orb_false_iff in Hprice. destruct Hprice as [_ Hprice]. apply Qleb_gt in Hprice.
  pose proof (simulateEntry_untouched (tokenOf sd m) betSize mp s) as Hun.
  destruct (_simulateEntry (tokenOf sd m) betSize mp s) as [[f |] s1] eqn:Hsim;
    cbn [fst snd] in *.
  - destruct Hun as (Hp & Hb & Hh & Hw).
    eexists. cbn. rewrite Hp, Hb, Hh.
    split; [reflexivity |]. split; [now apply Qmax_zero_diff |].
    split; [apply Q.le_max_l |]. split; [reflexivity |]. split; [exact Hw |].
    intros Hok. unfold wellFormed. cbn.
    assert (0.001 <= mp) as Htick.
    { apply midOr_tick; [exact Hok | | exact Hprice].
      destruct Hok as (_ & Hmk & _). destruct (Hmk m Hm) as [Hu Hd].
      destruct sd; assumption. }
    assert (0 < execPrice f) as He
      by (eapply simulateEntry_price; [exact Hok | exact Htick | exact Hsim]).
    split; [lra |]. split; [exact He |]. apply bought_is_well_formed; lra.
  - exact Hun.
Qed.

Lemma manualTrade_openedSome env now asset sideArg betSize s :
  openedSome s (snd (manualTrade env now asset sideArg betSize s)).
Proof.
  pose proof (manualTrade_spec env now asset sideArg betSize s) as H.
  destruct (fst (manualTrade env now asset sideArg betSize s));
    [apply untouched_openedSome | apply openedOne_openedSome]; exact H.
Qed.

(** *** Closes *)

Lemma markPrice_sameDeal cp pos : sameDeal (markPrice cp pos) pos.
Proof.
  destruct (markPrice_fields cp pos) as (He & Hs & Hd & Ht & Ha & Hc & Htok & Hk).
  repeat split; assumption.
Qed.

Lemma wellFormed_sameDeal p q : sameDeal p q -> wellFormed q -> wellFormed p.
Proof.
  intros (Hc & He & Hs & _) (H1 & H2 & H3). unfold wellFormed. rewrite Hc, He, Hs. auto.
Qed.

Ltac eval_leaf Hsd :=
  split; [ destruct Hsd as (? & ? & ? & ? & ? & ? & ?); repeat split; cbn; assumption
         | cbn; auto ].

Lemma evalPosition_outcome env now i cp pos :
  evalOutcomeOk i cp pos (evalPosition env now i cp pos).
Proof.
  unfold evalPosition. cbv zeta.
  pose proof (markPrice_sameDeal cp pos) as Hsd.
  generalize dependent (markPrice cp pos). intros p0 Hsd.
  repeat first
    [ match goal with
      | |- evalOutcomeOk _ _ _ (if ?c then _ else _) => destruct c
      | |- evalOutcomeOk _ _ _ (match ?x with Some _ => _ | None => _ end) => destruct x
      end
    | progress cbv beta iota ];
    repeat match goal with
           | |- context [if ?c then _ else _] => destruct c
           | |- context [match ?x with Some _ => _ | None => _ end] => destruct x
           end;
    eval_leaf Hsd.
Qed.

Lemma evalAt_outcome env now prices i p :
  pricesOk prices ->
  sameDeal (fst (evalAt env now prices i p)) p
  /\ (forall c, snd (evalAt env now prices i p) = Some c -> 0 <= closePrice c).
Proof.
  intros Hpr. unfold evalAt.
  destruct (prices !! Position.tokenId p) as [cp |] eqn:E;
    [| split; [repeat split | discriminate]].
  destruct (truthy cp); [| split; [repeat split | discriminate]].
  destruct (evalPosition_outcome env now i cp p) as [Hsd Hreq].
  split; [exact Hsd |]. intros c Hc. rewrite Hc in Hreq.
  destruct Hreq as [_ [-> | [-> | ->]]]; [eapply Hpr; exact E | lra | lra].
Qed.

Lemma imap_outcome (g : nat -> Position.t -> Position.t * option CloseReq) ps :
  (forall i p, sameDeal (fst (g i p)) p
               /\ (forall c, snd (g i p) = Some c -> 0 <= closePrice c)) ->
  Forall2 sameDeal (List.map fst (imap g ps)) ps
  /\ Forall (fun c => 0 <= closePrice c) (omap snd (imap g ps)).
Proof.
  revert g. induction ps as [| p ps IH]; intros g Hg; cbn.
  - split; constructor.
  - destruct (IH (g ∘ S)) as [IH1 IH2]; [intros i q; apply (Hg (S i) q) |].
    destruct (Hg 0%nat p) as [Hsd Hreq].
    split; [constructor; assumption |].
    destruct (snd (g 0%nat p)) as [c |]; [constructor; auto | exact IH2].
Qed.

Lemma evalAll_outcome env now prices ps :
  pricesOk prices ->
  Forall2 sameDeal (fst (evalAll env now prices ps)) ps
  /\ Forall (fun c => 0 <= closePrice c) (snd (evalAll env now prices ps)).
Proof.
  intros Hpr. unfold evalAll. cbn [fst snd].
  destruct (imap_outcome (evalAt env now prices) ps) as [H1 H2];
    [intros i p; now apply evalAt_outcome |].
  split; [exact H1 |]. apply Forall_rev. exact H2.
Qed.

Lemma Forall_wellFormed_sameDeal ps qs :
  Forall2 sameDeal ps qs -> Forall wellFormed qs -> Forall wellFormed ps.
Proof.
  induction 1 as [| p q ps qs Hsd _ IH]; intros Hq; [constructor |].
  inversion Hq; subst. constructor; [eapply wellFormed_sameDeal; eassumption | auto].
Qed.

(** The bookkeeping of a close credits the cost basis plus the P&L and
    records the close at the head of the history. *)
Lemma settle_spec now pos r px slip s :
  positions (settle now pos r px slip s) = positions s
  /\ history (settle now pos r px slip s)
     = {| closedPos := pos; exitPrice := px;
          pnl := (px - Position.entryPrice pos) * Position.size pos;
          reason := r; closedAt := now; closedSlippage := slip |} :: history s
  /\ bankroll (settle now pos r px slip s)
     = bankroll s + (orElse (Position.costBasis pos) PROBE_SIZE
                     + (px - Position.entryPrice pos) * Position.size pos)
  /\ sameWorld s (settle now pos r px slip s).
Proof.
  unfold settle, sameWorld. cbv zeta.
  destruct (Qgtb _ 0.05); [| destruct (Qltb _ (-0.05))];
    destruct (nonEmpty (Position.patternKey pos)); cbn; repeat split.
Qed.

Lemma simulateExit_same_world tok pos midp forced now s :
  sameWorld s (snd (_simulateExit tok pos midp forced now s)).
Proof.
  unfold sameWorld, _simulateExit.
  destruct (liveClient s) as [oc |].
  - destruct (Qltb (floorCents (Position.size pos)) 1); [repeat split |].
    destruct (sellShares oc tok _ _ _) as [oid px |];
      [destruct (negb (verifyOrder oc oid)) |]; repeat split.
  - destruct (match _orderbooks s !! tok with
              | Some b => Qeq_bool (bidDepth b) 0 && bidsEmpty b && negb forced
              | None => false
              end); repeat split.
Qed.

(** A sell that fills has a non-negative execution price. *)
Lemma simulateExit_price tok pos midp forced now s f s1 :
  worldOk s ->
  _simulateExit tok pos midp forced now s = (Some f, s1) ->
  0 <= execPrice f.
Proof.
  intros (_ & _ & Hclient). unfold _simulateExit.
  destruct (liveClient s) as [oc |] eqn:Hlive.
  - destruct (Qltb (floorCents (Position.size pos)) 1); [discriminate |].
    destruct (sellShares oc tok _ _ _) as [oid px |] eqn:Hsell; [| discriminate].
    destruct (negb (verifyOrder oc oid)); [discriminate |].
    intros [= <- _]. cbn.
    apply liveClient_is_client in Hlive. destruct (Hclient oc Hlive) as [_ Hs].
    eapply Hs. exact Hsell.
  - destruct (match _orderbooks s !! tok with
              | Some b => Qeq_bool (bidDepth b) 0 && bidsEmpty b && negb forced
              | None => false
              end); [discriminate |].
    intros [= <- _]. cbn [execPrice].
    apply roundTo_nonneg; [lia |].
    match goal with |- 0 <= Qmax 0.001 ?x => pose proof (Q.le_max_l 0.001 x) end. lra.
Qed.

(** One iteration of the closing loop either leaves the accounts alone
    (the exit did not fill and was not forced) or closes one position. *)
Lemma closeOne_spec now c s :
  if fst (closeOne now c s)
  then exists h, closedOne (index c) s (snd (closeOne now c s)) h
                 /\ (worldOk s -> 0 <= closePrice c -> 0 <= exitPrice h)
  else untouched s (snd (closeOne now c s)).
Proof.
  unfold closeOne.
  destruct (positions s !! index c) as [pos |] eqn:Hpos; [| apply untouched_refl].
  set (s0 := set_positions (delete (index c) (positions s)) s).
  pose proof (simulateExit_frame (Position.tokenId pos) pos (closePrice c)
                (isForcedReason (closeReason c)) now s0) as Hfr.
  pose proof (simulateExit_same_world (Position.tokenId pos) pos (closePrice c)
                (isForcedReason (closeReason c)) now s0) as Hsw.
  pose proof (simulateExit_price (Position.tokenId pos) pos (closePrice c)
                (isForcedReason (closeReason c)) now s0) as Hpx.
  cbv zeta in Hfr.
  assert (sameWorld s s0) as Hs0 by (repeat split).
  destruct (_simulateExit _ _ _ _ _ s0) as [[f |] s1]; cbn [fst snd] in *.
  - destruct (settle_spec now pos (closeReason c) (execPrice f)
                (slippage f * Position.size pos) s1) as (Hp & Hh & Hb & Hw).
    destruct Hfr as (Hp1 & Hb1 & Hh1 & _).
    exists {| closedPos := pos; exitPrice := execPrice f;
              pnl := (execPrice f - Position.entryPrice pos) * Position.size pos;
              reason := closeReason c; closedAt := now;
              closedSlippage := slippage f * Position.size pos |}.
    split.
    + unfold closedOne. rewrite Hp, Hh, Hb, Hp1, Hb1, Hh1. cbn.
      split; [exact Hpos |]. split; [reflexivity |]. split; [reflexivity |].
      split; [reflexivity |]. split; [reflexivity |].
      eapply sameWorld_trans; [exact Hs0 |]. eapply sameWorld_trans; [exact Hsw | exact Hw].
    + intros Hok _. cbn. eapply Hpx; [eapply worldOk_same; eassumption | reflexivity].
  - destruct Hfr as (Hp1 & Hb1 & Hh1 & _).
    destruct (isForcedReason (closeReason c)); cbn [fst snd].
    + destruct (settle_spec now pos (closeReason c) (closePrice c) 0 s1)
        as (Hp & Hh & Hb & Hw).
      exists {| closedPos := pos; exitPrice := closePrice c;
                pnl := (closePrice c - Position.entryPrice pos) * Position.size pos;
                reason := closeReason c; closedAt := now; closedSlippage := 0 |}.
      split.
      * unfold closedOne. rewrite Hp, Hh, Hb, Hp1, Hb1, Hh1. cbn.
        split; [exact Hpos |]. split; [reflexivity |]. split; [reflexivity |].
        split; [reflexivity |]. split; [reflexivity |].
        eapply sameWorld_trans; [exact Hs0 |]. eapply sameWorld_trans; [exact Hsw | exact Hw].
      * intros _ Hc. exact Hc.
    + unfold untouched. cbn. rewrite Hp1, Hb1, Hh1. cbn.
      split; [now apply spliceIn_delete |]. split; [reflexivity |]. split; [reflexivity |].
      eapply sameWorld_trans; [exact Hs0 | exact Hsw].
Qed.

(** A close of a well-formed position at a non-negative price returns a
    non-negative amount: the proceeds of the sale. *)
Lemma close_returns_proceeds p px :
  wellFormed p -> 0 <= px ->
  orElse (Position.costBasis p) PROBE_SIZE = Position.costBasis p
  /\ 0 <= Position.costBasis p + (px - Position.entryPrice p) * Position.size p.
Proof.
  intros (Hc & He & Hs) Hpx. split.
  - apply orElse_nonzero. lra.
  - assert (0 < Position.size p) by nra. nra.
Qed.

Lemma closeOne_accounting now c s :
  0 <= closePrice c -> accountingOk s ->
  accountingOk (snd (closeOne now c s))
  /\ exists new,
       history (snd (closeOne now c s)) = new ++ history s
       /\ bankroll (snd (closeOne now c s)) == bankroll s + Qsum (List.map credited new).
Proof.
  intros Hc (Hb & Hwf & Hok).
  pose proof (closeOne_spec now c s) as H.
  destruct (fst (closeOne now c s)).
  - destruct H as (h & (Hpos & Hp & Hh & Hpnl & Hbank & Hsw) & Hpx).
    specialize (Hpx Hok Hc).
    pose proof (Forall_lookup_1 _ _ _ _ Hwf Hpos) as Hh_wf.
    destruct (close_returns_proceeds _ _ Hh_wf Hpx) as [Hor Hnn].
    rewrite Hor in Hbank. rewrite <- Hpnl in Hnn.
    split.
    + split; [rewrite Hbank; lra |]. split; [rewrite Hp; now apply Forall_delete |].
      eapply worldOk_same; eassumption.
    + exists [h]. split; [exact Hh |]. rewrite Hbank. unfold credited, Qsum.
      cbn [List.map fold_right]. ring.
  - destruct H as (Hp & Hbk & Hh & Hsw). split.
    + split; [rewrite Hbk; exact Hb |]. split; [rewrite Hp; exact Hwf |].
      eapply worldOk_same; eassumption.
    + exists []. split; [exact Hh |]. rewrite Hbk. unfold Qsum. cbn [List.map fold_right]. ring.
Qed.

Lemma closeLoop_accounting now cs s :
  Forall (fun c => 0 <= closePrice c) cs -> accountingOk s ->
  accountingOk (snd (closeLoop now cs s))
  /\ exists new,
       history (snd (closeLoop now cs s)) = new ++ history s
       /\ bankroll (snd (closeLoop now cs s)) == bankroll s + Qsum (List.map credited new).
Proof.
  revert s. induction cs as [| c cs IH]; intros s Hcs Hok; cbn [closeLoop snd].
  - split; [exact Hok |]. exists []. split; [reflexivity |].
    unfold Qsum. cbn [List.map fold_right]. ring.
  - inversion Hcs as [| c' cs' Hc Hrest]; subst.
    destruct (closeOne_accounting now c s Hc Hok) as (Hok1 & n1 & Hh1 & Hb1).
    destruct (closeOne now c s) as [b s1]. cbn [snd] in *.
    destruct (IH s1 Hrest Hok1) as (Hok2 & n2 & Hh2 & Hb2).
    destruct (closeLoop now cs s1) as [n s2]. cbn [snd] in *.
    split; [exact Hok2 |]. exists (n2 ++ n1).
    split; [rewrite Hh2, Hh1; apply app_assoc |].
    rewrite Hb2, Hb1, map_app, Qsum_app. ring.
Qed.

(** Position management keeps the accounts sound, and the bankroll grows by
    exactly what the closes it recorded returned. *)
Lemma managePositions_accounting env now prices s :
  pricesOk prices -> accountingOk s ->
  accountingOk (snd (_managePositions env now prices s))
  /\ exists new,
       history (snd (_managePositions env now prices s)) = new ++ history s
       /\ bankroll (snd (_managePositions env now prices s))
          == bankroll s + Qsum (List.map credited new).
Proof.
  intros Hpr (Hb & Hwf & Hok). unfold _managePositions.
  destruct (evalAll_outcome env now prices (positions s) Hpr) as [Hsd Hreq].
  destruct (evalAll env now prices (positions s)) as [ps cs]. cbn [fst snd] in *.
  destruct (closeLoop_accounting now cs (set_positions ps s) Hreq) as (H1 & new & Hh & Hbk).
  { split; [exact Hb |].
    split; [eapply Forall_wellFormed_sameDeal; eassumption | exact Hok]. }
  split; [exact H1 |]. exists new. split; [exact Hh | exact Hbk].
Qed.

Lemma openedSome_accounting s s' : openedSome s s' -> accountingOk s -> accountingOk s'.
Proof.
  intros (new & Hp & _ & Hnn & _ & Hsw & Hwf) (Hb & Hf & Hok).
  split; [auto |]. split; [rewrite Hp; apply Forall_app; auto |].
  eapply worldOk_same; eassumption.
Qed.

Lemma applyOp_accounting o s : opOk o -> accountingOk s -> accountingOk (applyOp o s).
Proof.
  destruct o as [env now prices | env now prices | env now | env now asset sideArg bet];
    cbn [applyOp opOk]; intros Hop Hok.
  - now apply managePositions_accounting.
  - eapply openedSome_accounting; [apply scanEntries_openedSome | exact Hok].
  - eapply openedSome_accounting; [apply autoEntry_openedSome | exact Hok].
  - eapply openedSome_accounting; [apply manualTrade_openedSome | exact Hok].
Qed.

Lemma run_accounting ops s : Forall opOk ops -> accountingOk s -> accountingOk (run ops s).
Proof.
  revert s. induction ops as [| o ops IH]; intros s Hops Hok; cbn [run fold_left];
    [exact Hok |].
  inversion Hops; subst. apply IH; [assumption |]. now apply applyOp_accounting.
Qed.

Lemma autoEntry_spec env now s :
  match fst (_autoEntryDaily env now s) with
  | O => untouched s (snd (_autoEntryDaily env now s))
  | S _ => openedOne s (snd (_autoEntryDaily env now s))
  end.
Proof.
  unfold _autoEntryDaily.
  destruct (_entryLock s); [apply untouched_refl |].
  pose proof (autoEntryInner_spec env now (set_entryLock true s)) as H.
  destruct (_autoEntryDailyInner env now (set_entryLock true s)) as [n s1].
  cbn [fst snd] in *. destruct n.
  - destruct H as (Hp & Hb & Hh & Hw). repeat split; try assumption; apply Hw.
  - destruct H as (pos & Hp & Hb & Hnn & Hh & Hw & Hwf).
    exists pos. split; [exact Hp |]. split; [exact Hb |]. split; [exact Hnn |].
    split; [exact Hh |]. split; [exact Hw |]. exact Hwf.
Qed.

Lemma started_accounting_ok : accountingOk (stateWith [] 5 0 [] None).
Proof.
  split; [cbn; lra |]. split; [constructor |]. split; [| split].
  - intros t b H. cbn in H. rewrite lookup_empty in H. discriminate.
  - intros m [<- | []]. unfold tickOk; cbn. split; right; lra.
  - intros oc H. discriminate.
Qed.

(** Bankroll accounting of the entry paths and of the close loop, for
    positions as the entry paths create them.
    - Every entry path that opens a position (one iteration of the entry
      scanner, the daily auto-entry, a manual trade) appends exactly one
      position and leaves the bankroll at its value before minus that
      position's cost basis, never below 0.
    - Every close puts one record on the history and leaves the bankroll
      at its value before plus the cost basis plus the realized P&L; over
      a whole run of position management the bankroll grows by the sum of
      these amounts.
    - From accounts that are sound (bankroll not negative, positions as
      the entry paths create them, non-negative prices) every sequence of
      position management, entry scans, auto-entries and manual trades
      leaves them sound: the bankroll never goes negative.
    - A manual trade whose stake exceeds the bankroll is rejected with the
      state unchanged. *)
Theorem bankroll_accounting :
  (forall env now prices m s,
      fst (scanMarket env now prices m s) = Opened ->
      openedOne s (snd (scanMarket env now prices m s)))
  /\ (forall env now s,
         fst (_autoEntryDaily env now s) = 1%nat ->
         openedOne s (snd (_autoEntryDaily env now s)))
  /\ (forall env now asset sideArg betSize s,
         fst (manualTrade env now asset sideArg betSize s) = ManualSuccess ->
         openedOne s (snd (manualTrade env now asset sideArg betSize s)))
  /\ (forall now c s,
         fst (closeOne now c s) = true ->
         exists h,
           positions s !! index c = Some (closedPos h)
           /\ history (snd (closeOne now c s)) = h :: history s
           /\ (~ Position.costBasis (closedPos h) == 0 ->
               bankroll (snd (closeOne now c s))
               == bankroll s + Position.costBasis (closedPos h) + pnl h))
  /\ (forall env now prices s,
         pricesOk prices -> accountingOk s ->
         exists new,
           history (snd (_managePositions env now prices s)) = new ++ history s
           /\ bankroll (snd (_managePositions env now prices s))
              == bankroll s + Qsum (List.map credited new))
  /\ (forall ops s,
         Forall opOk ops -> accountingOk s ->
         accountingOk (run ops s) /\ 0 <= bankroll (run ops s))
  /\ (forall env now asset sideArg betSize s,
         bankroll s < betSize ->
         exists msg, manualTrade env now asset sideArg betSize s = (ManualError msg, s)).
Proof.
  split; [| split; [| split; [| split; [| split; [| split]]]]].
  - intros env now prices m s H.
    pose proof (scanMarket_spec env now prices m s) as Hs. now rewrite H in Hs.
  - intros env now s H.
    pose proof (autoEntry_spec env now s) as Hs. now rewrite H in Hs.
  - intros env now asset sideArg betSize s H.
    pose proof (manualTrade_spec env now asset sideArg betSize s) as Hs. now rewrite H in Hs.
  - intros now c s H.
    pose proof (closeOne_spec now c s) as Hs. rewrite H in Hs.
    destruct Hs as (h & (Hpos & _ & Hh & _ & Hb & _) & _).
    exists h. split; [exact Hpos |]. split; [exact Hh |].
    intros Hnz. rewrite Hb, (orElse_nonzero _ _ Hnz). ring.
  - intros env now prices s Hpr Hok.
    now destruct (managePositions_accounting env now prices s Hpr Hok) as [_ H].
  - intros ops s Hops Hok.
    pose proof (run_accounting ops s Hops Hok) as H. split; [exact H | apply H].
  - intros env now asset sideArg betSize s H. now apply manualTrade_rejects_overdraft.
Qed.

(** Scenario 4 of the specification ($5 staked against a bankroll of $3)
    and a run of one tick's operations from a bankroll of $5. *)
Lemma bankroll_accounting_witness :
  (exists msg,
      manualTrade (offering bearCandidate) t0 "BTC" "up" 5 threeDollars
      = (ManualError msg, threeDollars))
  /\ 0 <= bankroll (run [OpManage (offering bearCandidate) t0 upAt30;
                         OpScan (offering bearCandidate) t0 upAt30;
                         OpAuto (offering bearCandidate) t0]
                        (stateWith [] 5 0 [] None)).
Proof.
  destruct bankroll_accounting as (_ & _ & _ & _ & _ & Hrun & Hrej). split.
  - apply Hrej. vm_compute. reflexivity.
  - apply Hrun.
    + repeat constructor. intros k v H. unfold upAt30 in H.
      apply lookup_singleton_Some in H. destruct H as [_ <-]. vm_compute. discriminate.
    + exact started_accounting_ok.
Defined.

(** C1 (evaluation at the failing input). Live trading. The engine tracks
    the daily position (two shares bought at 0.50 for $1) and holds $0.50;
    the wallet holds 100 shares of the token.  [reconcileOnChain] replaces
    the tracked size by the on-chain balance and leaves the cost basis, the
    entry price and the bankroll as they were.  200 seconds before expiry,
    with the token at a mid of 0.305, position management sells; the order
    is matched at the bid of 0.30 (the mid less half a cent), the realized
    P&L is [(0.30 - 0.50) * 100 = -20], and the close credits
    [costBasis + pnl = 1 - 20] without a floor: the bankroll goes from
    0.50 to -18.50. *)
Theorem reconciled_size_drives_bankroll_negative :
  let s := stateWith [expiring] 0.5 0 [] (Some fillingClient) in
  let s1 := fst (reconcileOnChain (fun _ => OnChain 100) 0.5 s) in
  let r := _managePositions (envWith against) t0 {[ "tok-up"%string := 0.305 ]} s1 in
  0 <= bankroll s
  /\ positions s1 = [pos_set_size 100 expiring]
  /\ Position.costBasis (pos_set_size 100 expiring) = Position.costBasis expiring
  /\ bankroll s1 = bankroll s
  /\ fst r = 1%nat
  /\ positions (snd r) = []
  /\ List.map reason (history (snd r)) = [LIQ_FORCE]
  /\ fills (_executionStats (snd r)) = 1%nat
  /\ Forall (fun h => exitPrice h == 0.30 /\ pnl h == -20) (history (snd r))
  /\ bankroll (snd r) == -18.5
  /\ bankroll (snd r) < 0.
Proof.
  cbv zeta. repeat (split; [vm_compute; first [reflexivity | discriminate] |]).
  split.
  - vm_compute. constructor; [split; reflexivity | constructor].
  - split; vm_compute; reflexivity.
Qed.

(** ** The binary probability model: monotonicity and limits *)

Module ProbabilityFacts.

Import ProbabilityModel ErfApprox.
Local Open Scope R_scope.

(** *** The numerator polynomial is positive on [[0, 1]] *)

Lemma lowerOn_sound cs l u lk uk t tk :
  0 <= Q2R l -> Q2R l <= t <= Q2R u ->
  0 <= Q2R lk <= tk -> tk <= Q2R uk ->
  Q2R (lowerOn cs l u lk uk) <= evalR cs t tk.
Proof.
  revert lk uk tk. induction cs as [| c cs IH]; intros lk uk tk Hl Ht Hlk Huk;
    cbn [lowerOn evalR].
  - change (Q2R 0) with (Q2R (0 # 1)). unfold Q2R. cbn. lra.
  - rewrite Q2R_plus. apply Rplus_le_compat.
    + destruct (Qle_bool 0 c) eqn:E.
      * apply Qle_bool_iff, Qle_Rle in E. rewrite RMicromega.Q2R_0 in E.
        rewrite Q2R_mult. apply Rmult_le_compat_l; lra.
      * assert (Q2R c <= 0) as Hc.
        { destruct (Qlt_le_dec c 0) as [Hlt | Hge].
          - apply Qlt_Rlt in Hlt. rewrite RMicromega.Q2R_0 in Hlt. lra.
          - apply Qle_bool_iff in Hge. congruence. }
        rewrite Q2R_mult. nra.
    + apply IH; try assumption; rewrite ?Q2R_mult.
      * split; [apply Rmult_le_pos; lra |]. apply Rmult_le_compat; lra.
      * apply Rmult_le_compat; lra.
Qed.

Lemma Q2R_cell (i : nat) (n : positive) : Q2R (Z.of_nat i # n) = INR i / IZR (Zpos n).
Proof. unfold Q2R. cbn. now rewrite INR_IZR_INZ. Qed.

Lemma positiveBelow_sound cs n k t :
  positiveBelow cs n (S k) = true ->
  0 <= t <= INR (S k) / IZR (Zpos n) ->
  0 < evalR cs t 1.
Proof.
  assert (0 < IZR (Zpos n)) as Hn by (apply IZR_lt; lia).
  induction k as [| k IH]; intros Hchk [H0 Ht].
  - cbn [positiveBelow] in Hchk. apply andb_true_iff in Hchk. destruct Hchk as [Hc _].
    apply Qltb_lt in Hc. rewrite Qred_correct in Hc. apply Qlt_Rlt in Hc.
    rewrite RMicromega.Q2R_0 in Hc.
    eapply Rlt_le_trans; [exact Hc |].
    apply lowerOn_sound; rewrite ?Q2R_cell, ?RMicromega.Q2R_1.
    + cbn. lra.
    + split; [cbn; lra | exact Ht].
    + lra.
    + lra.
  - change (positiveBelow cs n (S (S k))) with
      (Qltb 0 (Qred (lowerOn cs (Z.of_nat (S k) # n) (Z.of_nat (S (S k)) # n) 1 1))
       && positiveBelow cs n (S k))%bool in Hchk.
    apply andb_true_iff in Hchk. destruct Hchk as [Hc Hrest].
    destruct (Rle_dec t (INR (S k) / IZR (Zpos n))) as [Hle | Hgt].
    + apply IH; [exact Hrest | split; assumption].
    + apply Qltb_lt in Hc. rewrite Qred_correct in Hc. apply Qlt_Rlt in Hc.
      rewrite RMicromega.Q2R_0 in Hc.
      eapply Rlt_le_trans; [exact Hc |].
      assert (0 <= INR (S k) / IZR (Zpos n)) as Hpos.
      { apply Rmult_le_pos; [apply pos_INR |]. apply Rlt_le, Rinv_0_lt_compat, Hn. }
      apply lowerOn_sound; rewrite ?Q2R_cell, ?RMicromega.Q2R_1.
      * exact Hpos.
      * split; [lra | exact Ht].
      * lra.
      * lra.
Qed.

Lemma numer_is_evalR t : numer t = evalR numerCoeffs t 1.
Proof.
  unfold numer, quot, dpoly, numerCoeffs, evalR, a1, a2, a3, a4, a5, p.
  unfold A1, A2, A3, A4, A5, PP.
  rewrite ?Q2R_plus, ?Q2R_minus, ?Q2R_opp, ?Q2R_mult.
  unfold Q2R. cbn [Qnum Qden]. field.
Qed.

Lemma numer_positive t : 0 <= t <= 1 -> 0 < numer t.
Proof.
  intros Ht. rewrite numer_is_evalR.
  apply (positiveBelow_sound numerCoeffs 100 99).
  - vm_compute. reflexivity.
  - replace (INR 100 / IZR 100) with 1; [exact Ht |].
    rewrite INR_IZR_INZ. cbn. field.
Qed.

(** *** The formula is increasing in [|x|] *)

Lemma p_pos : 0 < p.
Proof. unfold p. lra. Qed.

Lemma tOf_range u : 0 <= u -> 0 < tOf u <= 1.
Proof.
  intros Hu. pose proof p_pos as Hp. unfold tOf.
  assert (1 <= 1 + p * u) as H by nra.
  split.
  - apply Rdiv_lt_0_compat; lra.
  - unfold Rdiv. rewrite Rmult_1_l. rewrite <- Rinv_1 at 2. apply Rinv_le_contravar; lra.
Qed.

Lemma tOf_inverse u : 0 <= u -> tOf u * (1 + p * u) = 1.
Proof.
  intros Hu. pose proof p_pos as Hp. unfold tOf. field. nra.
Qed.

Lemma poly_quot t : poly t = quot t * t.
Proof. reflexivity. Qed.

Lemma slope_numer u : 0 <= u -> p * slope u = numer (tOf u).
Proof.
  intros Hu. pose proof (tOf_inverse u Hu) as Hinv.
  unfold slope, numer. rewrite poly_quot.
  set (t := tOf u) in *.
  assert (p * u * t = 1 - t) as Hput by lra.
  replace (p * (p * (t * t) * dpoly t + 2 * u * (quot t * t)))
    with (p * p * (t * t) * dpoly t + 2 * (p * u * t) * quot t) by ring.
  rewrite Hput. ring.
Qed.

Lemma slope_positive u : 0 <= u -> 0 < slope u.
Proof.
  intros Hu. pose proof p_pos as Hp.
  assert (0 < p * slope u) as H.
  { rewrite (slope_numer u Hu). apply numer_positive.
    pose proof (tOf_range u Hu). lra. }
  nra.
Qed.

Lemma d_eq f x l l' : l = l' -> derivable_pt_lim f x l -> derivable_pt_lim f x l'.
Proof. now intros ->. Qed.

Lemma d_const c x : derivable_pt_lim (fun _ => c) x 0.
Proof. exact (derivable_pt_lim_const c x). Qed.

Lemma d_id x : derivable_pt_lim (fun u => u) x 1.
Proof. exact (derivable_pt_lim_id x). Qed.

Lemma d_plus f g x lf lg :
  derivable_pt_lim f x lf -> derivable_pt_lim g x lg ->
  derivable_pt_lim (fun u => f u + g u) x (lf + lg).
Proof. exact (derivable_pt_lim_plus f g x lf lg). Qed.

Lemma d_minus f g x lf lg :
  derivable_pt_lim f x lf -> derivable_pt_lim g x lg ->
  derivable_pt_lim (fun u => f u - g u) x (lf - lg).
Proof. exact (derivable_pt_lim_minus f g x lf lg). Qed.

Lemma d_mult f g x lf lg :
  derivable_pt_lim f x lf -> derivable_pt_lim g x lg ->
  derivable_pt_lim (fun u => f u * g u) x (lf * g x + f x * lg).
Proof. exact (derivable_pt_lim_mult f g x lf lg). Qed.

Lemma d_comp g f x lf lg :
  derivable_pt_lim f x lf -> derivable_pt_lim g (f x) lg ->
  derivable_pt_lim (fun u => g (f u)) x (lg * lf).
Proof. exact (derivable_pt_lim_comp f g x lf lg). Qed.

Lemma d_poly t : derivable_pt_lim poly t (dpoly t).
Proof.
  unfold poly.
  eapply d_eq; cycle 1.
  - repeat first [apply d_mult | apply d_plus | apply d_const | apply d_id].
  - cbv beta. unfold dpoly. ring.
Qed.

Lemma d_tOf u : 0 <= u -> derivable_pt_lim tOf u (- p * (tOf u * tOf u)).
Proof.
  intros Hu. pose proof p_pos as Hp.
  assert (1 + p * u <> 0) as Hnz by nra.
  unfold tOf at 1.
  eapply d_eq; cycle 1.
  - apply (derivable_pt_lim_div (fun _ => 1) (fun v => 1 + p * v) u 0 (0 + (0 * u + p * 1))).
    + apply d_const.
    + apply d_plus; [apply d_const |]. apply d_mult; [apply d_const | apply d_id].
    + exact Hnz.
  - cbv beta. unfold tOf, Rsqr. field. exact Hnz.
Qed.

Lemma d_gauss u : derivable_pt_lim (fun v => exp (- v * v)) u (exp (- u * u) * (- (2 * u))).
Proof.
  eapply d_eq; cycle 1.
  - apply (d_comp exp (fun v => - v * v) u).
    + apply d_mult; [| apply d_id].
      apply (derivable_pt_lim_opp (fun v => v) u 1), d_id.
    + apply derivable_pt_lim_exp.
  - cbv beta. ring.
Qed.

Lemma d_erfLike u : 0 <= u -> derivable_pt_lim erfLike u (exp (- u * u) * slope u).
Proof.
  intros Hu. unfold erfLike.
  eapply d_eq; cycle 1.
  - apply d_minus; [apply d_const |].
    apply d_mult.
    + apply (d_comp poly tOf u); [apply d_tOf; exact Hu | apply d_poly].
    + apply d_gauss.
  - cbv beta. unfold slope. ring.
Qed.

Lemma erfLike_increasing u1 u2 : 0 <= u1 -> u1 <= u2 -> erfLike u1 <= erfLike u2.
Proof.
  intros H1 [Hlt | ->]; [| lra].
  destruct (MVT_cor2 erfLike (fun c => exp (- c * c) * slope c) u1 u2 Hlt) as (c & Hc & Hin).
  - intros c Hc. apply d_erfLike. lra.
  - assert (0 < exp (- c * c) * slope c) as Hpos.
    { apply Rmult_lt_0_compat; [apply exp_pos | apply slope_positive; lra]. }
    nra.
Qed.

Lemma erfLike_zero : 0 <= erfLike 0.
Proof.
  unfold erfLike, tOf, poly, a1, a2, a3, a4, a5, p.
  replace (- 0 * 0) with 0 by ring. rewrite exp_0.
  replace (1 / (1 + 0.3275911 * 0)) with 1 by (field; lra). lra.
Qed.

Lemma erfLike_nonneg u : 0 <= u -> 0 <= erfLike u.
Proof.
  intros Hu. eapply Rle_trans; [apply erfLike_zero |]. apply erfLike_increasing; lra.
Qed.

(** *** [_normalCDF] is non-decreasing *)

Lemma normalCDF_erfLike x :
  _normalCDF x
  = 0.5 * (1 + (if Rlt_dec x 0 then -1 else 1) * erfLike (Rabs x / sqrt 2)).
Proof. reflexivity. Qed.

Lemma sqrt2_pos : 0 < sqrt 2.
Proof. apply sqrt_lt_R0. lra. Qed.

Lemma scaled_nonneg x : 0 <= Rabs x / sqrt 2.
Proof.
  apply Rmult_le_pos; [apply Rabs_pos |]. apply Rlt_le, Rinv_0_lt_compat, sqrt2_pos.
Qed.

Lemma scaled_mono x y : x <= y -> x / sqrt 2 <= y / sqrt 2.
Proof.
  intros H. apply Rmult_le_compat_r; [| exact H].
  apply Rlt_le, Rinv_0_lt_compat, sqrt2_pos.
Qed.

Lemma normalCDF_mono x1 x2 : x1 <= x2 -> _normalCDF x1 <= _normalCDF x2.
Proof.
  intros H. rewrite !normalCDF_erfLike.
  pose proof (erfLike_nonneg _ (scaled_nonneg x1)) as H1.
  pose proof (erfLike_nonneg _ (scaled_nonneg x2)) as H2.
  destruct (Rlt_dec x1 0) as [N1 | P1], (Rlt_dec x2 0) as [N2 | P2]; try lra.
  - assert (erfLike (Rabs x2 / sqrt 2) <= erfLike (Rabs x1 / sqrt 2)).
    { apply erfLike_increasing; [apply scaled_nonneg |]. apply scaled_mono.
      rewrite !Rabs_left by assumption. lra. }
    lra.
  - assert (erfLike (Rabs x1 / sqrt 2) <= erfLike (Rabs x2 / sqrt 2)).
    { apply erfLike_increasing; [apply scaled_nonneg |]. apply scaled_mono.
      rewrite !Rabs_right by lra. lra. }
    lra.
Qed.

(** *** [_binaryProbability] is non-decreasing in the current price *)

Lemma annualVol_pos asset : 0 < annualVol asset.
Proof.
  unfold annualVol, ANNUAL_VOL.
  destruct (String.eqb asset "BTC"); [| destruct (String.eqb asset "ETH");
    [| destruct (String.eqb asset "SOL")]]; cbn; unfold Q2R; cbn; lra.
Qed.

Lemma binaryProbability_regular c r secs asset :
  0 < c -> 0 < r -> 0 < secs ->
  _binaryProbability c r secs asset = _normalCDF (d2Of c r secs asset).
Proof.
  intros Hc Hr Hs. unfold _binaryProbability.
  destruct (Req_EM_T c 0); [lra |].
  destruct (Req_EM_T r 0); [lra |].
  destruct (Rle_dec r 0); [lra |].
  destruct (Rle_dec secs 0); [lra |]. reflexivity.
Qed.

Lemma year_fraction_pos secs : 0 < secs -> 0 < secs / yearSecs.
Proof. intros H. unfold yearSecs. apply Rdiv_lt_0_compat; lra. Qed.

Lemma denominator_pos secs asset : 0 < secs -> 0 < annualVol asset * sqrt (secs / yearSecs).
Proof.
  intros H. apply Rmult_lt_0_compat; [apply annualVol_pos |].
  apply sqrt_lt_R0, year_fraction_pos, H.
Qed.

Lemma ln_mono x y : 0 < x -> x <= y -> ln x <= ln y.
Proof. intros Hx [Hlt | ->]; [left; now apply ln_increasing | right; reflexivity]. Qed.

Lemma d2Of_mono c1 c2 r secs asset :
  0 < r -> 0 < secs -> 0 < c1 -> c1 <= c2 -> d2Of c1 r secs asset <= d2Of c2 r secs asset.
Proof.
  intros Hr Hs Hc Hle. unfold d2Of.
  apply Rmult_le_compat_r.
  - apply Rlt_le, Rinv_0_lt_compat, denominator_pos, Hs.
  - apply Rplus_le_compat_r. apply ln_mono.
    + apply Rdiv_lt_0_compat; assumption.
    + apply Rmult_le_compat_r; [apply Rlt_le, Rinv_0_lt_compat, Hr | exact Hle].
Qed.

(** *** The tails of [_normalCDF] *)

Lemma quot_bound t : 0 <= t <= 1 -> Rabs (quot t) <= 5.
Proof.
  intros [H0 H1].
  assert (0 <= t * t <= 1) as [H2 H2'] by nra.
  assert (0 <= t * t * t <= 1) as [H3 H3'] by nra.
  assert (0 <= t * t * t * t <= 1) as [H4 H4'] by nra.
  replace (quot t)
    with (a1 + a2 * t + a3 * (t * t) + a4 * (t * t * t) + a5 * (t * t * t * t))
    by (unfold quot; ring).
  unfold a1, a2, a3, a4, a5.
  generalize dependent (t * t * t * t). generalize dependent (t * t * t).
  generalize dependent (t * t). intros t2 ? ? t3 ? ? t4 ? ?.
  apply Rabs_le. lra.
Qed.

Lemma gauss_le_one u : exp (- u * u) <= 1.
Proof.
  rewrite <- exp_0.
  assert (- u * u <= 0) as [Hlt | ->] by nra; [left; now apply exp_increasing | right; reflexivity].
Qed.

Lemma tail_bound u : 0 <= u -> Rabs (1 - erfLike u) <= 5 * tOf u.
Proof.
  intros Hu. destruct (tOf_range u Hu) as [Ht0 Ht1].
  unfold erfLike. replace (1 - (1 - poly (tOf u) * exp (- u * u)))
    with (quot (tOf u) * (tOf u * exp (- u * u))) by (rewrite poly_quot; ring).
  rewrite Rabs_mult.
  pose proof (quot_bound (tOf u) (conj (Rlt_le _ _ Ht0) Ht1)) as Hq.
  pose proof (gauss_le_one u) as Hg. pose proof (exp_pos (- u * u)) as Hg0.
  rewrite (Rabs_right (tOf u * exp (- u * u)))
    by (apply Rle_ge, Rmult_le_pos; lra).
  apply Rle_trans with (5 * (tOf u * exp (- u * u))).
  - apply Rmult_le_compat_r; [apply Rmult_le_pos; lra | exact Hq].
  - apply Rmult_le_compat_l; [lra |].
    rewrite <- (Rmult_1_r (tOf u)) at 2. apply Rmult_le_compat_l; lra.
Qed.

Lemma sqrt2_le_2 : sqrt 2 <= 2.
Proof.
  pose proof sqrt2_pos. assert (sqrt 2 * sqrt 2 = 2) by (apply sqrt_sqrt; lra). nra.
Qed.

Lemma tOf_small x : 0 < x -> tOf (x / sqrt 2) <= 2 / (p * x).
Proof.
  intros Hx. pose proof p_pos as Hp. pose proof sqrt2_pos as Hs. pose proof sqrt2_le_2 as Hs2.
  assert (sqrt 2 * sqrt 2 = 2) as Hss by (apply sqrt_sqrt; lra).
  unfold tOf.
  assert (0 < x / sqrt 2) as Hu by (apply Rdiv_lt_0_compat; lra).
  assert (p * x <= 2 * (p * (x / sqrt 2))) as Hkey.
  { replace (2 * (p * (x / sqrt 2))) with (p * x * (2 / sqrt 2)) by (field; lra).
    assert (1 <= 2 / sqrt 2).
    { apply Rmult_le_reg_r with (sqrt 2); [exact Hs |].
      replace (2 / sqrt 2 * sqrt 2) with 2 by (field; lra). lra. }
    assert (0 < p * x) by nra. nra. }
  assert (0 < p * x) as Hpx by nra.
  assert (0 < 1 + p * (x / sqrt 2)) as Hden by nra.
  apply Rmult_le_reg_r with (1 + p * (x / sqrt 2)); [exact Hden |].
  replace (1 / (1 + p * (x / sqrt 2)) * (1 + p * (x / sqrt 2))) with 1 by (field; lra).
  apply Rmult_le_reg_r with (p * x); [exact Hpx |].
  replace (2 / (p * x) * (1 + p * (x / sqrt 2)) * (p * x))
    with (2 * (1 + p * (x / sqrt 2))) by (field; lra).
  lra.
Qed.

Lemma cdf_upper_tail x : 0 < x -> Rabs (_normalCDF x - 1) <= 5 / (p * x).
Proof.
  intros Hx. rewrite normalCDF_erfLike.
  destruct (Rlt_dec x 0); [lra |].
  rewrite (Rabs_right x) by lra.
  assert (0 <= x / sqrt 2) as Hu
    by (apply Rlt_le, Rdiv_lt_0_compat; [exact Hx | apply sqrt2_pos]).
  pose proof (tail_bound _ Hu) as Ht. pose proof (tOf_small x Hx) as Hs.
  replace (0.5 * (1 + 1 * erfLike (x / sqrt 2)) - 1)
    with (- (0.5 * (1 - erfLike (x / sqrt 2)))) by lra.
  rewrite Rabs_Ropp, Rabs_mult, (Rabs_right 0.5) by lra.
  replace (5 / (p * x)) with (0.5 * (5 * (2 / (p * x))))
    by (unfold Rdiv; lra).
  apply Rmult_le_compat_l; [lra |]. lra.
Qed.

Lemma cdf_lower_tail x : x < 0 -> Rabs (_normalCDF x) <= 5 / (p * - x).
Proof.
  intros Hx. rewrite normalCDF_erfLike.
  destruct (Rlt_dec x 0); [| lra].
  rewrite (Rabs_left x) by lra.
  assert (0 < - x) as Hnx by lra.
  assert (0 <= - x / sqrt 2) as Hu
    by (apply Rlt_le, Rdiv_lt_0_compat; [exact Hnx | apply sqrt2_pos]).
  pose proof (tail_bound _ Hu) as Ht. pose proof (tOf_small (- x) Hnx) as Hs.
  replace (0.5 * (1 + -1 * erfLike (- x / sqrt 2)))
    with (0.5 * (1 - erfLike (- x / sqrt 2))) by lra.
  rewrite Rabs_mult, (Rabs_right 0.5) by lra.
  replace (5 / (p * - x)) with (0.5 * (5 * (2 / (p * - x))))
    by (unfold Rdiv; lra).
  apply Rmult_le_compat_l; [lra |]. lra.
Qed.

(** *** The limits as the time remaining goes to 0 *)

Lemma sqrt_below T K : 0 < T -> 0 < K -> T < K * K -> 0 < sqrt T < K.
Proof.
  intros HT HK Hlt. split; [now apply sqrt_lt_R0 |].
  rewrite <- (sqrt_square K) by lra. apply sqrt_lt_1_alt. lra.
Qed.

Lemma d2_large L sg T M :
  0 < L -> 0 < sg -> 0 < M -> 0 < T ->
  sg * sg * T < L -> T < (L / (2 * sg * M)) * (L / (2 * sg * M)) ->
  M < (L + (-0.5 * sg * sg) * T) / (sg * sqrt T).
Proof.
  intros HL Hsg HM HT Hsmall Hroot.
  assert (0 < L / (2 * sg * M)) as HK by (apply Rdiv_lt_0_compat; nra).
  destruct (sqrt_below T _ HT HK Hroot) as [Hs0 Hs1].
  set (s := sqrt T) in *. set (K := L / (2 * sg * M)) in *.
  assert (M * sg * K = L / 2) as HMK by (unfold K; field; lra).
  assert (M * sg * s < M * sg * K) as H1 by (apply Rmult_lt_compat_l; nra).
  set (num := L + -0.5 * sg * sg * T).
  assert (L / 2 < num) as H2 by (unfold num; nra).
  assert (0 < sg * s) as Hden by nra.
  apply Rmult_lt_reg_r with (sg * s); [exact Hden |].
  replace (num / (sg * s) * (sg * s)) with num by (field; lra).
  nra.
Qed.

Lemma d2_small L sg T M :
  L < 0 -> 0 < sg -> 0 < M -> 0 < T ->
  T < (- L / (sg * M)) * (- L / (sg * M)) ->
  (L + (-0.5 * sg * sg) * T) / (sg * sqrt T) < - M.
Proof.
  intros HL Hsg HM HT Hroot.
  assert (0 < - L / (sg * M)) as HK by (apply Rdiv_lt_0_compat; nra).
  destruct (sqrt_below T _ HT HK Hroot) as [Hs0 Hs1].
  set (s := sqrt T) in *. set (K := - L / (sg * M)) in *.
  assert (M * sg * K = - L) as HMK by (unfold K; field; lra).
  assert (M * sg * s < M * sg * K) as H1 by (apply Rmult_lt_compat_l; nra).
  set (num := L + -0.5 * sg * sg * T).
  assert (0 < sg * sg * T) as Hsq by (repeat apply Rmult_lt_0_compat; lra).
  assert (num < L) as H2 by (unfold num; lra).
  assert (0 < sg * s) as Hden by nra.
  apply Rmult_lt_reg_r with (sg * s); [exact Hden |].
  replace (num / (sg * s) * (sg * s)) with num by (field; lra).
  nra.
Qed.

Lemma tail_small M eps x : 0 < eps -> M = 5 / (p * eps) -> M < x -> 5 / (p * x) < eps.
Proof.
  intros He HM Hx. pose proof p_pos as Hp.
  assert (0 < M) as HM0 by (rewrite HM; apply Rdiv_lt_0_compat; nra).
  assert (0 < p * x) as Hpx by nra.
  apply Rmult_lt_reg_r with (p * x); [exact Hpx |].
  replace (5 / (p * x) * (p * x)) with 5 by (field; lra).
  assert (M * (p * eps) = 5) as HMe by (rewrite HM; field; lra).
  nra.
Qed.

Lemma year_pos : 0 < yearSecs.
Proof. unfold yearSecs. lra. Qed.

Lemma fraction_below secs bound :
  0 < secs < yearSecs * bound -> 0 < secs / yearSecs < bound.
Proof.
  intros [H0 H1]. pose proof year_pos as Hy. split.
  - apply Rdiv_lt_0_compat; lra.
  - apply Rmult_lt_reg_r with yearSecs; [exact Hy |].
    replace (secs / yearSecs * yearSecs) with secs by (field; lra). lra.
Qed.

Lemma approaches_one asset r c :
  0 < r -> r < c ->
  forall eps, 0 < eps ->
  exists delta, 0 < delta /\
    forall secs, 0 < secs < delta -> Rabs (_binaryProbability c r secs asset - 1) < eps.
Proof.
  intros Hr Hc eps He. pose proof p_pos as Hp. pose proof (annualVol_pos asset) as Hsg.
  pose proof year_pos as Hy.
  set (sg := annualVol asset) in *.
  assert (0 < ln (c / r)) as HL.
  { rewrite <- ln_1. apply ln_increasing; [lra |].
    apply Rmult_lt_reg_r with r; [exact Hr |].
    replace (c / r * r) with c by (field; lra). lra. }
  set (L := ln (c / r)) in *.
  set (M := 5 / (p * eps)).
  assert (0 < M) as HM by (apply Rdiv_lt_0_compat; nra).
  set (K := L / (2 * sg * M)).
  assert (0 < K) as HK by (apply Rdiv_lt_0_compat; nra).
  assert (0 < L / (sg * sg)) as HB by (apply Rdiv_lt_0_compat; nra).
  exists (yearSecs * Rmin (L / (sg * sg)) (K * K)). split.
  - apply Rmult_lt_0_compat; [exact Hy |]. apply Rmin_glb_lt; nra.
  - intros secs Hsecs. destruct (fraction_below secs _ Hsecs) as [HT0 HT1].
    rewrite binaryProbability_regular by lra.
    assert (secs / yearSecs < L / (sg * sg)) as Ha
      by (eapply Rlt_le_trans; [exact HT1 | apply Rmin_l]).
    assert (secs / yearSecs < K * K) as Hb
      by (eapply Rlt_le_trans; [exact HT1 | apply Rmin_r]).
    assert (sg * sg * (secs / yearSecs) < L) as Ha'.
    { apply Rmult_lt_compat_l with (r := sg * sg) in Ha; [| nra].
      replace (sg * sg * (L / (sg * sg))) with L in Ha by (field; lra). exact Ha. }
    pose proof (d2_large L sg (secs / yearSecs) M HL Hsg HM HT0 Ha' Hb) as Hd.
    change ((L + -0.5 * sg * sg * (secs / yearSecs)) / (sg * sqrt (secs / yearSecs)))
      with (d2Of c r secs asset) in Hd.
    eapply Rle_lt_trans; [apply cdf_upper_tail; lra |].
    apply (tail_small M eps); [exact He | reflexivity | exact Hd].
Qed.

Lemma approaches_zero asset r c :
  0 < c -> c < r ->
  forall eps, 0 < eps ->
  exists delta, 0 < delta /\
    forall secs, 0 < secs < delta -> Rabs (_binaryProbability c r secs asset) < eps.
Proof.
  intros Hc Hr eps He. pose proof p_pos as Hp. pose proof (annualVol_pos asset) as Hsg.
  pose proof year_pos as Hy.
  set (sg := annualVol asset) in *.
  assert (ln (c / r) < 0) as HL.
  { rewrite <- ln_1. apply ln_increasing; [apply Rdiv_lt_0_compat; lra |].
    apply Rmult_lt_reg_r with r; [lra |].
    replace (c / r * r) with c by (field; lra). lra. }
  set (L := ln (c / r)) in *.
  set (M := 5 / (p * eps)).
  assert (0 < M) as HM by (apply Rdiv_lt_0_compat; nra).
  set (K := - L / (sg * M)).
  assert (0 < K) as HK by (apply Rdiv_lt_0_compat; nra).
  exists (yearSecs * (K * K)). split.
  - apply Rmult_lt_0_compat; [exact Hy | nra].
  - intros secs Hsecs. destruct (fraction_below secs _ Hsecs) as [HT0 HT1].
    rewrite binaryProbability_regular by lra.
    pose proof (d2_small L sg (secs / yearSecs) M HL Hsg HM HT0 HT1) as Hd.
    change ((L + -0.5 * sg * sg * (secs / yearSecs)) / (sg * sqrt (secs / yearSecs)))
      with (d2Of c r secs asset) in Hd.
    eapply Rle_lt_trans; [apply cdf_lower_tail; lra |].
    apply (tail_small M eps); [exact He | reflexivity | lra].
Qed.

Lemma at_expiry asset r c secs :
  0 < r -> c <> 0 -> secs <= 0 ->
  _binaryProbability c r secs asset = if Rlt_dec r c then 0.99 else 0.01.
Proof.
  intros Hr Hc Hs. unfold _binaryProbability.
  destruct (Req_EM_T c 0); [contradiction |].
  destruct (Req_EM_T r 0); [lra |].
  destruct (Rle_dec r 0); [lra |].
  destruct (Rle_dec secs 0); [reflexivity | lra].
Qed.

(** *** A missing current price *)

Lemma erfLike_zero_pos : 0 < erfLike 0.
Proof.
  unfold erfLike, tOf, poly, a1, a2, a3, a4, a5, p.
  replace (- 0 * 0) with 0 by ring. rewrite exp_0.
  replace (1 / (1 + 0.3275911 * 0)) with 1 by (field; lra). lra.
Qed.

Lemma normalCDF_below_half x : x < 0 -> _normalCDF x < 0.5.
Proof.
  intros Hx. rewrite normalCDF_erfLike.
  destruct (Rlt_dec x 0) as [_ | N]; [| lra].
  pose proof erfLike_zero_pos as H0.
  pose proof (erfLike_increasing 0 (Rabs x / sqrt 2) (Rle_refl 0) (scaled_nonneg x)) as H1.
  lra.
Qed.

Lemma d2Of_negative c r secs asset : 0 < c -> c < r -> 0 < secs -> d2Of c r secs asset < 0.
Proof.
  intros Hc Hr Hs. pose proof (annualVol_pos asset) as Hsg.
  pose proof (year_fraction_pos secs Hs) as HT.
  pose proof (denominator_pos secs asset Hs) as Hden.
  assert (ln (c / r) < 0) as HL.
  { rewrite <- ln_1. apply ln_increasing; [apply Rdiv_lt_0_compat; lra |].
    apply Rmult_lt_reg_r with r; [lra |].
    replace (c / r * r) with c by (field; lra). lra. }
  assert (0 < annualVol asset * annualVol asset * (secs / yearSecs)) as Hsq
    by (apply Rmult_lt_0_compat; [apply Rmult_lt_0_compat |]; assumption).
  unfold d2Of.
  set (den := annualVol asset * sqrt (secs / yearSecs)) in *.
  set (num := ln (c / r) + -0.5 * annualVol asset * annualVol asset * (secs / yearSecs)).
  assert (num < 0) as Hnum by (unfold num; lra).
  assert (0 < / den) as Hinv by now apply Rinv_0_lt_compat.
  unfold Rdiv. nra.
Qed.

Lemma missing_price_is_even r secs asset : _binaryProbability 0 r secs asset = 0.5.
Proof. unfold _binaryProbability. destruct (Req_EM_T 0 0); [reflexivity | lra]. Qed.

End ProbabilityFacts.

(** C8. For every reference price [r > 0], time remaining [secs > 0] and
    asset (which fixes the volatility), the binary probability is
    non-decreasing in the current price (a price: a positive number).  For
    a current price above the reference it tends to 1 as the time
    remaining tends to 0 from above, for one below the reference it tends
    to 0; and at [secs <= 0] it is 0.99 for a current price above the
    reference and 0.01 otherwise. *)
Theorem probability_monotone_and_limits :
  (forall asset r secs c1 c2,
      (0 < r)%R -> (0 < secs)%R -> (0 < c1)%R -> (c1 <= c2)%R ->
      (ProbabilityModel._binaryProbability c1 r secs asset
       <= ProbabilityModel._binaryProbability c2 r secs asset)%R)
  /\ (forall asset r c,
         (0 < r)%R -> (r < c)%R ->
         forall eps, (0 < eps)%R ->
         exists delta, (0 < delta)%R /\
           forall secs, (0 < secs < delta)%R ->
             (Rabs (ProbabilityModel._binaryProbability c r secs asset - 1) < eps)%R)
  /\ (forall asset r c,
         (0 < c)%R -> (c < r)%R ->
         forall eps, (0 < eps)%R ->
         exists delta, (0 < delta)%R /\
           forall secs, (0 < secs < delta)%R ->
             (Rabs (ProbabilityModel._binaryProbability c r secs asset) < eps)%R)
  /\ (forall asset r c secs,
         (0 < r)%R -> c <> 0%R -> (secs <= 0)%R ->
         ProbabilityModel._binaryProbability c r secs asset
         = if Rlt_dec r c then 0.99%R else 0.01%R).
Proof.
  split; [| split; [| split]].
  - intros asset r secs c1 c2 Hr Hs Hc Hle.
    rewrite !ProbabilityFacts.binaryProbability_regular by lra.
    apply ProbabilityFacts.normalCDF_mono. now apply ProbabilityFacts.d2Of_mono.
  - intros asset r c. apply ProbabilityFacts.approaches_one.
  - intros asset r c. apply ProbabilityFacts.approaches_zero.
  - intros asset r c secs. apply ProbabilityFacts.at_expiry.
Qed.

(** BTC at 67000 against 67500 with an hour to go, and at expiry. *)
Lemma probability_monotone_and_limits_witness :
  (ProbabilityModel._binaryProbability 67000 67000 3600 "BTC"
   <= ProbabilityModel._binaryProbability 67500 67000 3600 "BTC")%R
  /\ ProbabilityModel._binaryProbability 67500 67000 0 "BTC"
     = (if Rlt_dec 67000 67500 then 0.99 else 0.01)%R.
Proof.
  destruct probability_monotone_and_limits as (Hmono & _ & _ & Hexp). split.
  - apply Hmono; lra.
  - apply Hexp; lra.
Defined.

(** * Further properties of the engine

    ** The signal engine *)

Lemma Qclamp_bounds lo hi x : lo <= hi -> lo <= Qclamp lo hi x <= hi.
Proof.
  intros H. unfold Qclamp. split.
  - apply Q.le_max_l.
  - apply Q.max_lub; [exact H | apply Q.le_min_l].
Qed.

Lemma maxAbs_small (cs : list Q) bound :
  0 < bound -> Forall (fun c => Qabs c < bound) cs ->
  fold_right Qmax 0 (List.map Qabs cs) < bound.
Proof.
  intros Hb H. induction H as [| c cs Hc _ IH]; cbn [List.map fold_right]; [exact Hb |].
  apply Q.max_lub_lt; assumption.
Qed.

Lemma maxAbs_large (cs : list Q) bound :
  Exists (fun c => bound <= Qabs c) cs ->
  bound <= fold_right Qmax 0 (List.map Qabs cs).
Proof.
  intros H. induction H as [c cs Hc | c cs _ IH]; cbn [List.map fold_right].
  - eapply Qle_trans; [exact Hc | apply Q.le_max_l].
  - eapply Qle_trans; [exact IH | apply Q.le_max_r].
Qed.

Lemma gains_nonneg (cs : list Q) :
  0 <= Qsum (List.map (fun c => if Qgtb c 0 then c else 0) cs).
Proof.
  induction cs as [| c cs IH]; cbn [List.map Qsum fold_right]; [discriminate |].
  fold (Qsum (List.map (fun c => if Qgtb c 0 then c else 0) cs)).
  destruct (Qgtb c 0) eqn:E; [apply Qltb_lt in E |]; lra.
Qed.

Lemma losses_nonneg (cs : list Q) :
  0 <= Qsum (List.map (fun c => if Qgtb c 0 then 0 else Qabs c) cs).
Proof.
  induction cs as [| c cs IH]; cbn [List.map Qsum fold_right]; [discriminate |].
  fold (Qsum (List.map (fun c => if Qgtb c 0 then 0 else Qabs c) cs)).
  pose proof (Qabs_nonneg c). destruct (Qgtb c 0); lra.
Qed.

Lemma no_losses (cs : list Q) :
  Forall (fun c => 0 <= c) cs ->
  Qsum (List.map (fun c => if Qgtb c 0 then 0 else Qabs c) cs) == 0.
Proof.
  intros H. induction H as [| c cs Hc _ IH]; cbn [List.map Qsum fold_right]; [reflexivity |].
  fold (Qsum (List.map (fun c => if Qgtb c 0 then 0 else Qabs c) cs)). rewrite IH.
  destruct (Qgtb c 0) eqn:E; [lra |].
  apply Qltb_ge in E. assert (c == 0) as -> by lra. reflexivity.
Qed.

Lemma no_gains (cs : list Q) :
  Forall (fun c => c <= 0) cs ->
  Qsum (List.map (fun c => if Qgtb c 0 then c else 0) cs) == 0.
Proof.
  intros H. induction H as [| c cs Hc _ IH]; cbn [List.map Qsum fold_right]; [reflexivity |].
  fold (Qsum (List.map (fun c => if Qgtb c 0 then c else 0) cs)). rewrite IH.
  destruct (Qgtb c 0) eqn:E; [apply Qltb_lt in E |]; lra.
Qed.

Lemma some_gain (cs : list Q) bound :
  0 < bound -> Forall (fun c => 0 <= c) cs -> Exists (fun c => bound <= Qabs c) cs ->
  0 < Qsum (List.map (fun c => if Qgtb c 0 then c else 0) cs).
Proof.
  intros Hb Hall Hex. induction Hex as [c cs Hc | c cs _ IH];
    cbn [List.map Qsum fold_right];
    fold (Qsum (List.map (fun c => if Qgtb c 0 then c else 0) cs));
    inversion Hall as [| ? ? Hc0 Hrest]; subst.
  - pose proof (gains_nonneg cs). rewrite Qabs_pos in Hc by exact Hc0.
    destruct (Qgtb c 0) eqn:E; [lra |]. apply Qltb_ge in E. lra.
  - specialize (IH Hrest). destruct (Qgtb c 0) eqn:E; [apply Qltb_lt in E |]; lra.
Qed.

Lemma some_loss (cs : list Q) bound :
  0 < bound -> Forall (fun c => c <= 0) cs -> Exists (fun c => bound <= Qabs c) cs ->
  0 < Qsum (List.map (fun c => if Qgtb c 0 then 0 else Qabs c) cs).
Proof.
  intros Hb Hall Hex. induction Hex as [c cs Hc | c cs _ IH];
    cbn [List.map Qsum fold_right];
    fold (Qsum (List.map (fun c => if Qgtb c 0 then 0 else Qabs c) cs));
    inversion Hall as [| ? ? Hc0 Hrest]; subst.
  - pose proof (losses_nonneg cs).
    destruct (Qgtb c 0) eqn:E; [apply Qltb_lt in E; lra | lra].
  - specialize (IH Hrest). pose proof (Qabs_nonneg c). destruct (Qgtb c 0); lra.
Qed.

Lemma Qeq_bool_quotient_zero a n : a == 0 -> Qeq_bool (a / n) 0 = true.
Proof. intros H. apply Qeq_bool_iff. rewrite H. unfold Qdiv. apply Qmult_0_l. Qed.

Lemma Qeq_bool_quotient_pos a n : 0 < a -> 0 < n -> Qeq_bool (a / n) 0 = false.
Proof.
  intros Ha Hn. apply not_true_iff_false. intros H. apply Qeq_bool_iff in H.
  assert (0 < a / n) by (apply Qlt_shift_div_l; lra). lra.
Qed.

(** X1. [_getRSI] always answers a value between 15 and 85, whatever the
    recorded prices.  With fewer than three sampled prices, or when every
    change between consecutive sampled prices is smaller than 0.01 in
    size, it answers 50.  With three or more sampled prices and a change
    of at least 0.01 in size, it answers 85 when no change is a loss and
    15 when no change is a gain. *)
Theorem rsi_within_bounds rp now asset :
  let prices := sampledPrices rp now asset RSI_PERIOD in
  let changes := changesOf prices in
  15 <= _getRSI rp now asset <= 85
  /\ ((length prices < 3)%nat -> _getRSI rp now asset = 50)
  /\ (Forall (fun c => Qabs c < 0.01) changes -> _getRSI rp now asset = 50)
  /\ ((3 <= length prices)%nat -> Exists (fun c => 0.01 <= Qabs c) changes ->
      (Forall (fun c => 0 <= c) changes -> _getRSI rp now asset = 85)
      /\ (Forall (fun c => c <= 0) changes -> _getRSI rp now asset = 15)).
Proof.
  cbv zeta. split; [| split; [| split]].
  - unfold _getRSI.
    destruct (Nat.ltb _ 3); [split; discriminate |].
    destruct (Qltb _ 0.01); [split; discriminate |].
    destruct (Qeq_bool _ 0).
    + destruct (Qeq_bool _ 0); split; discriminate.
    + destruct (Qeq_bool _ 0); [split; discriminate |].
      apply Qclamp_bounds. discriminate.
  - intros Hfew. unfold _getRSI. apply Nat.ltb_lt in Hfew. now rewrite Hfew.
  - intros Hflat. unfold _getRSI. destruct (Nat.ltb _ 3); [reflexivity |].
    assert (Qltb (fold_right Qmax 0
                    (List.map Qabs (changesOf (sampledPrices rp now asset RSI_PERIOD))))
                 0.01 = true) as ->; [| reflexivity].
    apply Qltb_lt. apply maxAbs_small; [reflexivity | exact Hflat].
  - intros Hlen Hmove. unfold _getRSI.
    apply Nat.ltb_ge in Hlen. rewrite Hlen.
    set (changes := changesOf (sampledPrices rp now asset RSI_PERIOD)) in *.
    assert (Qltb (fold_right Qmax 0 (List.map Qabs changes)) 0.01 = false) as ->
      by (apply Qltb_ge; now apply maxAbs_large).
    assert (0 < Qnat (length changes)) as Hn.
    { destruct Hmove; cbn [length]; unfold Qnat, Qlt; cbn; lia. }
    split; intros Hall.
    + rewrite (Qeq_bool_quotient_zero _ _ (no_losses changes Hall)).
      rewrite (Qeq_bool_quotient_pos _ _
                 (some_gain changes 0.01 eq_refl Hall Hmove) Hn).
      reflexivity.
    + rewrite (Qeq_bool_quotient_pos _ _
                 (some_loss changes 0.01 eq_refl Hall Hmove) Hn).
      rewrite (Qeq_bool_quotient_zero _ _ (no_gains changes Hall)).
      reflexivity.
Qed.

(** Five rising observations: every sampled change is a gain or none, so
    the index is pinned at 85. *)
Lemma rsi_within_bounds_witness : _getRSI youngSamples 21000 "BTC" = 85.
Proof.
  destruct (rsi_within_bounds youngSamples 21000 "BTC") as (_ & _ & _ & H).
  destruct H as [H _].
  - vm_compute. lia.
  - vm_compute. apply Exists_cons_tl, Exists_cons_tl, Exists_cons_tl, Exists_cons_hd.
    discriminate.
  - exact (H ltac:(vm_compute; repeat (constructor; [discriminate |]); constructor)).
Defined.

Lemma Qsign_range x : (-1 <= Qsign x <= 1)%Z.
Proof. unfold Qsign. destruct (Qgtb x 0); [lia |]. destruct (Qltb x 0); lia. Qed.

Lemma consistency_of_signs m1 m2 m3 m4 :
  0 <= inject_Z (Z.abs (fold_right Z.add 0%Z (List.map Qsign [m1; m2; m3; m4]))) / 4 <= 1.
Proof.
  cbn [List.map fold_right].
  pose proof (Qsign_range m1) as S1. pose proof (Qsign_range m2) as S2.
  pose proof (Qsign_range m3) as S3. pose proof (Qsign_range m4) as S4.
  assert (0 <= Z.abs (Qsign m1 + (Qsign m2 + (Qsign m3 + (Qsign m4 + 0)))) <= 4)%Z
    as [Hlo Hhi] by lia.
  split.
  - apply Qle_shift_div_l; [reflexivity |]. rewrite Qmult_0_l.
    change 0 with (inject_Z 0). now rewrite <- Zle_Qle.
  - apply Qle_shift_div_r; [reflexivity |]. rewrite Qmult_1_l.
    change 4 with (inject_Z 4). now rewrite <- Zle_Qle.
Qed.

Lemma graded_strength a c :
  0 <= a -> 0 <= c <= 1 -> 0 <= Qmin (a / MOM_STRONG) 1 * 0.6 + c * 0.4 <= 1.
Proof.
  intros Ha [Hc0 Hc1].
  assert (0 <= a / MOM_STRONG) as Hq.
  { apply Qle_shift_div_l; [reflexivity |]. now rewrite Qmult_0_l. }
  assert (0 <= Qmin (a / MOM_STRONG) 1) as Hm0 by (apply Q.min_glb; [exact Hq | discriminate]).
  assert (Qmin (a / MOM_STRONG) 1 <= 1) as Hm1 by apply Q.le_min_r.
  split; lra.
Qed.

Lemma Qmin_capped x c : 0 <= x -> 0 <= c -> 0 <= Qmin x c <= c.
Proof. intros Hx Hc. split; [now apply Q.min_glb | apply Q.le_min_r]. Qed.

Lemma raw_signal_spec rp now asset :
  let sig := _getSignalRaw rp now asset in
  (direction sig = 0 \/ direction sig = 1 \/ direction sig = -1)%Z
  /\ 0 <= strength sig <= 1
  /\ (direction sig = 0%Z -> strength sig = 0)
  /\ (forall first rest, rp !! asset = Some (first :: rest) ->
        (secsBetween now (ts first) < 90 -> strength sig <= 0.4)
        /\ (secsBetween now (ts first) < 180 -> strength sig <= 0.7)).
Proof.
  intros sig. subst sig. unfold _getSignalRaw.
  destruct (rp !! asset) as [[| first rest] |] eqn:Hrp.
  1, 3: cbn; repeat split; try (now left); try discriminate; intros; discriminate.
  change (default [] (Some (first :: rest))) with (first :: rest).
  cbv beta iota zeta.
  destruct (Nat.ltb _ 3).
  { cbn. repeat split; try (now left); try discriminate; intros ? ? [= <- <-]; discriminate. }
  destruct (Qltb (secsBetween now _) 30) eqn:Hage.
  { cbn. repeat split; try (now left); try discriminate; intros ? ? [= <- <-]; discriminate. }
  destruct (Qltb (Qabs _) MOM_WEAK).
  { cbn. repeat split; try (now left); try discriminate; intros ? ? [= <- <-]; discriminate. }
  match goal with
  | |- context [Qmin (Qabs ?x / MOM_STRONG) 1 * 0.6 + ?c * 0.4] =>
      pose proof (graded_strength (Qabs x) c (Qabs_nonneg x)
                    (consistency_of_signs _ _ _ _)) as [Hg0 Hg1];
      set (st0 := Qmin (Qabs x / MOM_STRONG) 1 * 0.6 + c * 0.4) in *;
      set (signal := x) in *
  end.
  cbn [direction strength].
  assert (0 <= Qmin st0 0.4 <= 0.4) as [Ha0 Ha1] by (apply Qmin_capped; [exact Hg0 | discriminate]).
  assert (0 <= Qmin st0 0.7 <= 0.7) as [Hb0 Hb1] by (apply Qmin_capped; [exact Hg0 | discriminate]).
  split; [destruct (Qgtb signal 0); auto |].
  split.
  { destruct (Qltb _ 90); [split; lra |]. destruct (Qltb _ 180); split; lra. }
  split.
  { destruct (Qgtb signal 0); discriminate. }
  intros f r [= <- <-]. split; intros Hlt.
  - apply Qltb_lt in Hlt. rewrite Hlt. exact Ha1.
  - destruct (Qltb _ 90); [lra |]. apply Qltb_lt in Hlt. rewrite Hlt. exact Hb1.
Qed.

(** X2. The raw momentum signal is graded: its direction is -1, 0 or 1,
    its strength lies between 0 and 1 and is 0 when the direction is 0;
    while the oldest recorded price is less than 90 seconds old the
    strength is at most 0.4, and at most 0.7 while it is less than 180
    seconds old. *)
Theorem raw_signal_is_graded rp now asset :
  let sig := _getSignalRaw rp now asset in
  (direction sig = 0 \/ direction sig = 1 \/ direction sig = -1)%Z
  /\ 0 <= strength sig <= 1
  /\ (direction sig = 0%Z -> strength sig = 0)
  /\ (forall first rest, rp !! asset = Some (first :: rest) ->
        (secsBetween now (ts first) < 90 -> strength sig <= 0.4)
        /\ (secsBetween now (ts first) < 180 -> strength sig <= 0.7)).
Proof. exact (raw_signal_spec rp now asset). Qed.

(** Prices recorded for one minute: the strength is capped at 0.4. *)
Lemma raw_signal_is_graded_witness : strength (_getSignalRaw youngSamples 61000 "BTC") <= 0.4.
Proof.
  destruct (raw_signal_is_graded youngSamples 61000 "BTC") as (_ & _ & _ & H).
  apply (H (obsAt 67000 1000) [obsAt 67100 6000; obsAt 67200 11000;
                               obsAt 67300 16000; obsAt 67400 21000]).
  - reflexivity.
  - vm_compute. reflexivity.
Defined.

Lemma raw_strength_nonneg rp now asset : 0 <= strength (_getSignalRaw rp now asset).
Proof. apply (raw_signal_spec rp now asset). Qed.

Lemma signal_spec msqrt rp now asset :
  direction (_getSignal msqrt rp now asset) = direction (_getSignalRaw rp now asset)
  /\ 0 <= strength (_getSignal msqrt rp now asset) <= 1.
Proof.
  unfold _getSignal.
  destruct (Z.eqb (direction (_getSignalRaw rp now asset)) 0) eqn:Hz.
  { apply Z.eqb_eq in Hz. rewrite Hz. cbn. repeat split; discriminate. }
  pose proof (raw_strength_nonneg rp now asset) as H0.
  set (raw := _getSignalRaw rp now asset) in *.
  cbv zeta.
  destruct (_getCrossAssetConsensus rp now) as [consensus agreement].
  destruct (_getVolumeRatio rp asset) as [ratio average].
  repeat match goal with
         | |- context [if ?c then _ else _] => destruct c
         end; cbn [direction strength]; (split; [reflexivity |]);
    (split; [apply Q.min_glb; [unfold BEAR_BOOST; nra | discriminate] | eapply Qle_trans; [apply Q.le_min_r | discriminate]]).
Qed.
(** X3. The boosted signal of [_getSignal] keeps the direction of the raw
    signal, and whatever boosts and penalties apply (RSI, Bollinger,
    cross-asset consensus, bear asymmetry, volume) its strength stays
    between 0 and 1. *)
Theorem signal_keeps_direction_and_range msqrt rp now asset :
  direction (_getSignal msqrt rp now asset) = direction (_getSignalRaw rp now asset)
  /\ 0 <= strength (_getSignal msqrt rp now asset) <= 1.
Proof. exact (signal_spec msqrt rp now asset). Qed.

Lemma raw_direction_cases rp now asset :
  (direction (_getSignalRaw rp now asset) = 0
   \/ direction (_getSignalRaw rp now asset) = 1
   \/ direction (_getSignalRaw rp now asset) = -1)%Z.
Proof. apply (raw_signal_spec rp now asset). Qed.

Lemma unit_votes_sum (ds : list Z) :
  Forall (fun d => d = 1 \/ d = -1)%Z ds ->
  (Z.abs (fold_right Z.add 0 ds) <= Z.of_nat (length ds))%Z.
Proof.
  induction 1 as [| d ds Hd _ IH]; cbn [fold_right length]; [lia |].
  destruct Hd as [-> | ->]; lia.
Qed.

Lemma nonflat_votes (ds : list Z) :
  Forall (fun d => d = 0 \/ d = 1 \/ d = -1)%Z ds ->
  Forall (fun d => d = 1 \/ d = -1)%Z (List.filter (fun d => negb (Z.eqb d 0)) ds).
Proof.
  induction 1 as [| d ds Hd _ IH]; cbn [List.filter]; [constructor |].
  destruct (Z.eqb_spec d 0) as [-> | Hn]; cbn [negb]; [exact IH |].
  constructor; [| exact IH]. destruct Hd as [-> | Hd]; [contradiction | exact Hd].
Qed.

(** X4. The cross-asset consensus is -1, 0 or 1 and the agreement lies
    between 0 and 1; with fewer than two assets that have a direction
    both are 0. *)
Theorem consensus_is_a_vote rp now :
  let dirs := List.filter (fun d => negb (Z.eqb d 0))
                (List.map (fun a => direction (_getSignalRaw rp now a)) ["BTC"; "ETH"; "SOL"]) in
  let cross := _getCrossAssetConsensus rp now in
  (fst cross = 0 \/ fst cross = 1 \/ fst cross = -1)%Z
  /\ 0 <= snd cross <= 1
  /\ ((length dirs < 2)%nat -> cross = (0%Z, 0)).
Proof.
  intros dirs cross. subst cross. unfold _getCrossAssetConsensus. fold dirs.
  assert (Forall (fun d => d = 1 \/ d = -1)%Z dirs) as Hvotes.
  { apply nonflat_votes. cbn [List.map].
    do 3 (constructor; [apply raw_direction_cases |]). constructor. }
  pose proof (unit_votes_sum dirs Hvotes) as Hsum.
  destruct (Nat.ltb (length dirs) 2) eqn:Hlen.
  { cbn [fst snd]. repeat split; try (now left); discriminate. }
  apply Nat.ltb_ge in Hlen. cbn [fst snd].
  split; [destruct (fold_right Z.add 0%Z dirs); cbn; auto |].
  split; [| intros Hlt; lia].
  assert (0 < Qnat (length dirs)) as Hpos.
  { unfold Qnat. change 0 with (inject_Z 0). rewrite <- Zlt_Qlt. lia. }
  split.
  - apply Qle_shift_div_l; [exact Hpos |]. rewrite Qmult_0_l.
    change 0 with (inject_Z 0). rewrite <- Zle_Qle. lia.
  - apply Qle_shift_div_r; [exact Hpos |]. rewrite Qmult_1_l.
    unfold Qnat. now rewrite <- Zle_Qle.
Qed.

(** Two observations per asset: nobody votes. *)
Lemma consensus_is_a_vote_witness : _getCrossAssetConsensus twoSamples 600000 = (0%Z, 0).
Proof.
  destruct (consensus_is_a_vote twoSamples 600000) as (_ & _ & H).
  apply H. vm_compute. lia.
Defined.
Lemma chain_snoc {A} (R : A -> A -> Prop) l x :
  chain R l -> Forall (fun y => R y x) l -> chain R (l ++ [x]).
Proof.
  induction l as [| a l IH]; cbn [chain app]; intros Hc Hf.
  - split; [constructor | exact I].
  - destruct Hc as [Ha Hc]. inversion Hf as [| ? ? Hax Hf']; subst. split.
    + apply Forall_app. split; [exact Ha | now constructor].
    + now apply IH.
Qed.

Lemma chain_rev {A} (R : A -> A -> Prop) l : chain R l -> chain (fun a b => R b a) (rev l).
Proof.
  induction l as [| a l IH]; cbn [chain rev]; [trivial |].
  intros [Ha Hc]. apply chain_snoc; [now apply IH |].
  apply Forall_rev. exact Ha.
Qed.

Lemma nearestFrom_nearest target rest : forall best,
  chain (fun a b => (ts b < ts a)%Z) (best :: rest) ->
  let r := nearestFrom target best (stampDistance target best) rest in
  snd r = stampDistance target (fst r)
  /\ In (fst r) (best :: rest)
  /\ Forall (fun x => (snd r <= stampDistance target x)%Z) (best :: rest).
Proof.
  induction rest as [| o rest IH]; intros best Hc; cbn [nearestFrom].
  - cbn [fst snd]. split; [reflexivity |]. split; [now left |].
    constructor; [lia | constructor].
  - destruct Hc as [Hbest Hc]. inversion Hbest as [| ? ? Hob Hrest]; subst.
    fold (stampDistance target o).
    destruct (Z.ltb_spec (stampDistance target o) (stampDistance target best)) as [Hlt | Hge].
    + destruct (IH o Hc) as (Hd & Hin & Hall). split; [exact Hd |].
      split; [now right |].
      constructor; [| exact Hall].
      inversion Hall as [| ? ? Ho _]; subst. lia.
    + cbn [fst snd]. split; [reflexivity |]. split; [now left |].
      constructor; [lia |].
      destruct Hc as [Ho _].
      assert (ts o < target)%Z as Hbelow by (unfold stampDistance in *; lia).
      constructor; [exact Hge |].
      eapply Forall_impl; [exact Ho |]. cbn beta. intros x Hx.
      unfold stampDistance in *. lia.
Qed.

(** X5. When the observations of an asset carry strictly increasing
    time stamps, [_getPriceAtTime] answers the price of an observation
    that is nearest in time to the target [now - secsAgo * 1000], and it
    answers only when that observation is less than 120 seconds from the
    target; without observations it answers [null]. *)
Theorem price_lookup_is_nearest rp now asset secsAgo :
  let hist := default [] (rp !! asset) in
  let target := (now - secsAgo * 1000)%Z in
  stampsIncrease hist ->
  match _getPriceAtTime rp now asset secsAgo with
  | Some p =>
      exists o, In o hist /\ price o = p
                /\ (stampDistance target o < 120000)%Z
                /\ Forall (fun x => (stampDistance target o <= stampDistance target x)%Z) hist
  | None =>
      Forall (fun x => (120000 <= stampDistance target x)%Z) hist
  end.
Proof.
  intros hist target Hinc. unfold _getPriceAtTime. fold hist. fold target.
  apply chain_rev in Hinc.
  assert (forall P : PriceObs -> Prop, Forall P (rev hist) -> Forall P hist) as Hback.
  { intros P HP. apply Forall_rev in HP. now rewrite rev_involutive in HP. }
  assert (forall x, In x (rev hist) -> In x hist) as Hin' by (intros x; apply in_rev).
  destruct (rev hist) as [| o rest]; [apply Hback; constructor |].
  pose proof (nearestFrom_nearest target rest o Hinc) as H.
  fold (stampDistance target o).
  destruct (nearestFrom target o (stampDistance target o) rest) as [best bestDist].
  cbn [fst snd] in H. destruct H as (Hd & Hin & Hall). subst bestDist.
  destruct (Z.ltb_spec (stampDistance target best) 120000) as [Hlt | Hge].
  - exists best. split; [now apply Hin' |]. split; [reflexivity |].
    split; [exact Hlt | now apply Hback].
  - apply Hback. eapply Forall_impl; [exact Hall |]. cbn beta. intros x Hx. lia.
Qed.

(** The price 40 seconds before the last of [youngSamples]. *)
Lemma price_lookup_is_nearest_witness :
  exists o, In o (default [] (youngSamples !! "BTC"%string))
            /\ price o = 67200 /\ (stampDistance 11000 o < 120000)%Z.
Proof.
  pose proof (price_lookup_is_nearest youngSamples 21000 "BTC" 10) as H.
  cbv zeta in H.
  assert (stampsIncrease (default [] (youngSamples !! "BTC"%string))) as Hinc.
  { vm_compute. repeat (split; [repeat constructor |]). exact I. }
  specialize (H Hinc).
  change (_getPriceAtTime youngSamples 21000 "BTC" 10) with (Some 67200) in H.
  destruct H as (o & Hin & Hp & Hd & _). exists o. repeat split; assumption.
Defined.

(** ** Bet sizing, probability estimate and Kelly fraction *)

Lemma pickTier_scout conv : conv < 0.30 -> fixed (pickTier conv) = PROBE_SIZE.
Proof.
  intros H. unfold pickTier.
  assert (Qgeb conv 0.95 = false) as -> by (apply Qleb_gt; lra).
  assert (forall lo, 0.30 <= lo -> Qgeb conv lo = false) as Hlo
    by (intros lo Hl; apply Qleb_gt; lra).
  cbn [BET_TIERS List.find minConv maxConv].
  destruct (Qgeb conv 0.00 && Qltb conv 0.30); [reflexivity |].
  rewrite !Hlo by discriminate. reflexivity.
Qed.

(** X6. The tiered bet of [_calculateBetSize] is never below the $1
    minimum, whatever the bankroll, and never above 98% of the bankroll
    rounded to cents when that is more than $1; a conviction below 0.30
    always bets exactly $1. *)
Theorem bet_size_floor_and_cap conv bank :
  1 <= fst (_calculateBetSize conv bank)
  /\ fst (_calculateBetSize conv bank) <= Qmax 1 (roundTo 100 (bank * 0.98))
  /\ (conv < 0.30 -> fst (_calculateBetSize conv bank) == 1).
Proof.
  unfold _calculateBetSize. cbv zeta. cbn [fst].
  set (raw := if Qgtb (fixed (pickTier conv)) 0 then _ else _).
  assert (roundTo 100 1 == 1) as Hone by reflexivity.
  split; [| split].
  - rewrite <- Hone at 1. apply roundTo_mono; [lia |]. apply Q.le_max_l.
  - destruct (Qmax_cases PROBE_SIZE (Qmin raw (bank * 0.98))) as [[Hle He] | [Hle He]].
    + eapply Qle_trans; [| apply Q.le_max_l].
      rewrite <- Hone. apply roundTo_mono; [lia |]. rewrite He. apply Qle_refl.
    + eapply Qle_trans; [| apply Q.le_max_r].
      apply roundTo_mono; [lia |]. rewrite He. apply Q.le_min_r.
  - intros Hc. subst raw. rewrite (pickTier_scout conv Hc).
    change (Qgtb PROBE_SIZE 0) with true. cbv iota.
    assert (Qmax PROBE_SIZE (Qmin PROBE_SIZE (bank * 0.98)) == 1) as He.
    { apply Q.max_l. apply Q.le_min_l. }
    unfold roundTo, Math_round. rewrite He. reflexivity.
Qed.

(** A conviction of 0.2 against a bankroll of 50 cents. *)
Lemma bet_size_floor_and_cap_witness : fst (_calculateBetSize 0.2 0.5) == 1.
Proof.
  destruct (bet_size_floor_and_cap 0.2 0.5) as (_ & _ & H). apply H. reflexivity.
Defined.

(** X7. For a market price [0 <= m < 1] and a model probability
    [m < q < 1], [_kellySize] is a quarter of the Kelly fraction
    [(q - m) / (1 - m)]: positive and at most 0.25.  When the model
    probability does not exceed the market price it is 0. *)
Theorem kelly_is_quarter_kelly modelProb marketPrice :
  (modelProb <= marketPrice -> _kellySize modelProb marketPrice = 0)
  /\ (0 <= marketPrice -> marketPrice < modelProb -> modelProb < 1 ->
      _kellySize modelProb marketPrice
      == KELLY_FRACTION * ((modelProb - marketPrice) / (1 - marketPrice))
      /\ 0 < _kellySize modelProb marketPrice <= 0.25).
Proof.
  unfold _kellySize. split.
  - intros H. apply Qleb_le in H. now rewrite H.
  - intros Hm Hlt H1.
    assert (Qleb modelProb marketPrice = false) as -> by (apply Qleb_gt; exact Hlt).
    cbv zeta.
    set (k := (modelProb - marketPrice) / (1 - marketPrice)).
    assert ((modelProb / (1 - modelProb) - marketPrice / (1 - marketPrice))
            / (1 + modelProb / (1 - modelProb)) * KELLY_FRACTION
            == KELLY_FRACTION * k) as He.
    { unfold k, KELLY_FRACTION. field. repeat split; lra. }
    assert (0 < k) as Hk0.
    { unfold k. apply Qlt_shift_div_l; lra. }
    assert (k <= 1) as Hk1.
    { unfold k. apply Qle_shift_div_r; lra. }
    assert (Qmax 0 (KELLY_FRACTION * k) == KELLY_FRACTION * k) as Hmax.
    { apply Q.max_r. unfold KELLY_FRACTION. lra. }
    rewrite He, Hmax. unfold KELLY_FRACTION. split; [reflexivity |]. split; lra.
Qed.

(** A 60% estimate against a price of 0.50: a tenth of a quarter... *)
Lemma kelly_is_quarter_kelly_witness : _kellySize 0.6 0.5 == 0.05.
Proof.
  destruct (kelly_is_quarter_kelly 0.6 0.5) as [_ H].
  destruct H as [H _]; [discriminate | reflexivity | reflexivity |].
  rewrite H. reflexivity.
Defined.

Lemma signal_strength_nonneg msqrt rp now asset : 0 <= strength (_getSignal msqrt rp now asset).
Proof. apply (signal_spec msqrt rp now asset). Qed.

Lemma Qmin_le_both a b c : a <= c \/ b <= c -> Qmin a b <= c.
Proof.
  intros [H | H]; [eapply Qle_trans; [apply Q.le_min_l | exact H]
                  | eapply Qle_trans; [apply Q.le_min_r | exact H]].
Qed.

(** X8. For a market price between 0.05 and 0.95 the estimate of
    [_estimateProbability] also lies between 0.05 and 0.95.  When the
    boosted signal does not point to the side (it is flat or points the
    other way) and the market price is between 0.05 and 0.70, the
    estimate does not exceed the market price, so that the Kelly fraction
    the entry scanner computes from it is 0. *)
Theorem estimate_needs_a_supporting_signal msqrt rp now asset sd marketPrice secsLeft
    totalSecs :
  let est := _estimateProbability msqrt rp now asset sd marketPrice secsLeft totalSecs in
  0.05 <= marketPrice ->
  (marketPrice <= 0.95 -> 0.05 <= est <= 0.95)
  /\ (direction (_getSignal msqrt rp now asset) <> sideDir sd -> marketPrice <= 0.70 ->
      est <= marketPrice /\ _kellySize est marketPrice = 0).
Proof.
  intros est Hlo. subst est. unfold _estimateProbability. cbv zeta.
  pose proof (signal_strength_nonneg msqrt rp now asset) as Hs.
  set (sig := _getSignal msqrt rp now asset) in *.
  set (prob0 := if Z.eqb (direction sig) (sideDir sd) then _ else _).
  split.
  - intros Hhi.
    assert (0.05 <= prob0 <= 0.95) as [Hp0 Hp1].
    { subst prob0. destruct (Z.eqb (direction sig) (sideDir sd)).
      - split; [apply Q.min_glb; [discriminate | lra] | apply Q.le_min_l].
      - destruct (negb _ && negb _).
        + split; [apply Q.le_max_l | apply Q.max_lub; lra].
        + split; assumption. }
    destruct (Qgtb totalSecs 0); [| split; assumption].
    destruct (Qgtb (1 - secsLeft / totalSecs) 0.6) eqn:He; cbn [andb];
      [| split; assumption].
    apply Qltb_lt in He.
    destruct (Qgtb marketPrice 0.7).
    + split; [apply Q.min_glb; [discriminate | lra] | apply Q.le_min_l].
    + destruct (Qltb marketPrice 0.3); [| split; assumption].
      split; [apply Q.le_max_l | apply Q.max_lub; lra].
  - intros Hdir Hhi.
    assert (prob0 <= marketPrice) as Hp.
    { subst prob0. destruct (Z.eqb_spec (direction sig) (sideDir sd)); [contradiction |].
      destruct (negb _ && negb _); [apply Q.max_lub; lra | apply Qle_refl]. }
    match goal with
    | |- ?e <= _ /\ _ => assert (e <= marketPrice) as Hle
    end.
    { destruct (Qgtb totalSecs 0); [| exact Hp].
      destruct (Qgtb (1 - secsLeft / totalSecs) 0.6) eqn:He; cbn [andb]; [| exact Hp].
      apply Qltb_lt in He.
      assert (Qgtb marketPrice 0.7 = false) as -> by (apply Qltb_ge; lra).
      destruct (Qltb marketPrice 0.3); [| exact Hp].
      apply Q.max_lub; lra. }
    split; [exact Hle |].
    unfold _kellySize. apply Qleb_le in Hle. now rewrite Hle.
Qed.

(** No recorded prices: the signal is flat and a token at 0.50 has no
    Kelly fraction. *)
Lemma estimate_needs_a_supporting_signal_witness :
  _kellySize (_estimateProbability approxSqrt ∅ 0 "BTC" UP 0.5 3600 86400) 0.5 = 0.
Proof.
  destruct (estimate_needs_a_supporting_signal approxSqrt ∅ 0 "BTC" UP 0.5 3600 86400)
    as [_ H]; [discriminate |].
  apply H; [vm_compute; discriminate | discriminate].
Defined.

Ltac split_ifs :=
  repeat match goal with
         | |- context [if ?c then _ else _] => destruct c
         end.

Lemma scoreRSI_range sd rsi : 0 <= scoreRSI sd rsi <= 15.
Proof. unfold scoreRSI. cbv zeta. split_ifs; split; discriminate. Qed.

Lemma scoreBollinger_range sd bb : 2 <= scoreBollinger sd bb <= 10.
Proof. unfold scoreBollinger. split_ifs; split; discriminate. Qed.

Lemma scoreCross_range sd cross : 0 <= scoreCross sd cross <= 15.
Proof. unfold scoreCross. cbv zeta. split_ifs; split; discriminate. Qed.

Lemma scoreVolume_range v : 0 <= scoreVolume v <= 10.
Proof. unfold scoreVolume. split_ifs; split; discriminate. Qed.

Lemma scoreEdge_range e : 0 <= scoreEdge e <= 15.
Proof. unfold scoreEdge. split_ifs; split; discriminate. Qed.

Lemma scoreProbe_range r : 0 <= scoreProbe r <= 10.
Proof. unfold scoreProbe. split_ifs; split; discriminate. Qed.

(** X9. The conviction of [_calculateConviction] is a score between 0.02
    and 1 for every signal of strength between 0 and 1, whatever the
    prices, oracle data and probe records; it is the weighted sum of the
    seven factors divided by 100, the cap at 1 never being needed. *)
Theorem conviction_is_a_score msqrt now asset sd sig entryPrice s f :
  0 <= strength sig <= 1 ->
  let c := _calculateConviction msqrt now asset sd sig entryPrice s f in
  0.02 <= convValue c <= 1
  /\ convValue c
     == (scoreSignal sig
         + scoreRSI sd (_getRSI (Oracle._realPrices f) now asset)
         + scoreBollinger sd (_getBollinger msqrt (Oracle._realPrices f) now asset)
         + scoreCross sd (_getCrossAssetConsensus (Oracle._realPrices f) now)
         + scoreVolume (_getVolumeRatio (Oracle._realPrices f) asset)
         + scoreEdge (Edge.edge (_getPredictiveEdge now asset sd entryPrice f))
         + scoreProbe (_getProbeRecord (_probeKey asset sd (sigReason sig)) s)) / 100.
Proof.
  intros [Hs0 Hs1] c. subst c. unfold _calculateConviction. cbv zeta. cbn [convValue].
  pose proof (scoreRSI_range sd (_getRSI (Oracle._realPrices f) now asset)) as H1.
  pose proof (scoreBollinger_range sd (_getBollinger msqrt (Oracle._realPrices f) now asset))
    as H2.
  pose proof (scoreCross_range sd (_getCrossAssetConsensus (Oracle._realPrices f) now)) as H3.
  pose proof (scoreVolume_range (_getVolumeRatio (Oracle._realPrices f) asset)) as H4.
  pose proof (scoreEdge_range (Edge.edge (_getPredictiveEdge now asset sd entryPrice f)))
    as H5.
  pose proof (scoreProbe_range (_getProbeRecord (_probeKey asset sd (sigReason sig)) s))
    as H6.
  assert (0 <= scoreSignal sig <= 25) as H0 by (unfold scoreSignal; split; lra).
  set (score := scoreSignal sig + _ + _ + _ + _ + _ + _) in *.
  assert (2 <= score <= 100) as [Hlo Hhi] by (subst score; split; lra).
  assert (score / (25 + 15 + 10 + 15 + 10 + 15 + 10) == score / 100) as He
    by (apply Qdiv_comp; reflexivity).
  assert (0.02 <= score / 100) as Hd0
    by (apply Qle_shift_div_l; [reflexivity | lra]).
  assert (score / 100 <= 1) as Hd1
    by (apply Qle_shift_div_r; [reflexivity | lra]).
  assert (Qmin (score / (25 + 15 + 10 + 15 + 10 + 15 + 10)) 1.0 == score / 100) as Hmin.
  { rewrite He. apply Q.min_l. lra. }
  rewrite Hmin. repeat split; assumption || reflexivity.
Qed.

(** A full-strength bull signal with nothing else known. *)
Lemma conviction_is_a_score_witness :
  0.02 <= convValue (_calculateConviction approxSqrt 0 "BTC" UP
                       {| direction := 1; strength := 1; sigReason := "bull-strong" |}
                       0.5 started noFeeds) <= 1.
Proof.
  apply (conviction_is_a_score approxSqrt 0 "BTC" UP
           {| direction := 1; strength := 1; sigReason := "bull-strong" |} 0.5 started noFeeds).
  split; discriminate.
Defined.

(** [_assessEntryViability] lets every entry pass when no crypto
    price is known.  When one is known, an entry it lets pass is priced
    at 0.08 or more, has at least two hours left if it is priced below
    0.15, and at least one hour left if it is priced below 0.25. *)
Theorem viable_entries_are_priced_and_timed msqrt mlog now asset entryPrice secsLeft f :
  let v := _assessEntryViability msqrt mlog now asset entryPrice secsLeft f in
  (_getCryptoPrice now asset f = None -> viable v = true)
  /\ (forall cryptoNow,
        _getCryptoPrice now asset f = Some cryptoNow -> ~ cryptoNow == 0 ->
        viable v = true ->
        0.08 <= entryPrice
        /\ (entryPrice < 0.15 -> 120 <= secsLeft / 60)
        /\ (entryPrice < 0.25 -> 60 <= secsLeft / 60)).
Proof.
  intros v. subst v. unfold _assessEntryViability. split.
  - intros ->. reflexivity.
  - intros c -> Hc. apply truthy_true in Hc. rewrite Hc. cbn [negb]. cbv zeta.
    destruct (Qltb entryPrice 0.15) eqn:H15, (Qltb (secsLeft / 60) 120) eqn:H120;
      cbn [andb]; try discriminate;
      destruct (Qltb entryPrice 0.08) eqn:H08; try discriminate;
      destruct (Qltb entryPrice 0.25) eqn:H25, (Qltb (secsLeft / 60) 60) eqn:H60;
      cbn [andb]; try discriminate; intros _;
      try apply Qltb_lt in H15; try apply Qltb_ge in H15;
      try apply Qltb_lt in H120; try apply Qltb_ge in H120;
      try apply Qltb_ge in H08;
      try apply Qltb_lt in H25; try apply Qltb_ge in H25;
      try apply Qltb_lt in H60; try apply Qltb_ge in H60;
      (split; [exact H08 |]); split; intros; lra.
Qed.

(** A token at 0.50 with an hour left, BTC quoted by the exchange feed. *)
Lemma viable_entries_are_priced_and_timed_witness :
  0.08 <= 0.5 /\ (0.5 < 0.15 -> 120 <= 3600 / 60) /\ (0.5 < 0.25 -> 60 <= 3600 / 60).
Proof.
  destruct (viable_entries_are_priced_and_timed approxSqrt approxSqrt 21000 "BTC" 0.5 3600
              exchangeOnly) as [_ H].
  apply (H 67400); [reflexivity | discriminate | vm_compute; reflexivity].
Defined.

(** ** Execution in paper mode and the dust rule of live exits *)

Lemma roundTo_10000_floor x : 0.001 <= x -> 0.001 <= roundTo 10000 x.
Proof.
  intros H. assert (roundTo 10000 0.001 == 0.001) as He by reflexivity.
  rewrite <- He. apply roundTo_mono; [lia | exact H].
Qed.

(** X10. In paper mode an entry never touches the order client.  It
    fails exactly when the token has a book with no ask depth and no
    asks, and then changes nothing; otherwise it counts one fill and,
    when the spread is not negative, fills at the mid price or above (to
    four decimals). *)
Theorem paper_entry_pays_the_spread tokenId betSize midPrice s :
  liveClient s = None ->
  let r := _simulateEntry tokenId betSize midPrice s in
  clientCalls (snd r) = clientCalls s
  /\ (fst r = None <->
      exists b, _orderbooks s !! tokenId = Some b
                /\ askDepth b == 0 /\ asksEmpty b = true)
  /\ match fst r with
     | None => snd r = s
     | Some f =>
         fills (_executionStats (snd r)) = S (fills (_executionStats s))
         /\ failures (_executionStats (snd r)) = failures (_executionStats s)
         /\ ((forall b, _orderbooks s !! tokenId = Some b -> 0 <= spread b) ->
             roundTo 10000 midPrice <= execPrice f)
     end.
Proof.
  intros Hlive r. subst r. unfold _simulateEntry. rewrite Hlive. cbv zeta.
  assert (match _orderbooks s !! tokenId with
          | Some b => Qeq_bool (askDepth b) 0 && asksEmpty b
          | None => false
          end = true <->
          exists b, _orderbooks s !! tokenId = Some b
                    /\ askDepth b == 0 /\ asksEmpty b = true) as Hfail.
  { destruct (_orderbooks s !! tokenId) as [b |].
    - rewrite andb_true_iff, Qeq_bool_iff. split.
      + intros [Hd He]. exists b. auto.
      + intros (b' & Hb & Hd & He). injection Hb as <-. auto.
    - split; [discriminate | intros (b & Hb & _); discriminate]. }
  destruct (match _orderbooks s !! tokenId with
            | Some b => Qeq_bool (askDepth b) 0 && asksEmpty b
            | None => false
            end); cbn [fst snd].
  { split; [reflexivity |]. split; [| reflexivity].
    split; [intros _; now apply Hfail | reflexivity]. }
  split; [reflexivity |].
  split; [split; [discriminate | intros H; apply Hfail in H; discriminate] |].
  split; [reflexivity |]. split; [reflexivity |].
  intros Hspread. cbn [execPrice]. apply roundTo_mono; [lia |].
  assert (0 <= match _orderbooks s !! tokenId with
               | Some b => spread b
               | None => 0.01
               end * SPREAD_COST_ENTRY) as Hcost.
  { unfold SPREAD_COST_ENTRY. destruct (_orderbooks s !! tokenId) as [b |].
    - specialize (Hspread b eq_refl). lra.
    - discriminate. }
  destruct (Qgtb betSize SIZE_IMPACT_THRESHOLD) eqn:Hbig; cbn [andb]; [| lra].
  apply Qltb_lt in Hbig.
  destruct (Qgtb _ 0); [| lra].
  unfold SIZE_IMPACT_FACTOR, SIZE_IMPACT_THRESHOLD in *. lra.
Qed.

(** A paper buy of $2 at a mid of 0.40 without a book. *)
Lemma paper_entry_pays_the_spread_witness :
  clientCalls (snd (_simulateEntry "tok-up" 2 0.40 started)) = [].
Proof.
  destruct (paper_entry_pays_the_spread "tok-up" 2 0.40 started) as [H _].
  - reflexivity.
  - exact H.
Defined.

(** X11. In paper mode a forced exit always fills, without touching the
    order client: it counts one fill and the fill price is at least 0.001,
    and not above the mid price (to four decimals, and with the floor of
    0.001) when the spread is not negative. *)
Theorem paper_forced_exit_always_fills tokenId position midPrice now s :
  liveClient s = None ->
  exists f,
    fst (_simulateExit tokenId position midPrice true now s) = Some f
    /\ 0.001 <= execPrice f
    /\ ((forall b, _orderbooks s !! tokenId = Some b -> 0 <= spread b) ->
        execPrice f <= roundTo 10000 (Qmax 0.001 midPrice))
    /\ clientCalls (snd (_simulateExit tokenId position midPrice true now s)) = clientCalls s
    /\ fills (_executionStats (snd (_simulateExit tokenId position midPrice true now s)))
       = S (fills (_executionStats s)).
Proof.
  intros Hlive. unfold _simulateExit. rewrite Hlive. cbv zeta.
  assert (match _orderbooks s !! tokenId with
          | Some b => Qeq_bool (bidDepth b) 0 && bidsEmpty b && negb true
          | None => false
          end = false) as ->.
  { destruct (_orderbooks s !! tokenId); [| reflexivity].
    cbn [negb]. now rewrite andb_false_r. }
  eexists. cbn [fst snd execPrice]. split; [reflexivity |].
  split; [apply roundTo_10000_floor, Q.le_max_l |].
  split; [| split; reflexivity].
  intros Hspread. apply roundTo_mono; [lia |].
  set (eff := if Qltb _ 15 then _ else _).
  assert (0 <= eff * SPREAD_COST_EXIT) as Hcost.
  { subst eff. unfold SPREAD_COST_EXIT, LATE_EXIT_SPREAD_MULT.
    assert (0 <= match _orderbooks s !! tokenId with
                 | Some b => spread b
                 | None => 0.01
                 end) as Hs.
    { destruct (_orderbooks s !! tokenId) as [b |]; [exact (Hspread b eq_refl) | discriminate]. }
    destruct (Qltb _ 15); lra. }
  apply Q.max_lub; [apply Q.le_max_l |].
  eapply Qle_trans; [| apply Q.le_max_r].
  destruct (Qgtb (Position.size position * midPrice) SIZE_IMPACT_THRESHOLD) eqn:Hbig;
    cbn [andb]; [| lra].
  apply Qltb_lt in Hbig.
  destruct (Qgtb _ 0); [| lra].
  unfold SIZE_IMPACT_FACTOR, SIZE_IMPACT_THRESHOLD in *. lra.
Qed.

(** The daily position of the examples, force-sold at a mid of 0.30. *)
Lemma paper_forced_exit_always_fills_witness :
  exists f, fst (_simulateExit "tok-up" dailyPos 0.30 true t0 started) = Some f
            /\ 0.001 <= execPrice f.
Proof.
  destruct (paper_forced_exit_always_fills "tok-up" dailyPos 0.30 t0 started eq_refl)
    as (f & Hf & Hp & _).
  exists f. split; assumption.
Defined.

(** X12. In live trading a position of less than one share (after
    rounding down to hundredths) is never sold: [_simulateExit] answers
    [null] at once, places no order and counts no failure, forced or
    not. *)
Theorem live_exit_skips_dust tokenId position midPrice isForced now s oc :
  liveClient s = Some oc ->
  floorCents (Position.size position) < 1 ->
  _simulateExit tokenId position midPrice isForced now s = (None, s).
Proof.
  intros Hlive Hdust. unfold _simulateExit. rewrite Hlive. cbv zeta.
  apply Qltb_lt in Hdust. now rewrite Hdust.
Qed.

(** Half a share under a forced exit, live. *)
Lemma live_exit_skips_dust_witness :
  _simulateExit "tok-up" dust 0.30 true t0 (stateWith [dust] 4 0 [] (Some unmatchedClient))
  = (None, stateWith [dust] 4 0 [] (Some unmatchedClient)).
Proof.
  apply (live_exit_skips_dust "tok-up" dust 0.30 true t0
           (stateWith [dust] 4 0 [] (Some unmatchedClient)) unmatchedClient).
  - reflexivity.
  - reflexivity.
Defined.

(** ** Oracle and exchange feeds *)

Lemma storePositive_cons e prices table :
  storePositive (e :: prices) table
  = storePositive prices
      (if truthy (snd e) && Qgtb (snd e) 0 then <[fst e := snd e]> table else table).
Proof. reflexivity. Qed.

Lemma storePositive_other prices : forall table asset,
  ~ In asset (List.map fst prices) -> storePositive prices table !! asset = table !! asset.
Proof.
  induction prices as [| e prices IH]; intros table asset Hnot; [reflexivity |].
  rewrite storePositive_cons. cbn [List.map In] in Hnot.
  rewrite IH by tauto.
  destruct (truthy (snd e) && Qgtb (snd e) 0); [| reflexivity].
  apply lookup_insert_ne. tauto.
Qed.

Lemma positive_is_stored v : 0 < v -> truthy v && Qgtb v 0 = true.
Proof.
  intros H. apply andb_true_intro. split.
  - apply truthy_true. lra.
  - now apply Qltb_lt.
Qed.

Lemma storePositive_stored prices : forall table asset v,
  NoDup (List.map fst prices) -> In (asset, v) prices -> 0 < v ->
  storePositive prices table !! asset = Some v.
Proof.
  induction prices as [| e prices IH]; intros table asset v Hnd Hin Hv; [contradiction |].
  rewrite storePositive_cons. cbn [List.map] in Hnd. apply NoDup_cons in Hnd as [Hfresh Hnd].
  destruct Hin as [-> | Hin].
  - cbn [fst snd] in *. rewrite list_elem_of_In in Hfresh.
    rewrite storePositive_other by exact Hfresh.
    rewrite positive_is_stored by exact Hv. apply lookup_insert_eq.
  - now apply IH.
Qed.

Lemma storePositive_rejected prices : forall table asset,
  (forall v, In (asset, v) prices -> v <= 0) ->
  storePositive prices table !! asset = table !! asset.
Proof.
  induction prices as [| [a v] prices IH]; intros table asset Hall; [reflexivity |].
  rewrite storePositive_cons. cbn [fst snd].
  rewrite IH by (intros w Hw; apply Hall; now right).
  destruct (truthy v && Qgtb v 0) eqn:Hok; [| reflexivity].
  destruct (String.eqb_spec a asset) as [-> | Hne]; [| now apply lookup_insert_ne].
  apply andb_prop in Hok as [_ Hpos]. apply Qltb_lt in Hpos.
  specialize (Hall v (or_introl eq_refl)). lra.
Qed.

Lemma orNull_positive v : 0 < v -> orNull (Some v) = Some v.
Proof. intros H. unfold orNull. assert (truthy v = true) as -> by (apply truthy_true; lra). reflexivity. Qed.

(** X13. An oracle update at time [now] (not 0) whose table has one
    entry per asset: for the next 60 seconds [_getChainlinkPrice] answers
    the positive price the update carried for an asset; if the update
    carried no positive price for it, the answer is the price stored
    before, however old, because the update still renews the time stamp;
    more than 60 seconds after the update the answer is [null]. *)
Theorem oracle_price_round_trip now later prices asset f :
  NoDup (List.map fst prices) -> now <> 0%Z ->
  let f' := updateLiveChainlink now prices f in
  ((now <= later <= now + 60000)%Z ->
   (forall v, In (asset, v) prices -> 0 < v -> _getChainlinkPrice later asset f' = Some v)
   /\ ((forall v, In (asset, v) prices -> v <= 0) ->
       _getChainlinkPrice later asset f' = orNull (Oracle._chainlinkPrices f !! asset)))
  /\ ((now + 60000 < later)%Z -> _getChainlinkPrice later asset f' = None).
Proof.
  intros Hnd Hnow f'. subst f'. unfold _getChainlinkPrice, updateLiveChainlink.
  cbn [set_chainlink Oracle._chainlinkTs Oracle._chainlinkPrices].
  assert (Z.eqb now 0 = false) as -> by now apply Z.eqb_neq.
  cbn [orb]. split.
  - intros Hfresh.
    assert (Z.ltb 60000 (later - now) = false) as -> by (apply Z.ltb_ge; lia).
    split.
    + intros v Hin Hv. rewrite (storePositive_stored prices _ asset v Hnd Hin Hv).
      now apply orNull_positive.
    + intros Hrej. now rewrite storePositive_rejected.
  - intros Hstale.
    assert (Z.ltb 60000 (later - now) = true) as -> by (apply Z.ltb_lt; lia). reflexivity.
Qed.

(** An update carrying BTC at 67000 and a rejected ETH price, read after
    ten seconds. *)
Lemma oracle_price_round_trip_witness :
  _getChainlinkPrice 1010000 "BTC"
    (updateLiveChainlink t0 [("BTC"%string, 67000); ("ETH"%string, 0)] noFeeds)
  = Some 67000.
Proof.
  destruct (oracle_price_round_trip t0 1010000
              [("BTC"%string, 67000); ("ETH"%string, 0)] "BTC" noFeeds) as [H _].
  - cbn [List.map fst].
    apply NoDup_cons_2; [rewrite list_elem_of_In; cbn; intuition discriminate |].
    apply NoDup_cons_2; [rewrite list_elem_of_In; cbn; tauto | apply NoDup_nil_2].
  - discriminate.
  - destruct H as [H _]; [unfold t0; lia |].
    apply H; [now left | reflexivity].
Defined.

Lemma Side_eqb_eq a b : Side_eqb a b = true <-> a = b.
Proof. destruct a, b; cbn; split; congruence. Qed.

Lemma edgeFor_spec favors sd ip cur src d l :
  0.30 <= ip <= 0.95 ->
  let e := edgeFor favors sd ip cur src d l in
  (favors <> sd -> Edge.edge e <= 0 /\ Edge.catching_up e = false)
  /\ (favors = sd ->
      0.30 - cur <= Edge.edge e <= 0.95 - cur
      /\ (Edge.catching_up e = true <-> Edge.edge e < PRED_CATCH_UP)).
Proof.
  intros [Hlo Hhi] e. subst e. unfold edgeFor.
  destruct (Side_eqb favors sd) eqn:Heq.
  - apply Side_eqb_eq in Heq. split; [contradiction |]. intros _.
    cbn [Edge.edge Edge.catching_up]. split; [split; lra | apply Qltb_lt].
  - assert (favors <> sd) as Hne by (intros H; apply Side_eqb_eq in H; congruence).
    split; [| contradiction]. intros _. cbn [Edge.edge Edge.catching_up].
    split; [| reflexivity].
    pose proof (Qabs_nonneg (cur - (1 - ip))). lra.
Qed.

Lemma clamped_probability x : 0.30 <= Qmax 0.30 (Qmin 0.95 x) <= 0.95.
Proof.
  split; [apply Q.le_max_l |].
  apply Q.max_lub; [discriminate | apply Q.le_min_l].
Qed.

Lemma predictive_edge_spec now asset sd currentPolyPrice f :
  let sig := _getSignalRaw (Oracle._realPrices f) now asset in
  let e := _getPredictiveEdge now asset sd currentPolyPrice f in
  (direction sig = 0%Z -> Edge.edge e = 0 /\ Edge.catching_up e = false)
  /\ (direction sig <> 0%Z -> signalFavors sig <> sd ->
      Edge.edge e <= 0 /\ Edge.catching_up e = false)
  /\ (direction sig <> 0%Z -> signalFavors sig = sd ->
      0.30 - currentPolyPrice <= Edge.edge e <= 0.95 - currentPolyPrice
      /\ (Edge.catching_up e = true <-> Edge.edge e < PRED_CATCH_UP)).
Proof.
  intros sig e. subst e. unfold _getPredictiveEdge. fold sig.
  destruct (Z.eqb_spec (direction sig) 0) as [Hz | Hnz].
  { cbn [Edge.edge Edge.catching_up]. repeat split; try reflexivity; contradiction. }
  split; [contradiction |].
  assert (0.30 <= 0.50 + strength sig * 0.25 <= 0.95) as Hbin.
  { destruct (raw_signal_spec (Oracle._realPrices f) now asset) as (_ & [H0 H1] & _).
    fold sig in H0, H1. split; lra. }
  cbv zeta.
  assert (forall ip src d l, 0.30 <= ip <= 0.95 ->
            (direction sig <> 0%Z -> signalFavors sig <> sd ->
             Edge.edge (edgeFor (signalFavors sig) sd ip currentPolyPrice src d l) <= 0
             /\ Edge.catching_up (edgeFor (signalFavors sig) sd ip currentPolyPrice src d l)
                = false)
            /\ (direction sig <> 0%Z -> signalFavors sig = sd ->
                0.30 - currentPolyPrice
                <= Edge.edge (edgeFor (signalFavors sig) sd ip currentPolyPrice src d l)
                <= 0.95 - currentPolyPrice
                /\ (Edge.catching_up (edgeFor (signalFavors sig) sd ip currentPolyPrice src d l)
                    = true
                    <-> Edge.edge (edgeFor (signalFavors sig) sd ip currentPolyPrice src d l)
                        < PRED_CATCH_UP))) as Hall.
  { intros ip src d l Hip.
    destruct (edgeFor_spec (signalFavors sig) sd ip currentPolyPrice src d l Hip) as [Ha Hb].
    split; intros _; assumption. }
  destruct (_getPredictedChainlink now asset f) as [predicted |];
    [destruct (_getChainlinkPrice now asset f) as [chainlinkNow |] |].
  - apply Hall, clamped_probability.
  - destruct (_getPriceDivergence now asset f) as [div |];
      [apply Hall, clamped_probability | apply Hall, Hbin].
  - destruct (_getPriceDivergence now asset f) as [div |];
      [apply Hall, clamped_probability | apply Hall, Hbin].
Qed.

(** X14. The predictive edge: with a flat raw signal it is 0; for the
    side the signal does not favour it is never positive and never
    reported as catching up; for the favoured side it is the implied
    probability minus the token price, hence between [0.30 - price] and
    [0.95 - price], and it is reported as catching up exactly when it is
    below 0.01. *)
Theorem predictive_edge_bounds now asset sd currentPolyPrice f :
  let sig := _getSignalRaw (Oracle._realPrices f) now asset in
  let e := _getPredictiveEdge now asset sd currentPolyPrice f in
  (direction sig = 0%Z -> Edge.edge e = 0 /\ Edge.catching_up e = false)
  /\ (direction sig <> 0%Z -> signalFavors sig <> sd ->
      Edge.edge e <= 0 /\ Edge.catching_up e = false)
  /\ (direction sig <> 0%Z -> signalFavors sig = sd ->
      0.30 - currentPolyPrice <= Edge.edge e <= 0.95 - currentPolyPrice
      /\ (Edge.catching_up e = true <-> Edge.edge e < PRED_CATCH_UP)).
Proof. exact (predictive_edge_spec now asset sd currentPolyPrice f). Qed.

(** No prices recorded: no edge. *)
Lemma predictive_edge_bounds_witness :
  Edge.edge (_getPredictiveEdge t0 "BTC" UP 0.5 noFeeds) = 0.
Proof.
  destruct (predictive_edge_bounds t0 "BTC" UP 0.5 noFeeds) as [H _].
  apply H. reflexivity.
Defined.

Lemma chain_app_inv {A} (R : A -> A -> Prop) l x :
  chain R (l ++ [x]) -> chain R l /\ Forall (fun y => R y x) l.
Proof.
  induction l as [| a l IH]; cbn [chain app]; [intros _; split; [exact I | constructor] |].
  intros [Ha Hc]. apply Forall_app in Ha as [Ha Hax]. destruct (IH Hc) as [Hl Hx].
  split; [split; assumption |]. constructor; [| exact Hx]. now inversion Hax.
Qed.

Lemma chain_drop {A} (R : A -> A -> Prop) n : forall l, chain R l -> chain R (drop n l).
Proof.
  induction n as [| n IH]; intros [| a l] Hc; cbn [drop]; try exact Hc.
  apply IH. apply Hc.
Qed.

Lemma keepLast_length {A} n (l : list A) : (length (keepLast n l) <= n)%nat.
Proof.
  unfold keepLast. destruct (Nat.ltb_spec n (length l)); [| lia].
  rewrite length_drop. lia.
Qed.

Lemma keepLast_Forall {A} (P : A -> Prop) n (l : list A) : Forall P l -> Forall P (keepLast n l).
Proof.
  intros H. unfold keepLast. destruct (Nat.ltb n (length l)); [| exact H].
  now apply Forall_drop.
Qed.

Lemma keepLast_chain {A} (R : A -> A -> Prop) n (l : list A) :
  chain R l -> chain R (keepLast n l).
Proof.
  intros H. unfold keepLast. destruct (Nat.ltb n (length l)); [| exact H].
  now apply chain_drop.
Qed.

Lemma keepLast_last {A} n (l : list A) x : (0 < n)%nat -> last (keepLast n (l ++ [x])) = Some x.
Proof.
  intros Hn. unfold keepLast. destruct (Nat.ltb_spec n (length (l ++ [x]))) as [Hlt | _].
  - rewrite length_app in *. cbn [length] in *.
    rewrite drop_app_le by lia. apply last_snoc.
  - apply last_snoc.
Qed.

Lemma feedOk_mono now0 now hist : (now0 <= now)%Z -> feedOk now0 hist -> feedOk now hist.
Proof.
  intros Hle (Hc & Hf & Hl). split; [exact Hc |]. split; [| exact Hl].
  eapply Forall_impl; [exact Hf |]. cbn beta. intros o [Hp Ht]. split; [exact Hp | lia].
Qed.

(** What [recordQuote] leaves at the end of a history: the quote, stamped
    [now], after the entries it kept. *)
Lemma recordQuote_shape now q hist :
  exists kept v,
    recordQuote now q hist
    = keepLast PRICE_BUFFER (kept ++ [{| price := quotePrice q; vol := v; ts := now |}])
    /\ (kept = hist /\ (forall o, last hist = Some o -> (ts o + 500 <= now)%Z)
        \/ exists o, hist = kept ++ [o] /\ (now - ts o < 500)%Z).
Proof.
  unfold recordQuote. destruct (last hist) as [o |] eqn:Hlast.
  - destruct (Z.ltb_spec (now - ts o) 500) as [Hlt | Hge].
    + apply last_Some in Hlast as [kept ->].
      exists kept, (orElse (vol o) 0 + quoteVol q). split.
      * rewrite length_app. cbn [length].
        replace (length kept + 1 - 1)%nat with (length kept) by lia.
        now rewrite take_app_length.
      * right. exists o. split; [reflexivity | exact Hlt].
    + exists hist, (quoteVol q). split; [reflexivity |]. left. split; [reflexivity |].
      intros o' [= <-]. lia.
  - exists hist, (quoteVol q). split; [reflexivity |]. left. split; [reflexivity |].
    intros o' [=].
Qed.

Lemma recordQuote_ok now q hist :
  feedOk now hist -> 0 < quotePrice q -> feedOk now (recordQuote now q hist).
Proof.
  intros (Hc & Hf & Hl) Hq.
  destruct (recordQuote_shape now q hist) as (kept & v & -> & Hshape).
  assert (chain (fun a b => (ts a < ts b)%Z) kept
          /\ Forall (fun o => 0 < price o /\ (ts o <= now)%Z) kept
          /\ Forall (fun o => (ts o < now)%Z) kept) as (Hck & Hfk & Hbefore).
  { destruct Hshape as [[-> Hold] | (o & -> & Hnear)].
    - split; [exact Hc |]. split; [exact Hf |].
      destruct (last hist) as [o |] eqn:Hlast.
      + specialize (Hold o eq_refl). apply last_Some in Hlast as [kept ->].
        apply chain_app_inv in Hc as [_ Hlt].
        apply Forall_app. split; [| constructor; [lia | constructor]].
        eapply Forall_impl; [exact Hlt |]. cbn beta. intros x Hx. lia.
      + apply last_None in Hlast. subst hist. constructor.
    - apply chain_app_inv in Hc as [Hck Hlt]. apply Forall_app in Hf as [Hfk Hfo].
      split; [exact Hck |]. split; [exact Hfk |].
      inversion Hfo as [| ? ? [_ Hto] _]; subst.
      eapply Forall_impl; [exact Hlt |]. cbn beta. intros x Hx. lia. }
  split; [| split].
  - apply keepLast_chain. apply chain_snoc; assumption.
  - apply keepLast_Forall. apply Forall_app. split; [exact Hfk |].
    constructor; [| constructor]. cbn [price ts]. split; [exact Hq | lia].
  - apply keepLast_length.
Qed.

Lemma recordQuote_last now q hist :
  exists o, last (recordQuote now q hist) = Some o /\ price o = quotePrice q /\ ts o = now.
Proof.
  destruct (recordQuote_shape now q hist) as (kept & v & -> & _).
  eexists. split; [apply keepLast_last; unfold PRICE_BUFFER; lia |]. split; reflexivity.
Qed.

Lemma updateRealPrices_cons now e data rp :
  _updateRealPrices now (e :: data) rp
  = _updateRealPrices now data
      (if negb (truthy (quotePrice (snd e))) || Qleb (quotePrice (snd e)) 0 then rp
       else <[fst e := recordQuote now (snd e) (default [] (rp !! fst e))]> rp).
Proof. reflexivity. Qed.

Lemma quote_accepted q : 0 < quotePrice q ->
  negb (truthy (quotePrice q)) || Qleb (quotePrice q) 0 = false.
Proof.
  intros H. apply orb_false_intro.
  - apply negb_false_iff, truthy_true. lra.
  - now apply Qleb_gt.
Qed.

Lemma quote_refused q : negb (truthy (quotePrice q)) || Qleb (quotePrice q) 0 = false ->
  0 < quotePrice q.
Proof. intros H. apply orb_false_elim in H as [_ H]. now apply Qleb_gt in H. Qed.

Lemma updateRealPrices_ok now data : forall rp,
  (forall a h, rp !! a = Some h -> feedOk now h) ->
  forall a h, _updateRealPrices now data rp !! a = Some h -> feedOk now h.
Proof.
  induction data as [| e data IH]; intros rp Hrp a h; [apply Hrp |].
  rewrite updateRealPrices_cons. apply IH. clear a h. intros a h.
  destruct (negb (truthy (quotePrice (snd e))) || Qleb (quotePrice (snd e)) 0) eqn:Hq;
    [apply Hrp |].
  apply quote_refused in Hq.
  destruct (String.eqb_spec (fst e) a) as [<- | Hne].
  - rewrite lookup_insert_eq. intros [= <-]. apply recordQuote_ok; [| exact Hq].
    destruct (rp !! fst e) as [h0 |] eqn:Hh; cbn [default from_option id].
    + now apply (Hrp (fst e)).
    + repeat split; [constructor | unfold PRICE_BUFFER; cbn [length]; lia].
  - rewrite lookup_insert_ne by exact Hne. apply Hrp.
Qed.

Lemma updateRealPrices_other now data : forall rp a,
  ~ In a (List.map fst data) -> _updateRealPrices now data rp !! a = rp !! a.
Proof.
  induction data as [| e data IH]; intros rp a Hnot; [reflexivity |].
  rewrite updateRealPrices_cons. cbn [List.map In] in Hnot. rewrite IH by tauto.
  destruct (_ || _); [reflexivity |]. apply lookup_insert_ne. tauto.
Qed.

Lemma updateRealPrices_latest now data : forall rp a q,
  NoDup (List.map fst data) -> In (a, q) data -> 0 < quotePrice q ->
  exists h o, _updateRealPrices now data rp !! a = Some h
              /\ last h = Some o /\ price o = quotePrice q /\ ts o = now.
Proof.
  induction data as [| e data IH]; intros rp a q Hnd Hin Hq; [contradiction |].
  rewrite updateRealPrices_cons. cbn [List.map] in Hnd. apply NoDup_cons in Hnd as [Hfresh Hnd].
  destruct Hin as [-> | Hin]; [| now apply IH].
  cbn [fst snd] in *. rewrite list_elem_of_In in Hfresh.
  rewrite updateRealPrices_other by exact Hfresh.
  rewrite quote_accepted by exact Hq. rewrite lookup_insert_eq.
  destruct (recordQuote_last now q (default [] (rp !! a))) as (o & Ho).
  eexists. exists o. split; [reflexivity | exact Ho].
Qed.

(** X15. [_updateRealPrices] keeps every recorded history sound: if
    before the update every history has strictly increasing time stamps,
    none later than the clock, positive prices and at most [PRICE_BUFFER]
    entries, and the clock has not gone back, the same holds after it.
    A quote with a positive price becomes the latest observation of its
    asset, stamped [now] (the table of quotes has one entry per asset). *)
Theorem real_prices_stay_sound now0 now data rp :
  (now0 <= now)%Z ->
  (forall a h, rp !! a = Some h -> feedOk now0 h) ->
  (forall a h, _updateRealPrices now data rp !! a = Some h -> feedOk now h)
  /\ (NoDup (List.map fst data) ->
      forall a q, In (a, q) data -> 0 < quotePrice q ->
      exists h o, _updateRealPrices now data rp !! a = Some h
                  /\ last h = Some o /\ price o = quotePrice q /\ ts o = now).
Proof.
  intros Hclock Hrp. split.
  - apply updateRealPrices_ok. intros a h Hh. eapply feedOk_mono; [exact Hclock |].
    now apply (Hrp a).
  - intros Hnd a q. now apply updateRealPrices_latest.
Qed.

(** A first quote for BTC on empty feeds. *)
Lemma real_prices_stay_sound_witness :
  exists h o, _updateRealPrices t0 [("BTC"%string, Quoted 67000 2)] ∅ !! "BTC"%string = Some h
              /\ last h = Some o /\ price o = 67000 /\ ts o = t0.
Proof.
  destruct (real_prices_stay_sound 0 t0 [("BTC"%string, Quoted 67000 2)] ∅) as [_ H].
  - unfold t0. lia.
  - intros a h Hh. rewrite lookup_empty in Hh. discriminate.
  - apply (H (NoDup_singleton _) "BTC"%string (Quoted 67000 2)); [now left | reflexivity].
Defined.

Lemma pushLive_last now mid_ hist :
  last (pushLive now mid_ hist) = Some (mid_, now) /\ (length (pushLive now mid_ hist) <= 20)%nat.
Proof.
  unfold pushLive. split; [| apply keepLast_length].
  destruct (last hist) as [e |]; [destruct (Z.ltb (now - snd e) 200) |];
    apply keepLast_last; lia.
Qed.

Lemma repriceMarket_spec tokenId mid_ m :
  let m' := repriceMarket tokenId mid_ m in
  (Market.upToken m' = tokenId -> Market.gammaUpPrice m' = mid_)
  /\ (Market.upToken m' <> tokenId -> Market.downToken m' = tokenId ->
      Market.gammaDownPrice m' = mid_).
Proof.
  unfold repriceMarket.
  destruct (String.eqb_spec (Market.upToken m) tokenId) as [Hu | Hu].
  - cbn. split; [reflexivity | contradiction].
  - destruct (String.eqb_spec (Market.downToken m) tokenId) as [Hd | Hd]; cbn.
    + split; [contradiction | reflexivity].
    + split; [contradiction | intros _ ?; contradiction].
Qed.

(** X16. [updateLiveCLOB] ignores an update without a token or with a
    mid price that is not positive.  Otherwise the token's book holds the
    new mid, its price history ends with the new mid stamped [now] and
    holds at most 20 entries, the price map the fast tick builds gives
    the new mid for the token, every market quotes the new mid for the
    token, and positions and bankroll are untouched. *)
Theorem live_clob_update_is_seen now tokenId mid_ bookData s f :
  (tokenId = ""%string \/ mid_ <= 0 -> updateLiveCLOB now tokenId mid_ bookData (s, f) = (s, f))
  /\ (tokenId <> ""%string -> 0 < mid_ ->
      let s' := fst (updateLiveCLOB now tokenId mid_ bookData (s, f)) in
      midOr s' tokenId 0 = mid_
      /\ (exists h, _priceHistory s' !! tokenId = Some h
                    /\ last h = Some (mid_, now) /\ (length h <= 20)%nat)
      /\ fastPrices s' !! tokenId = Some mid_
      /\ Forall (fun m =>
                   (Market.upToken m = tokenId -> Market.gammaUpPrice m = mid_)
                   /\ (Market.upToken m <> tokenId -> Market.downToken m = tokenId ->
                       Market.gammaDownPrice m = mid_)) (markets s')
      /\ positions s' = positions s /\ bankroll s' = bankroll s
      /\ Oracle._clobLiveTs (snd (updateLiveCLOB now tokenId mid_ bookData (s, f))) = now).
Proof.
  unfold updateLiveCLOB. split.
  - intros [-> | Hmid]; [reflexivity |].
    assert (Qleb mid_ 0 = true) as -> by now apply Qleb_le.
    now rewrite !orb_true_r.
  - intros Htok Hmid.
    assert (nonEmpty tokenId = true) as ->.
    { unfold nonEmpty. apply negb_true_iff. now apply String.eqb_neq. }
    assert (truthy mid_ = true) as -> by (apply truthy_true; lra).
    assert (Qleb mid_ 0 = false) as -> by now apply Qleb_gt.
    cbn [negb orb]. cbv zeta. cbn [fst snd].
    destruct (pushLive_last now mid_ (default [] (_priceHistory s !! tokenId))) as [Hlast Hlen].
    split; [| split; [| split; [| split; [| repeat split]]]].
    + unfold midOr. cbn [_orderbooks set_markets set_priceHistory set_orderbooks].
      rewrite lookup_insert_eq. cbn [mid].
      assert (Qgtb mid_ 0 = true) as -> by now apply Qltb_lt. reflexivity.
    + eexists. cbn [_priceHistory set_markets set_priceHistory set_orderbooks].
      rewrite lookup_insert_eq. split; [reflexivity |]. split; assumption.
    + unfold fastPrices. apply lookup_union_Some_l.
      cbn [_priceHistory set_markets set_priceHistory set_orderbooks].
      rewrite lookup_omap, lookup_insert_eq. cbn [mbind option_bind].
      now rewrite Hlast.
    + cbn [markets set_markets]. apply List.Forall_map.
      apply Forall_forall. intros m _. apply repriceMarket_spec.
Qed.

(** A mid of 0.42 for the UP token of the daily market. *)
Lemma live_clob_update_is_seen_witness :
  fastPrices (fst (updateLiveCLOB t0 "tok-up" 0.42
                     {| bdBestBid := 0.41; bdBestAsk := 0.43; bdSpread := 0.02;
                        bdBidDepth := 50; bdAskDepth := 60 |}
                     (stateWith [] 5 0 [] None, noFeeds))) !! "tok-up"%string
  = Some 0.42.
Proof.
  destruct (live_clob_update_is_seen t0 "tok-up" 0.42
              {| bdBestBid := 0.41; bdBestAsk := 0.43; bdSpread := 0.02;
                 bdBidDepth := 50; bdAskDepth := 60 |}
              (stateWith [] 5 0 [] None) noFeeds) as [_ H].
  destruct H as (_ & _ & H & _); [discriminate | reflexivity | exact H].
Defined.

Lemma pushPrices_other now prices : forall (hists : gmap string (list (Q * Z))) token,
  ~ In token (List.map fst prices) ->
  foldl (fun acc e => <[fst e := keepLast 20 (default [] (acc !! fst e) ++ [(snd e, now)])]> acc)
        hists prices !! token = hists !! token.
Proof.
  induction prices as [| e prices IH]; intros hists token Hnot; [reflexivity |].
  cbn [foldl]. cbn [List.map In] in Hnot. rewrite IH by tauto.
  apply lookup_insert_ne. tauto.
Qed.

Lemma pushPrices_latest now prices : forall (hists : gmap string (list (Q * Z))) token v,
  NoDup (List.map fst prices) -> In (token, v) prices ->
  exists h,
    foldl (fun acc e => <[fst e := keepLast 20 (default [] (acc !! fst e) ++ [(snd e, now)])]> acc)
          hists prices !! token = Some h
    /\ last h = Some (v, now) /\ (length h <= 20)%nat.
Proof.
  induction prices as [| e prices IH]; intros hists token v Hnd Hin; [contradiction |].
  cbn [foldl]. cbn [List.map] in Hnd. apply NoDup_cons in Hnd as [Hfresh Hnd].
  destruct Hin as [-> | Hin]; [| now apply IH].
  cbn [fst snd] in *. rewrite list_elem_of_In in Hfresh.
  rewrite pushPrices_other by exact Hfresh. rewrite lookup_insert_eq.
  eexists. split; [reflexivity |]. split; [apply keepLast_last; lia | apply keepLast_length].
Qed.

(** X17. After [_updatePolyPrices] no price history is stale (none ends
    more than [DEFAULT_STALE] before [now]); every token of the price
    table (one entry per token) has a history of at most 20 entries that
    ends with its price stamped [now], and the price map the fast tick
    builds gives that price; the history of a token that is not in the
    table is dropped if stale and kept unchanged otherwise. *)
Theorem poly_prices_are_fresh now prices s :
  let s' := _updatePolyPrices now prices s in
  (forall token h, _priceHistory s' !! token = Some h -> staleAt now h = false)
  /\ (NoDup (List.map fst prices) ->
      forall token v, In (token, v) prices ->
      (exists h, _priceHistory s' !! token = Some h
                 /\ last h = Some (v, now) /\ (length h <= 20)%nat)
      /\ fastPrices s' !! token = Some v)
  /\ (forall token, ~ In token (List.map fst prices) ->
      _priceHistory s' !! token
      = match _priceHistory s !! token with
        | Some h => if staleAt now h then None else Some h
        | None => None
        end).
Proof.
  intros s'. subst s'. unfold _updatePolyPrices. cbv zeta.
  cbn [_priceHistory set_priceHistory].
  split; [| split].
  - intros token h. rewrite lookup_omap. destruct (_ !! token) as [h0 |]; [| discriminate].
    cbn [mbind option_bind]. destruct (staleAt now h0) eqn:Hst; [discriminate |].
    now intros [= <-].
  - intros Hnd token v Hin.
    destruct (pushPrices_latest now prices (_priceHistory s) token v Hnd Hin)
      as (h & Hh & Hlast & Hlen).
    assert (staleAt now h = false) as Hfresh.
    { unfold staleAt. rewrite Hlast. cbn [snd]. apply Z.ltb_ge. unfold DEFAULT_STALE. lia. }
    assert (omap (fun h => if staleAt now h then None else Some h)
              (foldl (fun acc e =>
                        <[fst e := keepLast 20 (default [] (acc !! fst e) ++ [(snd e, now)])]> acc)
                     (_priceHistory s) prices) !! token = Some h) as Hkept.
    { rewrite lookup_omap, Hh. cbn [mbind option_bind]. now rewrite Hfresh. }
    split.
    + exists h. split; [exact Hkept |]. split; assumption.
    + unfold fastPrices. apply lookup_union_Some_l.
      cbn [_priceHistory set_priceHistory]. rewrite lookup_omap, Hkept.
      cbn [mbind option_bind]. now rewrite Hlast.
  - intros token Hnot. rewrite lookup_omap, pushPrices_other by exact Hnot.
    destruct (_priceHistory s !! token); reflexivity.
Qed.

(** The UP token of the daily market priced at 0.41. *)
Lemma poly_prices_are_fresh_witness :
  fastPrices (_updatePolyPrices t0 [("tok-up"%string, 0.41)] (stateWith [] 5 0 [] None))
    !! "tok-up"%string = Some 0.41.
Proof.
  destruct (poly_prices_are_fresh t0 [("tok-up"%string, 0.41)] (stateWith [] 5 0 [] None))
    as (_ & H & _).
  apply (H (NoDup_singleton _) "tok-up"%string 0.41). now left.
Defined.

(** ** The probe system, the health check and the daily reset *)

Lemma countTrue_le l : (countTrue l <= length l)%nat.
Proof.
  unfold countTrue. induction l as [| b l IH]; cbn [List.filter length]; [lia |].
  destruct b; cbn [length]; lia.
Qed.

Lemma ratio_in_unit (a b : nat) : (a <= b)%nat -> (0 < b)%nat -> 0 <= Qnat a / Qnat b <= 1.
Proof.
  intros Hab Hb.
  assert (0 < Qnat b) as Hpos.
  { unfold Qnat. change 0 with (inject_Z 0). rewrite <- Zlt_Qlt. lia. }
  split.
  - apply Qle_shift_div_l; [exact Hpos |]. rewrite Qmult_0_l.
    unfold Qnat. change 0 with (inject_Z 0). rewrite <- Zle_Qle. lia.
  - apply Qle_shift_div_r; [exact Hpos |]. rewrite Qmult_1_l.
    unfold Qnat. rewrite <- Zle_Qle. lia.
Qed.

Lemma tail_length {A} (l : list A) : length (tail l) = (length l - 1)%nat.
Proof. destruct l; cbn [tail length]; lia. Qed.

(** X18. Recording a probe result keeps the window: if no record held
    more than [PROBE_WINDOW] results before, none does after; the records
    of the other patterns are untouched; and the pattern recorded then has
    at least one sample. *)
Theorem probe_window_is_kept key won s :
  probeWindowsOk s ->
  probeWindowsOk (_recordProbeResult key won s)
  /\ (forall other, other <> key ->
        _probeResults (_recordProbeResult key won s) !! other = _probeResults s !! other)
  /\ (1 <= samples (_getProbeRecord key (_recordProbeResult key won s)))%nat.
Proof.
  intros Hok. unfold _recordProbeResult. cbv zeta.
  set (old := default emptyProbe (_probeResults s !! key)).
  assert (length (results old) <= PROBE_WINDOW)%nat as Hold.
  { subst old. destruct (_probeResults s !! key) as [rec |] eqn:Hk; cbn.
    - now apply (Hok key).
    - unfold PROBE_WINDOW. lia. }
  set (kept := if Nat.ltb PROBE_WINDOW (length (results old ++ [won]))
               then tail (results old ++ [won]) else results old ++ [won]).
  assert (1 <= length kept <= PROBE_WINDOW)%nat as [Hk1 Hk2].
  { subst kept. rewrite length_app. cbn [length].
    destruct (Nat.ltb_spec PROBE_WINDOW (length (results old) + 1)) as [Hlt | Hge].
    - rewrite tail_length, length_app. cbn [length]. unfold PROBE_WINDOW in *. lia.
    - rewrite length_app. cbn [length]. lia. }
  split; [| split].
  - intros k rec. cbn [_probeResults set_probeResults].
    destruct (String.eqb_spec key k) as [<- | Hne].
    + rewrite lookup_insert_eq. intros [= <-]. cbn [results]. exact Hk2.
    + rewrite lookup_insert_ne by exact Hne. apply Hok.
  - intros other Hne. cbn [_probeResults set_probeResults].
    apply lookup_insert_ne. congruence.
  - unfold _getProbeRecord. cbn [_probeResults set_probeResults].
    rewrite lookup_insert_eq. cbn [results].
    destruct (Nat.eqb_spec (length kept) 0) as [Hz | _]; [lia |]. cbn [samples]. exact Hk1.
Qed.

(** A first result on the initial state. *)
Lemma probe_window_is_kept_witness :
  (1 <= samples (_getProbeRecord "BTC-UP-bull-strong"
                   (_recordProbeResult "BTC-UP-bull-strong" true started)))%nat.
Proof.
  destruct (probe_window_is_kept "BTC-UP-bull-strong" true started) as (_ & _ & H).
  - intros key rec Hk. cbn in Hk. rewrite lookup_empty in Hk. discriminate.
  - exact H.
Defined.

(** The summary of a probe record: the recent win rate lies
    between 0 and 1; a pattern is reported proven only with at least
    [PROBE_MIN_SAMPLES] results in the window and a recent win rate of at
    least [PROBE_WIN_THRESHOLD]; a pattern without results has the empty
    summary. *)
Theorem probe_summary_is_sane key s :
  let r := _getProbeRecord key s in
  0 <= recentWR r <= 1
  /\ (proven r = true -> (PROBE_MIN_SAMPLES <= samples r)%nat /\ PROBE_WIN_THRESHOLD <= recentWR r)
  /\ (samples r = 0%nat -> recentWR r = 0 /\ winRate r = 0 /\ proven r = false).
Proof.
  intros r. subst r. unfold _getProbeRecord.
  destruct (_probeResults s !! key) as [p |];
    [| cbn; repeat split; try discriminate; intros; discriminate].
  destruct (Nat.eqb_spec (length (results p)) 0) as [Hz | Hnz];
    [cbn; repeat split; try discriminate; intros; discriminate |].
  cbv zeta. cbn [samples recentWR proven winRate].
  split; [apply ratio_in_unit; [apply countTrue_le | lia] |].
  split.
  - intros H. apply andb_prop in H as [Hn Hw]. split.
    + now apply Nat.leb_le.
    + now apply Qleb_le in Hw.
  - intros H. contradiction.
Qed.

(** The pattern of [threeScratches] is proven on three results. *)
Lemma probe_summary_is_sane_witness :
  (PROBE_MIN_SAMPLES <= samples (_getProbeRecord "BTC-UP-AUTO" threeScratches))%nat.
Proof.
  destruct (probe_summary_is_sane "BTC-UP-AUTO" threeScratches) as (_ & H & _).
  apply H. vm_compute. reflexivity.
Defined.

(** The global track record over all patterns: its win rate lies
    between 0 and 1, and it is reported proven only with at least
    [GLOBAL_MIN_TRADES] results and a win rate of at least
    [GLOBAL_MIN_WR]. *)
Theorem global_track_record_is_sane s :
  let r := _getGlobalTrackRecord s in
  0 <= trWinRate r <= 1
  /\ (trProven r = true -> (GLOBAL_MIN_TRADES <= trSamples r)%nat /\ GLOBAL_MIN_WR <= trWinRate r).
Proof.
  intros r. subst r. unfold _getGlobalTrackRecord. cbv zeta.
  set (ps := List.map snd (map_to_list (_probeResults s))).
  cbn [trWinRate trProven trSamples].
  assert (fold_right Nat.add 0%nat (List.map (fun p => countTrue (results p)) ps)
          <= fold_right Nat.add 0%nat (List.map (fun p => length (results p)) ps))%nat as Hle.
  { induction ps as [| p ps IH]; cbn [List.map fold_right]; [lia |].
    pose proof (countTrue_le (results p)). lia. }
  split.
  - destruct (Nat.ltb_spec 0 (fold_right Nat.add 0%nat
                                (List.map (fun p => length (results p)) ps))) as [Hpos | _].
    + now apply ratio_in_unit.
    + split; discriminate.
  - intros H. apply andb_prop in H as [Hn Hw]. split.
    + now apply Nat.leb_le.
    + now apply Qleb_le in Hw.
Qed.

(** Eight wins out of eight. *)
Lemma global_track_record_is_sane_witness : GLOBAL_MIN_WR <= trWinRate (_getGlobalTrackRecord eightWins).
Proof.
  destruct (global_track_record_is_sane eightWins) as (_ & H).
  apply H. vm_compute. reflexivity.
Defined.

(** X19. The model-health check reads the 30 most recent closed trades
    only: with fewer than 30 closed trades the model is healthy; with 30
    or more it is healthy exactly when at least 14 of the 30 most recent
    ones closed with a non-negative P&L, whatever the older ones did. *)
Theorem health_reads_last_thirty s :
  ((length (history s) < HEALTH_WINDOW)%nat -> _checkModelHealth s = true)
  /\ ((HEALTH_WINDOW <= length (history s))%nat ->
      (_checkModelHealth s = true
       <-> (14 <= nonLosing (firstn HEALTH_WINDOW (history s)))%nat)).
Proof.
  unfold _checkModelHealth. split.
  - intros H. apply Nat.ltb_lt in H. now rewrite H.
  - intros H. assert (Nat.ltb (length (history s)) HEALTH_WINDOW = false) as ->
      by now apply Nat.ltb_ge.
    cbv zeta. rewrite length_firstn, Nat.min_l by exact H.
    fold (nonLosing (firstn HEALTH_WINDOW (history s))).
    set (c := nonLosing (firstn HEALTH_WINDOW (history s))).
    rewrite negb_true_iff, Qltb_ge.
    assert (Qnat c / Qnat HEALTH_WINDOW == Qnat c * (1 # 30)) as He by reflexivity.
    rewrite He. unfold HEALTH_MIN_WINRATE, Qnat.
    assert (forall z : Z, 13.5 <= inject_Z z <-> (14 <= z)%Z) as Hint.
    { intros z. unfold Qle. cbn. lia. }
    assert ((14 <= c)%nat <-> 13.5 <= inject_Z (Z.of_nat c)) as -> by (rewrite Hint; lia).
    set (q := inject_Z (Z.of_nat c)).
    split; intros Hc; lra.
Qed.

(** Thirty losing trades. *)
Lemma health_reads_last_thirty_witness :
  _checkModelHealth (stateWith [] 5 0 thirtyLosses None) = false.
Proof.
  destruct (health_reads_last_thirty (stateWith [] 5 0 thirtyLosses None)) as [_ H].
  assert (HEALTH_WINDOW <= length (history (stateWith [] 5 0 thirtyLosses None)))%nat as Hlen
    by (vm_compute; lia).
  specialize (H Hlen).
  destruct (_checkModelHealth (stateWith [] 5 0 thirtyLosses None)); [| reflexivity].
  destruct H as [H _]. specialize (H eq_refl). vm_compute in H. lia.
Defined.

Lemma checkDailyReset_fields today s :
  positions (_checkDailyReset today s) = positions s
  /\ bankroll (_checkDailyReset today s) = bankroll s
  /\ history (_checkDailyReset today s) = history s
  /\ totalPnl (_checkDailyReset today s) = totalPnl s.
Proof. unfold _checkDailyReset. destruct (negb _); repeat split. Qed.

(** X20. [_checkDailyReset] is idempotent and leaves the date at today.
    On the day already recorded it changes nothing; on another day it
    sets the daily P&L to 0, so that the daily loss limit stops holding
    entries back; positions, bankroll, history and total P&L are never
    touched. *)
Theorem daily_reset_is_idempotent today s :
  let s' := _checkDailyReset today s in
  _checkDailyReset today s' = s'
  /\ _dailyResetDate s' = today
  /\ (_dailyResetDate s = today -> s' = s)
  /\ (_dailyResetDate s <> today ->
      _dailyPnl s' = 0 /\ Qleb (_dailyPnl s') (- DAILY_LOSS_LIMIT) = false)
  /\ positions s' = positions s /\ bankroll s' = bankroll s
  /\ history s' = history s /\ totalPnl s' = totalPnl s.
Proof.
  intros s'. subst s'.
  assert (forall x, _dailyResetDate x = today -> _checkDailyReset today x = x) as Hsame.
  { intros x He. unfold _checkDailyReset. now rewrite He, String.eqb_refl. }
  assert (_dailyResetDate (_checkDailyReset today s) = today) as Hdate.
  { unfold _checkDailyReset.
    destruct (String.eqb_spec (_dailyResetDate s) today) as [He | Hne]; cbn [negb];
      [exact He | reflexivity]. }
  split; [now apply Hsame |]. split; [exact Hdate |]. split; [apply Hsame |].
  split; [| apply checkDailyReset_fields].
  intros Hne. unfold _checkDailyReset.
  apply String.eqb_neq in Hne. rewrite Hne. cbn. split; reflexivity.
Qed.

(** A day after a loss of 7. *)
Lemma daily_reset_is_idempotent_witness :
  _dailyPnl (_checkDailyReset "2026-02-15" (stateWith [] 5 (-7) [] None)) = 0.
Proof.
  destruct (daily_reset_is_idempotent "2026-02-15" (stateWith [] 5 (-7) [] None))
    as (_ & _ & _ & H & _).
  apply H. discriminate.
Defined.

(** ** The log, the on-chain reconciliation and the count of closes *)

(** After every call of [log] the log holds at most [MAX_LOGS]
    entries and ends with the new one, [lastLog] is the message, the new
    entry is queued for the batch push, and a line of any type other than
    TICK, SIGNAL and MARKET is printed. *)
Theorem log_is_bounded now type msg j :
  let entry := {| logTs := now; logType := type; logMsg := msg |} in
  let j' := log now type msg j in
  (length (logs j') <= MAX_LOGS)%nat
  /\ last (logs j') = Some entry
  /\ lastLog j' = msg
  /\ _logQueue j' = _logQueue j ++ [entry]
  /\ (noisyType type = false -> printed j' = printed j ++ [logLine type msg]).
Proof.
  intros entry j'. subst j' entry. unfold log. cbv zeta.
  cbn [logs lastLog _logQueue printed].
  split; [apply keepLast_length |].
  split; [apply keepLast_last; unfold MAX_LOGS; lia |].
  split; [reflexivity |]. split; [reflexivity |].
  intros ->. reflexivity.
Qed.

(** A warning on an empty journal. *)
Lemma log_is_bounded_witness :
  printed (log t0 "WARN" "paused"
             {| logs := []; lastLog := ""; _logSkipCount := 0; _logQueue := [];
                printed := [] |})
  = [logLine "WARN" "paused"].
Proof.
  destruct (log_is_bounded t0 "WARN" "paused"
              {| logs := []; lastLog := ""; _logSkipCount := 0; _logQueue := [];
                 printed := [] |}) as (_ & _ & _ & _ & H).
  apply H. reflexivity.
Defined.

Lemma omap_shorter {A B} (f : A -> option B) (l : list A) :
  (length (omap f l) <= length l)%nat.
Proof.
  induction l as [| a l IH]; cbn [omap list_omap length]; [lia |].
  destruct (f a); cbn [length]; lia.
Qed.

Lemma reconcileOne_kept chain p p' :
  reconcileOne chain p = Some p' ->
  p' = p
  \/ exists shares, chain (Position.tokenId p) = OnChain shares /\ 0.5 <= shares
                    /\ p' = pos_set_size shares p.
Proof.
  unfold reconcileOne. destruct (negb (nonEmpty (Position.tokenId p))); [intros [= <-]; now left |].
  destruct (chain (Position.tokenId p)) as [shares |] eqn:Hc; [| intros [= <-]; now left].
  destruct (Qgeb shares 0.5) eqn:Hs; [| discriminate].
  apply Qleb_le in Hs.
  destruct (Qgtb _ 0.1); intros [= <-]; [right; exists shares; repeat split; assumption | now left].
Qed.

(** X21. [reconcileOnChain] never adds a position: every position it
    leaves is one it found, unchanged or with its size replaced by an
    on-chain balance of at least half a share, and there are no more of
    them than before; a position whose balance check failed stays; the
    bankroll is changed only when a position was dropped and the wallet
    balance is positive, and then it is the wallet balance. *)
Theorem reconcile_never_adds chain walletBal s :
  let s' := fst (reconcileOnChain chain walletBal s) in
  (length (positions s') <= length (positions s))%nat
  /\ (forall p', In p' (positions s') ->
        exists p, In p (positions s)
                  /\ (p' = p
                      \/ exists shares, chain (Position.tokenId p) = OnChain shares
                                        /\ 0.5 <= shares /\ p' = pos_set_size shares p))
  /\ (forall p, In p (positions s) -> chain (Position.tokenId p) = CheckFailed ->
        In p (positions s'))
  /\ (bankroll s' = bankroll s
      \/ (bankroll s' = walletBal /\ 0 < walletBal
          /\ (length (positions s') < length (positions s))%nat)).
Proof.
  intros s'. subst s'. unfold reconcileOnChain.
  assert (forall p', In p' (positions s) ->
            exists p, In p (positions s)
                      /\ (p' = p
                          \/ exists shares, chain (Position.tokenId p) = OnChain shares
                                            /\ 0.5 <= shares /\ p' = pos_set_size shares p))
    as Hsame by (intros p' Hin; exists p'; split; [exact Hin | now left]).
  destruct (_orderClient s) as [oc |]; cbn [fst];
    [| split; [lia | split; [exact Hsame | split; [tauto | now left]]]].
  destruct (negb (ready oc) || Nat.eqb (length (positions s)) 0); cbn [fst];
    [split; [lia | split; [exact Hsame | split; [tauto | now left]]] |].
  cbv zeta.
  pose proof (omap_shorter (reconcileOne chain) (positions s)) as Hlen.
  assert (forall p', In p' (omap (reconcileOne chain) (positions s)) ->
            exists p, In p (positions s)
                      /\ (p' = p
                          \/ exists shares, chain (Position.tokenId p) = OnChain shares
                                            /\ 0.5 <= shares /\ p' = pos_set_size shares p))
    as Hfrom.
  { intros p' Hin. apply list_elem_of_In, list_elem_of_omap in Hin as (p & Hp & Hr).
    exists p. split; [now apply list_elem_of_In | now apply reconcileOne_kept]. }
  assert (forall p, In p (positions s) -> chain (Position.tokenId p) = CheckFailed ->
            In p (omap (reconcileOne chain) (positions s))) as Hstay.
  { intros p Hin Hfail. apply list_elem_of_In, list_elem_of_omap. exists p.
    split; [now apply list_elem_of_In |]. unfold reconcileOne. rewrite Hfail.
    now destruct (negb _). }
  destruct (Nat.eqb_spec (length (omap (reconcileOne chain) (positions s)))
              (length (positions s))) as [He | Hne]; cbn [negb fst].
  - cbn [positions set_positions bankroll].
    split; [exact Hlen |]. split; [exact Hfrom |]. split; [exact Hstay | now left].
  - destruct (Qgtb walletBal 0) eqn:Hw; cbn [fst].
    + cbn [positions set_positions set_bankroll bankroll].
      split; [exact Hlen |]. split; [exact Hfrom |]. split; [exact Hstay |].
      right. apply Qltb_lt in Hw. repeat split; [exact Hw | lia].
    + cbn [positions set_positions bankroll].
      split; [exact Hlen |]. split; [exact Hfrom |]. split; [exact Hstay | now left].
Qed.

(** The daily position with no tokens left on chain. *)
Lemma reconcile_never_adds_witness :
  (length (positions (fst (reconcileOnChain (fun _ => OnChain 0) 6
                             (stateWith [dailyPos] 4 0 [] (Some unmatchedClient)))))
   <= 1)%nat.
Proof.
  destruct (reconcile_never_adds (fun _ => OnChain 0) 6
              (stateWith [dailyPos] 4 0 [] (Some unmatchedClient))) as [H _].
  exact H.
Defined.

Lemma closeOne_counts now c s :
  let r := closeOne now c s in
  (length (positions (snd r)) + (if fst r then 1 else 0) = length (positions s))%nat
  /\ (length (history (snd r)) = length (history s) + (if fst r then 1 else 0))%nat.
Proof.
  cbv zeta. pose proof (closeOne_spec now c s) as H.
  destruct (fst (closeOne now c s)).
  - destruct H as (h & (Hpos & Hdel & Hhist & _) & _). rewrite Hdel, Hhist.
    rewrite length_delete by (eexists; exact Hpos).
    apply lookup_lt_Some in Hpos. cbn [length]. lia.
  - destruct H as (Hp & _ & Hh & _). rewrite Hp, Hh. lia.
Qed.

Lemma closeLoop_counts now cs : forall s,
  let r := closeLoop now cs s in
  (length (positions (snd r)) + fst r = length (positions s))%nat
  /\ (length (history (snd r)) = length (history s) + fst r)%nat.
Proof.
  induction cs as [| c cs IH]; intros s; cbn [closeLoop]; [cbn; lia |].
  pose proof (closeOne_counts now c s) as H1. cbv zeta in H1.
  destruct (closeOne now c s) as [b s1]. cbn [fst snd] in H1.
  specialize (IH s1). cbv zeta in IH.
  destruct (closeLoop now cs s1) as [n s2]. cbn [fst snd] in *.
  destruct b; lia.
Qed.

(** X22. Position management never leaves more open positions than it
    found, and its result counts what it did: the number it returns is
    the number of positions that left the open set and the number of
    records added to the history. *)
Theorem manage_positions_counts env now prices s :
  let r := _managePositions env now prices s in
  (length (positions (snd r)) + fst r = length (positions s))%nat
  /\ (length (history (snd r)) = length (history s) + fst r)%nat.
Proof.
  cbv zeta. unfold _managePositions.
  destruct (evalAll env now prices (positions s)) as [ps toClose] eqn:He.
  assert (length ps = length (positions s)) as Hlen.
  { unfold evalAll in He. injection He as <- _. now rewrite length_map, length_imap. }
  pose proof (closeLoop_counts now toClose (set_positions ps s)) as H. cbv zeta in H.
  cbn [positions history set_positions] in H. rewrite <- Hlen. exact H.
Qed.

(** ** The state file *)

Lemma storage_get_after_set key value writeOk st :
  fst (Storage.get key (Storage.set key value writeOk st)) = Some value.
Proof.
  unfold Storage.get, Storage.set, Storage.loadAll, Storage.flush.
  destruct (Storage._cache st) as [c |]; cbn [Storage._cache Storage.disk];
    destruct writeOk; cbn [Storage._cache fst]; now rewrite lookup_insert_eq.
Qed.

(** X23. The state file's cache: a value that was [set] is what [get]
    answers for its key, also when the write to disk failed, and the
    answers for the other keys are as before.  After a restart of the
    process the value is still there if the write succeeded; if it
    failed, every key answers as it would have without the [set]. *)
Theorem stored_value_round_trip key value writeOk st :
  let st' := Storage.set key value writeOk st in
  fst (Storage.get key st') = Some value
  /\ (forall other, other <> key ->
        fst (Storage.get other st') = fst (Storage.get other st))
  /\ (writeOk = true -> fst (Storage.get key (Storage.restart st')) = Some value)
  /\ (writeOk = false ->
      forall k, fst (Storage.get k (Storage.restart st'))
                = fst (Storage.get k (Storage.restart st))).
Proof.
  intros st'. subst st'. split; [apply storage_get_after_set |].
  unfold Storage.get, Storage.set, Storage.loadAll, Storage.flush, Storage.restart.
  split; [| split].
  - intros other Hne.
    destruct (Storage._cache st) as [c |]; cbn [Storage._cache Storage.disk];
      destruct writeOk; cbn [Storage._cache fst];
      rewrite lookup_insert_ne by congruence; reflexivity.
  - intros ->.
    destruct (Storage._cache st) as [c |]; cbn [Storage._cache Storage.disk fst];
      now rewrite lookup_insert_eq.
  - intros -> k.
    destruct (Storage._cache st) as [c |]; cbn [Storage._cache Storage.disk fst]; reflexivity.
Qed.

(** The engine state saved while the disk is full, read back at once. *)
Lemma stored_value_round_trip_witness :
  fst (Storage.get "scalperState"
         (Storage.set "scalperState" (Storage.JObj []) false
            {| Storage._cache := None; Storage.disk := Storage.NoFile |}))
  = Some (Storage.JObj []).
Proof.
  destruct (stored_value_round_trip "scalperState" (Storage.JObj []) false
              {| Storage._cache := None; Storage.disk := Storage.NoFile |}) as [H _].
  exact H.
Defined.

(** A process that starts on a missing or unreadable state file
    answers the built-in defaults: the default settings for ["settings"],
    [null] for ["wallet"], and [undefined] for every other key, the
    engine's ["scalperState"] included. *)
Theorem missing_state_file_gives_defaults d key :
  d = Storage.NoFile \/ d = Storage.Unreadable ->
  fst (Storage.get key {| Storage._cache := None; Storage.disk := d |})
  = Storage.DEFAULTS !! key
  /\ fst (Storage.get "scalperState" {| Storage._cache := None; Storage.disk := d |}) = None
  /\ fst (Storage.get "wallet" {| Storage._cache := None; Storage.disk := d |})
     = Some Storage.JNull.
Proof.
  intros [-> | ->]; unfold Storage.get, Storage.loadAll;
    cbn [Storage._cache Storage.disk fst]; rewrite !lookup_empty;
    repeat split; reflexivity.
Qed.

Lemma missing_state_file_gives_defaults_witness :
  fst (Storage.get "scalperState"
         {| Storage._cache := None; Storage.disk := Storage.Unreadable |}) = None.
Proof.
  destruct (missing_state_file_gives_defaults Storage.Unreadable "scalperState") as (_ & H & _).
  - now right.
  - exact H.
Defined.

(** ** The re-entry cool-down *)

(** X24. After [recordExit] at time [now] (not 0) the market may be
    re-entered exactly when more than 45 seconds have passed.  Dropping
    the exits older than two minutes changes no answer: for every other
    market and every later time, [canReenter] answers as it did before. *)
Theorem cooldown_lasts_45_seconds now later conditionId recentExits :
  now <> 0%Z -> (now <= later)%Z ->
  let exits' := Cooldown.recordExit now conditionId recentExits in
  Cooldown.canReenter later conditionId exits' = Z.ltb 45000 (later - now)
  /\ (forall other, other <> conditionId ->
        Cooldown.canReenter later other exits' = Cooldown.canReenter later other recentExits).
Proof.
  intros Hnow Hlater exits'. subst exits'. unfold Cooldown.canReenter, Cooldown.recordExit.
  cbv zeta. split.
  - rewrite lookup_omap, lookup_insert_eq. cbn [mbind option_bind].
    assert (Z.ltb now (now - 120000) = false) as -> by (apply Z.ltb_ge; lia).
    now assert (Z.eqb now 0 = false) as -> by now apply Z.eqb_neq.
  - intros other Hne. rewrite lookup_omap, lookup_insert_ne by congruence.
    destruct (recentExits !! other) as [stamp |]; cbn [mbind option_bind]; [| reflexivity].
    destruct (Z.ltb_spec stamp (now - 120000)) as [Hold | _]; [| reflexivity].
    destruct (Z.eqb stamp 0); [reflexivity |].
    symmetry. apply Z.ltb_lt. lia.
Qed.

(** Thirty seconds after an exit the market is still closed to us. *)
Lemma cooldown_lasts_45_seconds_witness :
  Cooldown.canReenter 1030000 "0xbtc-daily" (Cooldown.recordExit t0 "0xbtc-daily" ∅) = false.
Proof.
  destruct (cooldown_lasts_45_seconds t0 1030000 "0xbtc-daily" ∅) as [H _].
  - discriminate.
  - unfold t0. lia.
  - rewrite H. reflexivity.
Defined.

(** ** Chart helpers *)

Lemma fold_left_Qsum {A} (g : A -> Q) (l : list A) : forall acc,
  fold_left (fun acc x => acc + g x) l acc == acc + Qsum (List.map g l).
Proof.
  induction l as [| x l IH]; intros acc; cbn [fold_left List.map].
  - unfold Qsum. cbn [fold_right]. ring.
  - rewrite IH. unfold Qsum. cbn [fold_right]. ring.
Qed.

Lemma fold_max_bounds (l : list PriceObs) : forall init,
  init <= fold_left (fun acc p => Qmax acc (price p)) l init
  /\ Forall (fun p => price p <= fold_left (fun acc p => Qmax acc (price p)) l init) l.
Proof.
  induction l as [| x l IH]; intros init; cbn [fold_left].
  - split; [apply Qle_refl | constructor].
  - destruct (IH (Qmax init (price x))) as [H1 H2]. split.
    + eapply Qle_trans; [apply Q.le_max_l | exact H1].
    + constructor; [| exact H2]. eapply Qle_trans; [apply Q.le_max_r | exact H1].
Qed.

Lemma fold_min_bounds (l : list PriceObs) : forall init,
  fold_left (fun acc p => Qmin acc (price p)) l init <= init
  /\ Forall (fun p => fold_left (fun acc p => Qmin acc (price p)) l init <= price p) l.
Proof.
  induction l as [| x l IH]; intros init; cbn [fold_left].
  - split; [apply Qle_refl | constructor].
  - destruct (IH (Qmin init (price x))) as [H1 H2]. split.
    + eapply Qle_trans; [exact H1 | apply Q.le_min_l].
    + constructor; [| exact H2]. eapply Qle_trans; [exact H1 | apply Q.le_min_r].
Qed.

Lemma last_in_bar (first : PriceObs) rest :
  List.last rest first = first \/ In (List.last rest first) rest.
Proof.
  induction rest as [| x rest IH] using rev_ind; [now left |].
  right. rewrite List.last_last. apply in_or_app. right. now left.
Qed.

Lemma barToCandle_ok first rest : candleOk (Chart._barToCandle first rest).
Proof.
  unfold candleOk, Chart._barToCandle.
  cbn [Chart.low Chart.high Chart.open Chart.close].
  destruct (fold_max_bounds rest (price first)) as [Hx1 Hx2].
  destruct (fold_min_bounds rest (price first)) as [Hn1 Hn2].
  split; [split; assumption |].
  destruct (last_in_bar first rest) as [-> | Hin]; [split; assumption |].
  rewrite Forall_forall in Hx2, Hn2. apply list_elem_of_In in Hin.
  split; [now apply Hn2 | now apply Hx2].
Qed.

Lemma barToCandle_vol first rest :
  Chart.candleVol (Chart._barToCandle first rest) == totalVol (first :: rest).
Proof.
  unfold Chart._barToCandle, totalVol. cbn [Chart.candleVol].
  rewrite fold_left_Qsum. ring.
Qed.

Lemma totalVol_app l1 l2 : totalVol (l1 ++ l2) == totalVol l1 + totalVol l2.
Proof. unfold totalVol. rewrite List.map_app. apply Qsum_app. Qed.

Lemma closeBar_spec bar :
  Forall candleOk (Chart.closeBar bar)
  /\ Qsum (List.map Chart.candleVol (Chart.closeBar bar)) == totalVol bar
  /\ (length (Chart.closeBar bar) <= length bar)%nat.
Proof.
  destruct bar as [| first rest]; cbn [Chart.closeBar].
  - split; [constructor |]. split; [reflexivity | cbn; lia].
  - split; [constructor; [apply barToCandle_ok | constructor] |]. split.
    + unfold Qsum. cbn [List.map fold_right]. rewrite barToCandle_vol. ring.
    + cbn [length]. lia.
Qed.

Lemma candleLoop_spec intervalMs ticks : forall startTs bar,
  Forall candleOk (Chart.candleLoop intervalMs startTs bar ticks)
  /\ Qsum (List.map Chart.candleVol (Chart.candleLoop intervalMs startTs bar ticks))
     == totalVol bar + totalVol ticks
  /\ (length (Chart.candleLoop intervalMs startTs bar ticks) <= length bar + length ticks)%nat.
Proof.
  induction ticks as [| tick ticks IH]; intros startTs bar; cbn [Chart.candleLoop].
  - destruct (closeBar_spec bar) as (H1 & H2 & H3). split; [exact H1 |]. split.
    + rewrite H2. unfold totalVol, Qsum. cbn [List.map fold_right]. ring.
    + cbn [length]. lia.
  - destruct (Z.leb intervalMs (ts tick - startTs) && Nat.ltb 0 (length bar)).
    + destruct (closeBar_spec bar) as (H1 & H2 & H3).
      destruct (IH (ts tick) [tick]) as (I1 & I2 & I3).
      split; [apply Forall_app; split; assumption |]. split.
      * rewrite List.map_app, Qsum_app, H2, I2.
        change (tick :: ticks) with ([tick] ++ ticks). rewrite (totalVol_app [tick] ticks). ring.
      * rewrite length_app. cbn [length] in *. lia.
    + destruct (IH startTs (bar ++ [tick])) as (I1 & I2 & I3).
      split; [exact I1 |]. split.
      * rewrite I2, totalVol_app.
        change (tick :: ticks) with ([tick] ++ ticks). rewrite (totalVol_app [tick] ticks). ring.
      * rewrite length_app in I3. cbn [length] in *. lia.
Qed.

(** X26. The candles [_buildCandles] makes of a price history are well
    formed: in each the low and the high bracket the open and the close;
    together they carry exactly the volume of the history (no tick is
    lost or counted twice), and there are no more candles than ticks. *)
Theorem candles_are_well_formed priceHistory intervalSecs :
  let candles := Chart._buildCandles priceHistory intervalSecs in
  Forall candleOk candles
  /\ Qsum (List.map Chart.candleVol candles) == totalVol priceHistory
  /\ (length candles <= length priceHistory)%nat.
Proof.
  intros candles. subst candles. unfold Chart._buildCandles.
  destruct priceHistory as [| first rest].
  - split; [constructor |]. split; [reflexivity | cbn; lia].
  - destruct (candleLoop_spec (intervalSecs * 1000) (first :: rest) (ts first) [])
      as (H1 & H2 & H3).
    split; [exact H1 |]. split; [| exact H3].
    rewrite H2. unfold totalVol at 1, Qsum. cbn [List.map fold_right]. ring.
Qed.

(** ** The multi-exchange median *)

Lemma insertAscending_In x l y :
  In y (MultiExchange.insertAscending x l) <-> y = x \/ In y l.
Proof.
  induction l as [| a l IH]; cbn [MultiExchange.insertAscending In]; [intuition congruence |].
  destruct (Qle_bool x a); cbn [In]; [intuition congruence |]. rewrite IH. intuition congruence.
Qed.

Lemma insertAscending_length x l :
  length (MultiExchange.insertAscending x l) = S (length l).
Proof.
  induction l as [| a l IH]; cbn [MultiExchange.insertAscending length]; [reflexivity |].
  destruct (Qle_bool x a); cbn [length]; [reflexivity | now rewrite IH].
Qed.

Lemma sortAscending_In l y : In y (MultiExchange.sortAscending l) <-> In y l.
Proof.
  unfold MultiExchange.sortAscending.
  induction l as [| a l IH]; cbn [fold_right In]; [tauto |].
  rewrite insertAscending_In, IH. intuition congruence.
Qed.

Lemma sortAscending_length l : length (MultiExchange.sortAscending l) = length l.
Proof.
  unfold MultiExchange.sortAscending.
  induction l as [| a l IH]; cbn [fold_right length]; [reflexivity |].
  now rewrite insertAscending_length, IH.
Qed.

Lemma medianOf_between lo hi (vals : list Q) :
  vals <> [] -> Forall (fun v => lo <= v <= hi) vals ->
  lo <= MultiExchange.medianOf vals <= hi.
Proof.
  intros Hne Hall. unfold MultiExchange.medianOf. cbv zeta.
  assert (0 < length vals)%nat as Hlen by (destruct vals; [congruence | cbn; lia]).
  assert (forall i, (i < length vals)%nat -> lo <= nth i vals 0 <= hi) as Hnth.
  { intros i Hi. rewrite Forall_forall in Hall. apply Hall, list_elem_of_In, nth_In, Hi. }
  assert (length vals / 2 < length vals)%nat as Hmid
    by (apply Nat.div_lt; lia).
  destruct (Nat.eqb (length vals mod 2) 1); [now apply Hnth |].
  destruct (Hnth (length vals / 2)%nat Hmid) as [H1 H2].
  destruct (Hnth (length vals / 2 - 1)%nat ltac:(lia)) as [H3 H4].
  split.
  - apply Qle_shift_div_l; [reflexivity | lra].
  - apply Qle_shift_div_r; [reflexivity | lra].
Qed.

Lemma median_of_three lo hi x y z :
  (lo <= x <= hi /\ lo <= y <= hi) \/ (lo <= x <= hi /\ lo <= z <= hi)
  \/ (lo <= y <= hi /\ lo <= z <= hi) ->
  lo <= MultiExchange.medianOf (MultiExchange.sortAscending [x; y; z]) <= hi.
Proof.
  intros H. unfold MultiExchange.sortAscending. cbn [fold_right MultiExchange.insertAscending].
  destruct (Qle_bool y z) eqn:Hyz; cbn [MultiExchange.insertAscending];
    [apply Qle_bool_iff in Hyz | apply Qleb_gt in Hyz];
    (destruct (Qle_bool x y) eqn:Hxy; cbn [MultiExchange.insertAscending];
     [apply Qle_bool_iff in Hxy | apply Qleb_gt in Hxy]);
    (destruct (Qle_bool x z) eqn:Hxz; cbn [MultiExchange.insertAscending];
     [apply Qle_bool_iff in Hxz | apply Qleb_gt in Hxz]);
    unfold MultiExchange.medianOf; cbn [length Nat.modulo Nat.div Nat.eqb nth];
    cbn; split; lra.
Qed.

(** X27. The predicted oracle price of [_recalculate] is the median of
    the positive prices of the exchanges.  It lies between any two bounds
    that hold all of them; with three exchanges it lies between any two
    bounds that hold two of them, whatever the third quotes.  Without a
    positive price the state is left as it was. *)
Theorem predicted_price_is_a_median now asset sources st lo hi :
  MultiExchange._prices st !! asset = Some sources ->
  let vals := List.filter (fun v => Qgtb v 0) (List.map snd sources) in
  let st' := MultiExchange._recalculate now asset st in
  (vals = [] -> st' = st)
  /\ (vals <> [] -> Forall (fun v => lo <= v <= hi) vals ->
      exists m, MultiExchange._predicted st' !! asset = Some m /\ lo <= m <= hi)
  /\ (forall x y z, vals = [x; y; z] ->
      (lo <= x <= hi /\ lo <= y <= hi) \/ (lo <= x <= hi /\ lo <= z <= hi)
      \/ (lo <= y <= hi /\ lo <= z <= hi) ->
      exists m, MultiExchange._predicted st' !! asset = Some m /\ lo <= m <= hi).
Proof.
  intros Hsrc vals st'. subst st'. unfold MultiExchange._recalculate. rewrite Hsrc.
  fold vals. split; [| split].
  - intros ->. reflexivity.
  - intros Hne Hall. destruct vals as [| v vals'] eqn:Hv; [congruence |].
    cbn [MultiExchange._predicted]. rewrite lookup_insert_eq. eexists. split; [reflexivity |].
    apply medianOf_between.
    + intros Hnil. apply (f_equal (@length Q)) in Hnil.
      rewrite sortAscending_length in Hnil. discriminate.
    + apply Forall_forall. intros w Hw. apply list_elem_of_In in Hw.
      apply (proj1 (sortAscending_In _ _)) in Hw.
      rewrite Forall_forall in Hall. now apply Hall, list_elem_of_In.
  - intros x y z Hv Htwo. rewrite Hv.
    cbn [MultiExchange._predicted]. rewrite lookup_insert_eq. eexists. split; [reflexivity |].
    now apply median_of_three.
Qed.

(** Two exchanges near 67000 and one bad print of 1. *)
Lemma predicted_price_is_a_median_witness :
  exists m, MultiExchange._predicted
              (MultiExchange._recalculate t0 "BTC" (quoting "BTC" (threeSources 67010 1 66990)))
              !! "BTC"%string = Some m
            /\ 66990 <= m <= 67010.
Proof.
  destruct (predicted_price_is_a_median t0 "BTC" (threeSources 67010 1 66990)
              (quoting "BTC" (threeSources 67010 1 66990)) 66990 67010 eq_refl)
    as (_ & _ & H).
  apply (H 67010 1 66990 eq_refl).
  right. left. split; split; discriminate.
Defined.

(** ** The probability model: range and symmetry *)

Module ProbabilityRange.

Import ProbabilityModel ErfApprox ProbabilityFacts.
Local Open Scope R_scope.

Lemma quot_is_evalR t : quot t = evalR quotCoeffs t 1.
Proof.
  unfold quot, quotCoeffs, evalR, a1, a2, a3, a4, a5.
  unfold A1, A2, A3, A4, A5.
  unfold Q2R. cbn [Qnum Qden]. field.
Qed.

Lemma quot_positive t : 0 <= t <= 1 -> 0 < quot t.
Proof.
  intros Ht. rewrite quot_is_evalR.
  apply (positiveBelow_sound quotCoeffs 100 99).
  - vm_compute. reflexivity.
  - replace (INR 100 / IZR 100) with 1; [exact Ht |].
    rewrite INR_IZR_INZ. cbn. field.
Qed.

Lemma erfLike_le_one u : 0 <= u -> erfLike u <= 1.
Proof.
  intros Hu. unfold erfLike. rewrite poly_quot.
  pose proof (tOf_range u Hu) as [Ht0 Ht1].
  pose proof (quot_positive (tOf u) ltac:(lra)) as Hq.
  pose proof (exp_pos (- u * u)) as He.
  assert (0 <= quot (tOf u) * tOf u * exp (- u * u)) as H.
  { apply Rmult_le_pos; [apply Rmult_le_pos |]; lra. }
  lra.
Qed.

Lemma normalCDF_range x : 0 <= _normalCDF x <= 1.
Proof.
  rewrite normalCDF_erfLike.
  pose proof (erfLike_nonneg _ (scaled_nonneg x)) as H0.
  pose proof (erfLike_le_one _ (scaled_nonneg x)) as H1.
  destruct (Rlt_dec x 0); split; lra.
Qed.

Lemma normalCDF_symmetry x : x <> 0 -> _normalCDF (- x) = 1 - _normalCDF x.
Proof.
  intros Hx. rewrite !normalCDF_erfLike, Rabs_Ropp.
  destruct (Rlt_dec (- x) 0), (Rlt_dec x 0); lra.
Qed.

Lemma binaryProbability_range c r secs asset :
  0 <= c -> 0 <= _binaryProbability c r secs asset <= 1.
Proof.
  intros Hc. unfold _binaryProbability.
  destruct (Req_EM_T c 0); [split; lra |].
  destruct (Req_EM_T r 0); [split; lra |].
  destruct (Rle_dec r 0); [split; lra |].
  destruct (Rle_dec secs 0); [destruct (Rlt_dec r c); split; lra |].
  apply normalCDF_range.
Qed.

Lemma binaryProbability_below_half c r secs asset :
  0 < c -> c <= r -> 0 < secs -> _binaryProbability c r secs asset < 0.5.
Proof.
  intros Hc Hr Hs. rewrite binaryProbability_regular by lra.
  apply normalCDF_below_half.
  destruct Hr as [Hlt | ->]; [now apply d2Of_negative |].
  pose proof (annualVol_pos asset) as Hsg.
  pose proof (year_fraction_pos secs Hs) as HT.
  pose proof (denominator_pos secs asset Hs) as Hden.
  unfold d2Of.
  replace (r / r) with 1 by (field; lra). rewrite ln_1.
  set (den := annualVol asset * sqrt (secs / yearSecs)) in *.
  assert (0 < annualVol asset * annualVol asset * (secs / yearSecs)) as Hsq
    by (apply Rmult_lt_0_compat; [apply Rmult_lt_0_compat |]; assumption).
  assert (0 < / den) as Hinv by now apply Rinv_0_lt_compat.
  unfold Rdiv at 1. nra.
Qed.

End ProbabilityRange.

(** X28. Over the reals, [_normalCDF] answers a value between 0 and 1
    for every argument and is symmetric, [N(-x) = 1 - N(x)], for every
    [x] other than 0; [_binaryProbability] answers a value between 0 and
    1 for every current price that is not negative, every reference
    price, time and asset. *)
Theorem probability_is_a_probability :
  (forall x, (0 <= ProbabilityModel._normalCDF x <= 1)%R)
  /\ (forall x, x <> 0%R ->
        ProbabilityModel._normalCDF (- x) = (1 - ProbabilityModel._normalCDF x)%R)
  /\ (forall c r secs asset,
        (0 <= c)%R -> (0 <= ProbabilityModel._binaryProbability c r secs asset <= 1)%R).
Proof.
  split; [exact ProbabilityRange.normalCDF_range |].
  split; [exact ProbabilityRange.normalCDF_symmetry |].
  exact ProbabilityRange.binaryProbability_range.
Qed.

Lemma probability_is_a_probability_witness :
  (0 <= ProbabilityModel._binaryProbability 67500 67000 3600 "BTC" <= 1)%R.
Proof.
  destruct probability_is_a_probability as (_ & _ & H). apply H. lra.
Defined.

(** With time remaining, a current price at or below the reference
    price (and positive) gives UP less than one half: at the reference
    price itself the drift term [-sigma^2 T / 2] already puts the
    probability below 0.5. *)
Theorem at_the_money_is_below_half c r secs asset :
  (0 < c)%R -> (c <= r)%R -> (0 < secs)%R ->
  (ProbabilityModel._binaryProbability c r secs asset < 0.5)%R.
Proof. apply ProbabilityRange.binaryProbability_below_half. Qed.

Lemma at_the_money_is_below_half_witness :
  (ProbabilityModel._binaryProbability 67000 67000 3600 "BTC" < 0.5)%R.
Proof. apply (at_the_money_is_below_half 67000 67000 3600 "BTC"); lra. Defined.

(** ** The entry paths: how many positions, and which *)

Lemma scanMarket_positions env now prices m s :
  match fst (scanMarket env now prices m s) with
  | Opened => exists pos, positions (snd (scanMarket env now prices m s)) = positions s ++ [pos]
  | _ => positions (snd (scanMarket env now prices m s)) = positions s
  end.
Proof.
  pose proof (scanMarket_spec env now prices m s) as H.
  destruct (fst (scanMarket env now prices m s)).
  - apply H.
  - apply H.
  - destruct H as (pos & Hp & _). now exists pos.
Qed.

Lemma scanLoop_full env now prices ms s :
  (MAX_POSITIONS <= length (positions s))%nat -> scanLoop env now prices ms s = (0%nat, s).
Proof.
  intros Hfull. destruct ms as [| m ms]; [reflexivity |]. cbn [scanLoop].
  unfold scanMarket. apply Nat.leb_le in Hfull. now rewrite Hfull.
Qed.

Lemma scanLoop_at_most_one env now prices ms : forall s,
  (fst (scanLoop env now prices ms s) <= 1)%nat
  /\ length (positions (snd (scanLoop env now prices ms s)))
     = (length (positions s) + fst (scanLoop env now prices ms s))%nat.
Proof.
  induction ms as [| m ms IH]; intros s; cbn [scanLoop]; [cbn; lia |].
  pose proof (scanMarket_positions env now prices m s) as H.
  destruct (scanMarket env now prices m s) as [[| |] s1]; cbn [fst snd] in *.
  - rewrite H. lia.
  - rewrite <- H. apply IH.
  - destruct H as (pos & Hp).
    rewrite scanLoop_full by (rewrite Hp, length_app; cbn; unfold MAX_POSITIONS; lia).
    cbn [fst snd]. rewrite Hp, length_app. cbn. lia.
Qed.

(** X29. One run of the entry scanner opens at most one position, and
    the number it returns is the number of positions it added.  It opens
    one only when none was open; with a position open it returns 0 and
    leaves the state as it was. *)
Theorem scan_opens_at_most_one env now prices s :
  let r := _scanEntries env now prices s in
  (fst r <= 1)%nat
  /\ length (positions (snd r)) = (length (positions s) + fst r)%nat
  /\ (fst r = 1%nat -> positions s = [] /\ exists pos, positions (snd r) = [pos])
  /\ (positions s <> [] -> r = (0%nat, s)).
Proof.
  cbv zeta. unfold _scanEntries.
  destruct (Nat.leb MAX_POSITIONS (length (positions s))) eqn:Hroom.
  { cbn [fst snd]. repeat split; try lia; try discriminate. }
  pose proof (room_means_empty s Hroom) as Hnil.
  assert (forall r : nat * Scalper,
            ((fst r <= 1)%nat
             /\ length (positions (snd r)) = (length (positions s) + fst r)%nat) ->
            (fst r <= 1)%nat
            /\ length (positions (snd r)) = (length (positions s) + fst r)%nat
            /\ (fst r = 1%nat -> positions s = [] /\ exists pos, positions (snd r) = [pos])
            /\ (positions s <> [] -> r = (0%nat, s))) as Hwrap.
  { intros r [H1 H2]. split; [exact H1 |]. split; [exact H2 |]. split; [| congruence].
    intros Hone. split; [exact Hnil |]. rewrite Hone, Hnil in H2. cbn in H2.
    destruct (positions (snd r)) as [| pos [| ? ?]]; cbn in H2; try lia. now exists pos. }
  repeat match goal with
         | |- context [if ?c then (0%nat, s) else _] => destruct c; [apply Hwrap; cbn; lia |]
         end.
  apply Hwrap, scanLoop_at_most_one.
Qed.

(** A bankroll of 5 and a bear candidate on the daily market. *)
Lemma scan_opens_at_most_one_witness :
  exists pos,
    positions (snd (_scanEntries (offering bearCandidate) t0 upAt30
                      (stateWith [] 5 0 [] None))) = [pos].
Proof.
  destruct (scan_opens_at_most_one (offering bearCandidate) t0 upAt30
              (stateWith [] 5 0 [] None)) as (_ & _ & H & _).
  apply H. vm_compute. reflexivity.
Defined.

Lemma mostTimeLeft_In now ms : forall best, In (mostTimeLeft now best ms) (best :: ms).
Proof.
  induction ms as [| m ms IH]; intros best; cbn [mostTimeLeft]; [now left |].
  destruct (Qgtb (autoSecsLeft m now) (autoSecsLeft best now)).
  - right. apply IH.
  - destruct (IH best) as [H | H]; [now left | right; now right].
Qed.

Lemma mostTimeLeft_most now ms : forall best,
  Forall (fun m => autoSecsLeft m now <= autoSecsLeft (mostTimeLeft now best ms) now)
         (best :: ms).
Proof.
  induction ms as [| m ms IH]; intros best; cbn [mostTimeLeft].
  - constructor; [apply Qle_refl | constructor].
  - destruct (Qgtb (autoSecsLeft m now) (autoSecsLeft best now)) eqn:Hgt.
    + apply Qltb_lt in Hgt. specialize (IH m). inversion IH as [| ? ? Hm Hrest]; subst.
      constructor; [lra |]. constructor; assumption.
    + apply Qltb_ge in Hgt. specialize (IH best). inversion IH as [| ? ? Hb Hrest]; subst.
      constructor; [exact Hb |]. constructor; [lra | exact Hrest].
Qed.

Lemma autoEntryInner_buys env now s :
  fst (_autoEntryDailyInner env now s) = 1%nat ->
  exists market pos,
    In market (markets s)
    /\ positions (snd (_autoEntryDailyInner env now s)) = positions s ++ [pos]
    /\ positions s = []
    /\ Market.asset market = "BTC"%string /\ Market.timeframe market = TF1d
    /\ MIN_HOURS_LEFT * 3600 <= autoSecsLeft market now
    /\ Forall (fun m => autoCandidate now s m = true ->
                        autoSecsLeft m now <= autoSecsLeft market now) (markets s)
    /\ Position.conditionId pos = Market.conditionId market
    /\ Position.tokenId pos = tokenOf (Position.side pos) market
    /\ (Position.side pos = UP ->
        0 < Market.gammaUpPrice market <= Market.gammaDownPrice market)
    /\ (Position.side pos = DOWN ->
        0 < Market.gammaDownPrice market
        /\ (Market.gammaUpPrice market <= 0
            \/ Market.gammaDownPrice market < Market.gammaUpPrice market))
    /\ 0.05 <= Position.midPriceAtEntry pos < 0.85
    /\ 1 <= Position.costBasis pos <= MAX_SINGLE_BET
    /\ Position.costBasis pos <= bankroll s.
Proof.
  unfold _autoEntryDailyInner.
  destruct (Qltb (bankroll s) 1) eqn:Hbank; [discriminate |]. apply Qltb_ge in Hbank.
  destruct (Nat.leb MAX_POSITIONS (length (positions s))) eqn:Hroom; [discriminate |].
  pose proof (room_means_empty s Hroom) as Hnil.
  destruct (entryLocked now s); [discriminate |].
  destruct (List.filter (autoCandidate now s) (markets s)) as [| c0 cs] eqn:Hcands;
    [discriminate |].
  cbv zeta.
  pose proof (mostTimeLeft_In now cs c0) as Hin.
  pose proof (mostTimeLeft_most now cs c0) as Hmost.
  set (market := mostTimeLeft now c0 cs) in *.
  rewrite <- Hcands in Hin, Hmost. apply filter_In in Hin as [Hin Hcand].
  unfold autoCandidate in Hcand.
  apply andb_prop in Hcand as [Hcand _]. apply andb_prop in Hcand as [Hcand Hleft].
  apply andb_prop in Hcand as [Hasset Htf].
  apply String.eqb_eq in Hasset. apply negb_true_iff, Qltb_ge in Hleft.
  assert (Market.timeframe market = TF1d) as Htf'
    by (destruct (Market.timeframe market); cbn in Htf; congruence).
  assert (Forall (fun m => autoCandidate now s m = true ->
                           autoSecsLeft m now <= autoSecsLeft market now) (markets s)) as Hbest.
  { apply Forall_forall. intros m Hm Hc. rewrite Forall_forall in Hmost.
    apply Hmost, list_elem_of_In, filter_In. split; [now apply list_elem_of_In | exact Hc]. }
  destruct (negb (truthy (Market.gammaUpPrice market))
            && negb (truthy (Market.gammaDownPrice market))); [discriminate |].
  destruct (Qgtb (Market.gammaUpPrice market) 0 && Qgtb (Market.gammaDownPrice market) 0
            && Qleb (Market.gammaUpPrice market) (Market.gammaDownPrice market)) eqn:Hup.
  - apply andb_prop in Hup as [Hup Hle]. apply andb_prop in Hup as [Hu Hd].
    apply Qltb_lt in Hu. apply Qltb_lt in Hd. apply Qleb_le in Hle.
    destruct (negb (nonEmpty (Market.upToken market))
              || negb (truthy (Market.gammaUpPrice market))); [discriminate |].
    set (entryPrice := midOr s (Market.upToken market) (Market.gammaUpPrice market)).
    destruct (Qleb entryPrice 0 || Qgeb entryPrice 0.85) eqn:Hrange; [discriminate |].
    apply orb_false_elim in Hrange as [_ Hhi]. apply Qleb_gt in Hhi.
    destruct (Qltb entryPrice 0.05) eqn:Hlo; [discriminate |]. apply Qltb_ge in Hlo.
    set (betSize := Qmin (roundTo 100 (Qmin (bankroll s * 0.98) (bankroll s - 0.01)))
                         MAX_SINGLE_BET).
    destruct (Qltb betSize 1) eqn:Hbet; [discriminate |]. apply Qltb_ge in Hbet.
    destruct (_simulateEntry (Market.upToken market) betSize entryPrice s) as [[f |] s1] eqn:Hsim;
      [| discriminate].
    intros _. pose proof (simulateEntry_frame (Market.upToken market) betSize entryPrice s) as Hfr.
    rewrite Hsim in Hfr. cbv zeta in Hfr. cbn [snd] in Hfr. destruct Hfr as (Hp & _).
    exists market. eexists. cbn [snd positions set_lastEntryTime set_totalBets set_positions
                                   set_bankroll].
    split; [exact Hin |]. split; [rewrite Hp; reflexivity |].
    cbn [Position.conditionId Position.tokenId Position.side Position.midPriceAtEntry
         Position.costBasis tokenOf].
    repeat split; try assumption; try reflexivity; try discriminate; try lra.
    + apply Q.le_min_r.
    + apply autoBet_bounds. exact Hbank.
  - assert (Market.gammaUpPrice market <= 0
            \/ Market.gammaDownPrice market < Market.gammaUpPrice market
            \/ Market.gammaDownPrice market <= 0) as Hwhy.
    { destruct (Qgtb (Market.gammaUpPrice market) 0) eqn:Hu; cbn [andb] in Hup;
        [| left; now apply Qltb_ge in Hu].
      destruct (Qgtb (Market.gammaDownPrice market) 0) eqn:Hd; cbn [andb] in Hup;
        [| right; right; now apply Qltb_ge in Hd].
      right. left. now apply Qleb_gt in Hup. }
    destruct (Qgtb (Market.gammaDownPrice market) 0) eqn:Hd; [| discriminate].
    apply Qltb_lt in Hd.
    destruct (negb (nonEmpty (Market.downToken market))
              || negb (truthy (Market.gammaDownPrice market))); [discriminate |].
    set (entryPrice := midOr s (Market.downToken market) (Market.gammaDownPrice market)).
    destruct (Qleb entryPrice 0 || Qgeb entryPrice 0.85) eqn:Hrange; [discriminate |].
    apply orb_false_elim in Hrange as [_ Hhi]. apply Qleb_gt in Hhi.
    destruct (Qltb entryPrice 0.05) eqn:Hlo; [discriminate |]. apply Qltb_ge in Hlo.
    set (betSize := Qmin (roundTo 100 (Qmin (bankroll s * 0.98) (bankroll s - 0.01)))
                         MAX_SINGLE_BET).
    destruct (Qltb betSize 1) eqn:Hbet; [discriminate |]. apply Qltb_ge in Hbet.
    destruct (_simulateEntry (Market.downToken market) betSize entryPrice s)
      as [[f |] s1] eqn:Hsim; [| discriminate].
    intros _.
    pose proof (simulateEntry_frame (Market.downToken market) betSize entryPrice s) as Hfr.
    rewrite Hsim in Hfr. cbv zeta in Hfr. cbn [snd] in Hfr. destruct Hfr as (Hp & _).
    exists market. eexists. cbn [snd positions set_lastEntryTime set_totalBets set_positions
                                   set_bankroll].
    split; [exact Hin |]. split; [rewrite Hp; reflexivity |].
    cbn [Position.conditionId Position.tokenId Position.side Position.midPriceAtEntry
         Position.costBasis tokenOf].
    repeat split; try assumption; try reflexivity; try discriminate; try lra.
    + apply Q.le_min_r.
    + apply autoBet_bounds. exact Hbank.
Qed.

(** X30. What the daily auto-entry buys.  When it opens a position, no
    position was open; the market is a BTC daily market of the list with
    at least 20 hours left, and no candidate market has more time left;
    the side is UP when both sides are quoted and UP is not dearer than
    DOWN, otherwise DOWN; the entry mid price lies between 0.05 and 0.85
    (excluded); the stake lies between $1 and [MAX_SINGLE_BET] and does
    not exceed the bankroll. *)
Theorem auto_entry_buys_the_cheaper_daily_side env now s :
  fst (_autoEntryDaily env now s) = 1%nat ->
  exists market pos,
    In market (markets s)
    /\ positions (snd (_autoEntryDaily env now s)) = [pos]
    /\ positions s = []
    /\ Market.asset market = "BTC"%string /\ Market.timeframe market = TF1d
    /\ MIN_HOURS_LEFT * 3600 <= autoSecsLeft market now
    /\ Forall (fun m => autoCandidate now s m = true ->
                        autoSecsLeft m now <= autoSecsLeft market now) (markets s)
    /\ Position.conditionId pos = Market.conditionId market
    /\ Position.tokenId pos = tokenOf (Position.side pos) market
    /\ (Position.side pos = UP ->
        0 < Market.gammaUpPrice market <= Market.gammaDownPrice market)
    /\ (Position.side pos = DOWN ->
        0 < Market.gammaDownPrice market
        /\ (Market.gammaUpPrice market <= 0
            \/ Market.gammaDownPrice market < Market.gammaUpPrice market))
    /\ 0.05 <= Position.midPriceAtEntry pos < 0.85
    /\ 1 <= Position.costBasis pos <= MAX_SINGLE_BET
    /\ Position.costBasis pos <= bankroll s.
Proof.
  unfold _autoEntryDaily. destruct (_entryLock s); [discriminate |].
  pose proof (autoEntryInner_buys env now (set_entryLock true s)) as H.
  destruct (_autoEntryDailyInner env now (set_entryLock true s)) as [n s1].
  cbn [fst snd] in *. intros Hn. destruct (H Hn) as (market & pos & Hm & Hp & Hnil & Hrest).
  exists market, pos. cbn [markets positions set_entryLock bankroll] in *.
  split; [exact Hm |]. split; [now rewrite Hp, Hnil |]. split; [exact Hnil |]. exact Hrest.
Qed.

(** The daily market at 0.40 / 0.60 with 21 hours left: UP is bought. *)
Lemma auto_entry_buys_the_cheaper_daily_side_witness :
  exists pos,
    positions (snd (_autoEntryDaily (offering bearCandidate) t0 (stateWith [] 5 0 [] None)))
    = [pos]
    /\ 1 <= Position.costBasis pos <= MAX_SINGLE_BET.
Proof.
  destruct (auto_entry_buys_the_cheaper_daily_side (offering bearCandidate) t0
              (stateWith [] 5 0 [] None))
    as (market & pos & _ & Hp & _ & _ & _ & _ & _ & _ & _ & _ & _ & _ & Hc & _).
  - vm_compute. reflexivity.
  - exists pos. split; assumption.
Defined.
